(** * The TXM instrument session of APS beamline 32-ID-C

    A shallow embedding of [tomo/32id/txm.py]: the [TxmPV] descriptor
    (a proxy for one EPICS process variable), the [permit_required]
    decorator and the [TXM] class with its write queue ([wait_pvs],
    [flush_pvs]), its polling wait ([wait_pv]), the energy change
    ([move_energy]), the sample move ([move_sample]) and the shutters
    ([open_shutters], [close_shutters]).

    Python values are a small universe of scalars; Python floats are the
    kernel's binary64 floats, so the arithmetic of [move_energy] computes as
    it does in CPython.  Mutable objects live in an explicit store, and the
    outside world (the EPICS transport, the wall clock) is an oracle indexed
    by the number of interactions so far. *)

From Stdlib Require Import ZArith Ascii String List Bool Floats Lia.
From stdpp Require Import gmap strings pretty.

Set Warnings "-inexact-float".
Local Open Scope Z_scope.

(** ** Python values *)

(** The scalars that reach the code: [None], [bool], [int], [float], [str]. *)
Inductive pyval : Type :=
| VNone
| VBool (b : bool)
| VInt (z : Z)
| VFloat (f : float)
| VStr (s : string).

(** Exceptions.  [PermitError], [TimeoutError] and [EnergyError] come from
    the program's [exceptions] module; the two that the program formats a
    message for carry it.  Exceptions raised by the interpreter itself are
    kept without their text. *)
Inductive exn : Type :=
| PermitError
| TimeoutError (msg : string)
| EnergyError (msg : string)
| TypeError
| ValueError
| KeyError
| ZeroDivisionError
| OverflowError
| AttributeError.

(** The result of evaluating a pure expression: a value or a raised
    exception. *)
Definition res (A : Type) : Type := (exn + A)%type.

Definition res_bind {A B : Type} (r : res A) (k : A -> res B) : res B :=
  match r with
  | inl e => inl e
  | inr a => k a
  end.

(** ** Numbers *)

(** The numeric view of a value: [bool] is a subclass of [int]. *)
Inductive num : Type :=
| NInt (z : Z)
| NFloat (f : float).

Definition as_num (v : pyval) : option num :=
  match v with
  | VBool b => Some (NInt (if b then 1 else 0))
  | VInt z => Some (NInt z)
  | VFloat f => Some (NFloat f)
  | VNone | VStr _ => None
  end.

(** [int] to [float], rounded to nearest even as CPython does. *)
Definition Z2float (z : Z) : float :=
  SF2Prim (binary_normalize prec emax z 0 false).

Definition float_of_int (z : Z) : res float :=
  let f := Z2float z in
  if PrimFloat.is_infinity f then inl OverflowError else inr f.

Definition num_to_float (n : num) : res float :=
  match n with
  | NInt z => float_of_int z
  | NFloat f => inr f
  end.

(** Python compares an [int] with a [float] exactly, not after conversion.
    A finite float is [m * 2^e]; [None] stands for "unordered" (a NaN). *)
Definition SF_compare_Z (sf : spec_float) (z : Z) : option comparison :=
  match sf with
  | S754_nan => None
  | S754_infinity neg => Some (if neg then Lt else Gt)
  | S754_zero _ => Some (0 ?= z)
  | S754_finite neg m e =>
      let v := if neg then Z.neg m else Z.pos m in
      Some (if 0 <=? e then v * 2 ^ e ?= z else v ?= z * 2 ^ (- e))
  end.

Definition float_compare (x y : float) : option comparison :=
  match PrimFloat.compare x y with
  | FEq => Some Eq
  | FLt => Some Lt
  | FGt => Some Gt
  | FNotComparable => None
  end.

Definition num_compare (a b : num) : option comparison :=
  match a, b with
  | NInt x, NInt y => Some (x ?= y)
  | NFloat x, NFloat y => float_compare x y
  | NFloat x, NInt y => SF_compare_Z (Prim2SF x) y
  | NInt x, NFloat y => option_map CompOpp (SF_compare_Z (Prim2SF y) x)
  end.

(** The ordering of two values, when Python defines one. *)
Definition py_compare (a b : pyval) : res (option comparison) :=
  match as_num a, as_num b with
  | Some x, Some y => inr (num_compare x y)
  | _, _ =>
      match a, b with
      | VStr s, VStr t => inr (Some (String.compare s t))
      | _, _ => inl TypeError
      end
  end.

Definition is_le (c : option comparison) : bool :=
  match c with Some Lt | Some Eq => true | _ => false end.
Definition is_gt (c : option comparison) : bool :=
  match c with Some Gt => true | _ => false end.
Definition is_ge (c : option comparison) : bool :=
  match c with Some Gt | Some Eq => true | _ => false end.

(** [a <= b], [a > b], [a >= b] *)
Definition py_le (a b : pyval) : res bool := res_bind (py_compare a b) (fun c => inr (is_le c)).
Definition py_gt (a b : pyval) : res bool := res_bind (py_compare a b) (fun c => inr (is_gt c)).
Definition py_ge (a b : pyval) : res bool := res_bind (py_compare a b) (fun c => inr (is_ge c)).

(** [a == b] and [a != b]; these never raise on scalars. *)
Definition py_eq (a b : pyval) : bool :=
  match as_num a, as_num b with
  | Some x, Some y => match num_compare x y with Some Eq => true | _ => false end
  | _, _ =>
      match a, b with
      | VNone, VNone => true
      | VStr s, VStr t => String.eqb s t
      | _, _ => false
      end
  end.

Definition py_ne (a b : pyval) : bool := negb (py_eq a b).

(** Truth value of a scalar, as [if v:] takes it. *)
Definition py_truthy (v : pyval) : bool :=
  match v with
  | VNone => false
  | VBool b => b
  | VInt z => negb (z =? 0)
  | VFloat f => negb (PrimFloat.is_zero f)
  | VStr s => negb (String.eqb s "")
  end.

(** ** Arithmetic *)

Local Open Scope string_scope.

Fixpoint str_repeat (n : nat) (s : string) : string :=
  match n with
  | O => ""
  | S n' => s +:+ str_repeat n' s
  end.

Definition float_binop (op : float -> float -> float) (x y : num) : res pyval :=
  res_bind (num_to_float x) (fun fx =>
  res_bind (num_to_float y) (fun fy => inr (VFloat (op fx fy)))).

(** [a * b]: integers stay exact, a float operand makes the product a float,
    a string times an integer repeats the string. *)
Definition py_mul (a b : pyval) : res pyval :=
  match as_num a, as_num b with
  | Some (NInt x), Some (NInt y) => inr (VInt (x * y))
  | Some x, Some y => float_binop PrimFloat.mul x y
  | None, Some (NInt n) =>
      match a with VStr s => inr (VStr (str_repeat (Z.to_nat n) s)) | _ => inl TypeError end
  | Some (NInt n), None =>
      match b with VStr s => inr (VStr (str_repeat (Z.to_nat n) s)) | _ => inl TypeError end
  | _, _ => inl TypeError
  end.

(** [a + b] *)
Definition py_add (a b : pyval) : res pyval :=
  match as_num a, as_num b with
  | Some (NInt x), Some (NInt y) => inr (VInt (x + y))
  | Some x, Some y => float_binop PrimFloat.add x y
  | _, _ =>
      match a, b with
      | VStr s, VStr t => inr (VStr (s +:+ t))
      | _, _ => inl TypeError
      end
  end.

(** [a - b] *)
Definition py_sub (a b : pyval) : res pyval :=
  match as_num a, as_num b with
  | Some (NInt x), Some (NInt y) => inr (VInt (x - y))
  | Some x, Some y => float_binop PrimFloat.sub x y
  | _, _ => inl TypeError
  end.

Definition Z2SF (z : Z) : spec_float :=
  match z with
  | Z0 => S754_zero false
  | Zpos p => S754_finite false p 0
  | Zneg p => S754_finite true p 0
  end.

Definition num_is_zero (n : num) : bool :=
  match n with
  | NInt z => (z =? 0)%Z
  | NFloat f => PrimFloat.is_zero f
  end.

(** [a / b], true division: the quotient of two integers is the correctly
    rounded float; a zero divisor raises. *)
Definition py_truediv (a b : pyval) : res pyval :=
  match as_num a, as_num b with
  | Some x, Some y =>
      if num_is_zero y then inl ZeroDivisionError
      else
        match x, y with
        | NInt p, NInt q =>
            let f := SF2Prim (SFdiv prec emax (Z2SF p) (Z2SF q)) in
            if PrimFloat.is_infinity f then inl OverflowError else inr (VFloat f)
        | _, _ => float_binop PrimFloat.div x y
        end
  | _, _ => inl TypeError
  end.

(** [a ** 2], the only power the program takes.  The square of a float is
    taken as the correctly rounded product; an overflow raises. *)
Definition py_pow2 (a : pyval) : res pyval :=
  match as_num a with
  | Some (NInt x) => inr (VInt (x * x))
  | Some (NFloat f) =>
      let r := (f * f)%float in
      if PrimFloat.is_infinity r && negb (PrimFloat.is_infinity f)
      then inl OverflowError else inr (VFloat r)
  | None => inl TypeError
  end.

(** [math.sqrt(a)] *)
Definition math_sqrt (a : pyval) : res pyval :=
  match as_num a with
  | Some x =>
      res_bind (num_to_float x) (fun f =>
        if (f <? 0)%float then inl ValueError else inr (VFloat (PrimFloat.sqrt f)))
  | None => inl TypeError
  end.

(** ** The interpreter and the outside world *)

(** What the program takes from its surroundings.  [float_repr] and
    [float_parse] are CPython's printing and reading of floats.  The other
    three are the EPICS transport and the clock, indexed by the number of
    interactions the session has had with them so far: [ca_get n name] is
    what a read of the process variable [name] returns at interaction [n],
    [ca_done n k] tells whether at interaction [n] the remote side has
    acknowledged the [k]-th write, and [clock n] is [time.time()]. *)
Record Runtime : Type := {
  float_repr : float -> string;
  float_parse : string -> option float;
  ca_get : nat -> string -> pyval;
  ca_done : nat -> nat -> bool;
  clock : nat -> float
}.

(** ** Conversions and formatting *)

(** [str(v)], which is also how [str.format] renders a [{}] field. *)
Definition py_str (rt : Runtime) (v : pyval) : string :=
  match v with
  | VNone => "None"
  | VBool b => if b then "True" else "False"
  | VInt z => pretty z
  | VFloat f => float_repr rt f
  | VStr s => s
  end.

(** The builtin [float] used as a [dtype]. *)
Definition py_float (rt : Runtime) (v : pyval) : res pyval :=
  match v with
  | VNone => inl TypeError
  | VBool b => inr (VFloat (if b then 1 else 0)%float)
  | VInt z => res_bind (float_of_int z) (fun f => inr (VFloat f))
  | VFloat f => inr (VFloat f)
  | VStr s => match float_parse rt s with Some f => inr (VFloat f) | None => inl ValueError end
  end.

(** The builtin [str] used as a [dtype]. *)
Definition py_str_dtype (rt : Runtime) (v : pyval) : res pyval := inr (VStr (py_str rt v)).

Definition is_brace_open (c : ascii) : bool := Ascii.eqb c "{"%char.
Definition is_brace_close (c : ascii) : bool := Ascii.eqb c "}"%char.

(** [template.format(ioc_prefix=prefix)], for templates whose replacement
    fields are plain names.  [field] is the text of the replacement field
    being read, if one is open.  Doubled braces are literal braces, a lone
    brace is a [ValueError], the field [{ioc_prefix}] is replaced by the
    prefix, and a field of another plain name is a [KeyError], all as in
    Python.  Fields that Python treats otherwise (an empty or numbered
    field, an index, an attribute, a conversion or a format specification)
    are outside the model: the function reports them as [KeyError] as well,
    and the statements below do not depend on what it reports for them:
    they assume that the name formats, or take a template of one of the two
    shapes the class uses, or name the template. *)
Fixpoint format_ioc_prefix_go (template : string) (field : option string) (prefix : string)
  : res string :=
  match template with
  | EmptyString =>
      match field with
      | None => inr ""
      | Some _ => inl ValueError
      end
  | String c rest =>
      match field with
      | Some f =>
          if is_brace_close c then
            if String.eqb f "ioc_prefix"
            then res_bind (format_ioc_prefix_go rest None prefix) (fun s => inr (prefix +:+ s))
            else inl KeyError
          else format_ioc_prefix_go rest (Some (f +:+ String c "")) prefix
      | None =>
          if is_brace_open c then
            match rest with
            | String c' rest' =>
                if is_brace_open c'
                then res_bind (format_ioc_prefix_go rest' None prefix) (fun s => inr (String c s))
                else format_ioc_prefix_go rest (Some "") prefix
            | EmptyString => inl ValueError
            end
          else if is_brace_close c then
            match rest with
            | String c' rest' =>
                if is_brace_close c'
                then res_bind (format_ioc_prefix_go rest' None prefix) (fun s => inr (String c s))
                else inl ValueError
            | EmptyString => inl ValueError
            end
          else res_bind (format_ioc_prefix_go rest None prefix) (fun s => inr (String c s))
      end
  end.

Definition format_ioc_prefix (template prefix : string) : res string :=
  format_ioc_prefix_go template None prefix.

(** ** Objects and the store *)

(** A [TXM] instance.  The attributes set by [__init__] are fields;
    [pv_queue] is the instance attribute of that name, [None] as long as
    the instance has none of its own and the lookup falls through to the
    class attribute [TXM.pv_queue]; [attrs] holds every other attribute
    assigned on the instance. *)
Module TXM.
Record t : Type := mk {
  is_attached : bool;
  has_permit : bool;
  ioc_prefix : string;
  use_shutter_A : bool;
  use_shutter_B : bool;
  zp_diameter : pyval;
  drn : pyval;
  pv_queue : option (list string);
  attrs : gmap string pyval
}.

Definition set_pv_queue (q : option (list string)) (x : t) : t :=
  mk (is_attached x) (has_permit x) (ioc_prefix x) (use_shutter_A x) (use_shutter_B x)
     (zp_diameter x) (drn x) q (attrs x).

Definition set_attrs (a : gmap string pyval) (x : t) : t :=
  mk (is_attached x) (has_permit x) (ioc_prefix x) (use_shutter_A x) (use_shutter_B x)
     (zp_diameter x) (drn x) (pv_queue x) a.
End TXM.

(** A [TxmPV] descriptor object.  [_epicsPV] is the [EpicsPV] object, kept
    as the process-variable name it was created for; [ioc_prefix] does not
    exist before the first binding; [put_complete] starts from the class
    attribute [True].  [get_kwargs] is [{}] throughout the program and is
    left out. *)
Module TxmPV.
Record t : Type := mk {
  _namestring : string;
  curr_value : pyval;
  dtype : option (pyval -> res pyval);
  permit_required : bool;
  wait : bool;
  _epicsPV : option string;
  ioc_prefix : option string;
  put_complete : bool;
  txm : option TXM.t
}.

Definition set_curr_value (v : pyval) (x : t) : t :=
  mk (_namestring x) v (dtype x) (permit_required x) (wait x) (_epicsPV x) (ioc_prefix x)
     (put_complete x) (txm x).

Definition set_put_complete (b : bool) (x : t) : t :=
  mk (_namestring x) (curr_value x) (dtype x) (permit_required x) (wait x) (_epicsPV x)
     (ioc_prefix x) b (txm x).

Definition set_txm (s : TXM.t) (x : t) : t :=
  mk (_namestring x) (curr_value x) (dtype x) (permit_required x) (wait x) (_epicsPV x)
     (ioc_prefix x) (put_complete x) (Some s).

Definition set_binding (prefix pv : string) (x : t) : t :=
  mk (_namestring x) (curr_value x) (dtype x) (permit_required x) (wait x) (Some pv)
     (Some prefix) (put_complete x) (txm x).

(** [TxmPV.__init__]: the [dtype], if any, must accept the default. *)
Definition __init__ (pv_name : string) (dtype : option (pyval -> res pyval))
    (default : pyval) (permit_required wait : bool) : res t :=
  res_bind (match dtype with Some d => d default | None => inr default end) (fun _ =>
  inr (mk pv_name default dtype permit_required wait None None true None)).
End TxmPV.

(** A write handed to the transport: [pv.put(val, wait=True)] when
    [put_wait], [pv.put(val, callback=..., callback_data=...)] otherwise. *)
Record put_record : Type := {
  put_pv : string;
  put_val : pyval;
  put_wait : bool
}.

(** A completion callback the transport still owes: the bound method
    [self.complete_put] of the descriptor [cb_self] with its
    [callback_data], for the write number [cb_serial]. *)
Record callback : Type := {
  cb_serial : nat;
  cb_self : string;
  cb_data : TXM.t
}.

(** The store as one session's thread sees it.  Descriptors are class
    attributes of [TXM], so [pvs] (by attribute name) and [class_pv_queue]
    (the list [TXM.pv_queue]) are shared by every session; [session] is the
    instance the thread works on.  The rest records the dealings with the
    outside: the number of interactions so far, the writes issued, the
    callbacks owed, the warnings raised, and the queues [flush_pvs] has
    reported to the log. *)
Record world : Type := mkWorld {
  pvs : gmap string TxmPV.t;
  class_pv_queue : list string;
  session : TXM.t;
  now : nat;
  puts : list put_record;
  callbacks : list callback;
  warnings : list string;
  flushed : list (list string)
}.

Definition set_pvs (x : gmap string TxmPV.t) (w : world) : world :=
  mkWorld x (class_pv_queue w) (session w) (now w) (puts w) (callbacks w) (warnings w) (flushed w).
Definition set_class_pv_queue (x : list string) (w : world) : world :=
  mkWorld (pvs w) x (session w) (now w) (puts w) (callbacks w) (warnings w) (flushed w).
Definition set_session (x : TXM.t) (w : world) : world :=
  mkWorld (pvs w) (class_pv_queue w) x (now w) (puts w) (callbacks w) (warnings w) (flushed w).
Definition set_now (x : nat) (w : world) : world :=
  mkWorld (pvs w) (class_pv_queue w) (session w) x (puts w) (callbacks w) (warnings w) (flushed w).
Definition set_puts (x : list put_record) (w : world) : world :=
  mkWorld (pvs w) (class_pv_queue w) (session w) (now w) x (callbacks w) (warnings w) (flushed w).
Definition set_callbacks (x : list callback) (w : world) : world :=
  mkWorld (pvs w) (class_pv_queue w) (session w) (now w) (puts w) x (warnings w) (flushed w).
Definition set_warnings (x : list string) (w : world) : world :=
  mkWorld (pvs w) (class_pv_queue w) (session w) (now w) (puts w) (callbacks w) x (flushed w).
Definition set_flushed (x : list (list string)) (w : world) : world :=
  mkWorld (pvs w) (class_pv_queue w) (session w) (now w) (puts w) (callbacks w) (warnings w) x.

(** The list [txm.pv_queue] evaluates to: the instance's own if it has one,
    the class's otherwise. *)
Definition queue_of (w : world) : list string :=
  match TXM.pv_queue (session w) with
  | Some q => q
  | None => class_pv_queue w
  end.

(** The descriptor bound to a name.  Queues hold references to descriptor
    objects, which cannot dangle; a name without an object reads as a
    freshly made descriptor. *)
Definition blank : TxmPV.t := TxmPV.mk "" VNone None false false None None true None.
Definition pv_at (w : world) (self : string) : TxmPV.t := default blank (pvs w !! self).

(** ** Computations *)

(** A computation ends with a value, ends with an exception, or is still
    inside a loop when its budget of iterations is spent.  The store
    survives an exception. *)
Inductive outcome (A : Type) : Type :=
| Ret (a : A) (w : world)
| Raise (e : exn) (w : world)
| Blocked.
Arguments Ret {A} a w.
Arguments Raise {A} e w.
Arguments Blocked {A}.

(** [m n w] runs [m] from the store [w], every loop being allowed [n] turns. *)
Definition M (A : Type) : Type := nat -> world -> outcome A.

Definition ret {A : Type} (a : A) : M A := fun _ w => Ret a w.

Definition bind {A B : Type} (m : M A) (k : A -> M B) : M B :=
  fun n w =>
    match m n w with
    | Ret a w' => k a n w'
    | Raise e w' => Raise e w'
    | Blocked => Blocked
    end.

Definition raise {A : Type} (e : exn) : M A := fun _ w => Raise e w.

Definition lift {A : Type} (r : res A) : M A :=
  match r with
  | inl e => raise e
  | inr a => ret a
  end.

Definition gets {A : Type} (f : world -> A) : M A := fun _ w => Ret (f w) w.
Definition modify (f : world -> world) : M unit := fun _ w => Ret tt (f w).

Declare Scope py_scope.
Delimit Scope py_scope with py.
Notation "x <- m ;; k" := (bind m (fun x => k))
  (at level 100, m at next level, k at level 200, right associativity) : py_scope.
Notation "m ;; k" := (bind m (fun _ => k))
  (at level 100, k at level 200, right associativity) : py_scope.
Local Open Scope py_scope.

(** [while cond: body], with the loop's local variables [s] threaded
    through.  The result is [inl s] when the condition ended the loop and
    [inr a] when the body executed [return a]. *)
Fixpoint while_fuel {S A : Type} (fuel : nat) (cond : S -> M bool) (body : S -> M (S + A))
    (s : S) : M (S + A) :=
  fun n w =>
    match cond s n w with
    | Ret true w1 =>
        match fuel with
        | O => Blocked
        | Datatypes.S fuel' =>
            match body s n w1 with
            | Ret (inl s') w2 => while_fuel fuel' cond body s' n w2
            | Ret (inr a) w2 => Ret (inr a) w2
            | Raise e w2 => Raise e w2
            | Blocked => Blocked
            end
        end
    | Ret false w1 => Ret (inl s) w1
    | Raise e w1 => Raise e w1
    | Blocked => Blocked
    end.

Definition while_ {S A : Type} (cond : S -> M bool) (body : S -> M (S + A)) (s : S)
  : M (S + A) :=
  fun n => while_fuel n cond body s n.

Section Program.

Context (rt : Runtime).

(** ** The outside world: reads and the clock *)

(** Every dealing with the outside moves the oracle's index on. *)
Definition tick : M unit := modify (fun w => set_now (S (now w)) w).

(** [pv.get()] on the [EpicsPV] object of the process variable [pv] *)
Definition epics_get (pv : string) : M pyval :=
  v <- gets (fun w => ca_get rt (now w) pv) ;;
  tick ;;
  ret v.

(** [time.time()] *)
Definition time_time : M float :=
  t <- gets (fun w => clock rt (now w)) ;;
  tick ;;
  ret t.

(** [warnings.warn(msg)] *)
Definition warn (msg : string) : M unit :=
  modify (fun w => set_warnings (warnings w ++ [msg]) w).

(** ** class TxmPV *)

(** [self.field] and [self.field = ...] on the descriptor named [self] *)
Definition attr {A : Type} (self : string) (field : TxmPV.t -> A) : M A :=
  gets (fun w => field (pv_at w self)).

Definition update (self : string) (f : TxmPV.t -> TxmPV.t) : M unit :=
  modify (fun w => set_pvs (<[self := f (pv_at w self)]> (pvs w)) w).

Definition set_ioc_prefix (p : string) (x : TxmPV.t) : TxmPV.t :=
  TxmPV.mk (TxmPV._namestring x) (TxmPV.curr_value x) (TxmPV.dtype x) (TxmPV.permit_required x)
    (TxmPV.wait x) (TxmPV._epicsPV x) (Some p) (TxmPV.put_complete x) (TxmPV.txm x).

Definition set_epicsPV (pv : string) (x : TxmPV.t) : TxmPV.t :=
  TxmPV.mk (TxmPV._namestring x) (TxmPV.curr_value x) (TxmPV.dtype x) (TxmPV.permit_required x)
    (TxmPV.wait x) (Some pv) (TxmPV.ioc_prefix x) (TxmPV.put_complete x) (TxmPV.txm x).

(** [TxmPV.pv_name]: the name template with the session's prefix filled in *)
Definition pv_name (self : string) (txm : TXM.t) : M string :=
  ns <- attr self TxmPV._namestring ;;
  lift (format_ioc_prefix ns (TXM.ioc_prefix txm)).

(** [TxmPV.get_epics_PV]: the [EpicsPV] object, made anew when there is none
    or the session's prefix is not the one it was made for.  Creating an
    [EpicsPV] does not wait for the connection and does not raise. *)
Definition get_epics_PV (self : string) (txm : TXM.t) : M string :=
  epv <- attr self TxmPV._epicsPV ;;
  cached <-
    match epv with
    | None => ret None
    | Some pv =>
        pfx <- attr self TxmPV.ioc_prefix ;;
        match pfx with
        | None => raise AttributeError
        | Some p => ret (if String.eqb p (TXM.ioc_prefix txm) then Some pv else None)
        end
    end ;;
  match cached with
  | Some pv => ret pv
  | None =>
      update self (set_ioc_prefix (TXM.ioc_prefix txm)) ;;
      name <- pv_name self txm ;;
      update self (set_epicsPV name) ;;
      ret name
  end.

(** [TxmPV.__get__] *)
Definition __get__ (self : string) : M pyval :=
  txm <- gets session ;;
  (if TXM.is_attached txm then
     pv <- get_epics_PV self txm ;;
     v <- epics_get pv ;;
     update self (TxmPV.set_curr_value v)
   else ret tt) ;;
  dt <- attr self TxmPV.dtype ;;
  match dt with
  | Some d =>
      cv <- attr self TxmPV.curr_value ;;
      v <- lift (d cv) ;;
      update self (TxmPV.set_curr_value v)
  | None => ret tt
  end ;;
  attr self TxmPV.curr_value.

(** The body of [TxmPV.complete_put].  It only ever runs on the
    transport's callback thread (see [__set__]), where [time.sleep] lets
    time pass and nothing else. *)
Definition complete_put_body (self : string) (txm : TXM.t) : M unit :=
  let is_not_done := if TXM.is_attached txm then true else false in
  while_ (A := Empty_set)
    (fun is_not_done => w <- attr self TxmPV.wait ;; ret (is_not_done && w))
    (fun _ =>
       tick ;;
       pv <- get_epics_PV self txm ;;
       curr_val <- epics_get pv ;;
       cv <- attr self TxmPV.curr_value ;;
       ret (inl (py_ne curr_val cv)))
    is_not_done ;;
  update self (TxmPV.set_put_complete true).

(** A call of [complete_put] with the given positional arguments after
    [self]: the signature is [complete_put(self, txm)]. *)
Definition complete_put (self : string) (args : list TXM.t) : M unit :=
  match args with
  | [txm] => complete_put_body self txm
  | _ => raise TypeError
  end.

(** ** The outside world: writes and their completion *)

(** Modelled from the spec: the transport is an external library; its
    contract is that the completion callback of a non-blocking write is
    invoked once, asynchronously, on completion.  The callback is invoked
    with its [callback_data] as arguments.  An exception in a callback stays
    on the transport's thread, and a callback still polling when the budget
    is spent has not completed its write. *)
Definition run_callback (cb : callback) : M unit :=
  fun n w =>
    match complete_put (cb_self cb) [cb_data cb] n w with
    | Ret _ w' => Ret tt w'
    | Raise _ w' => Ret tt w'
    | Blocked => Ret tt w
    end.

Fixpoint run_callbacks (cbs : list callback) : M unit :=
  match cbs with
  | [] => ret tt
  | cb :: rest => run_callback cb ;; run_callbacks rest
  end.

(** The callbacks of the writes acknowledged by now run, in the order the
    writes were issued. *)
Definition deliver : M unit :=
  w <- gets (fun w => w) ;;
  let acked := fun cb => ca_done rt (now w) (cb_serial cb) in
  modify (set_callbacks (List.filter (fun cb => negb (acked cb)) (callbacks w))) ;;
  run_callbacks (List.filter acked (callbacks w)).

(** [time.sleep(seconds)] on the session's thread: the transport's thread
    gets to run. *)
Definition time_sleep (seconds : float) : M unit :=
  tick ;;
  deliver.

Definition log_put (pv : string) (val : pyval) (blocking : bool) : M unit :=
  modify (fun w => set_puts (puts w ++ [{| put_pv := pv; put_val := val; put_wait := blocking |}]) w).

(** [pv.put(val, wait=True)] *)
Definition epics_put_wait (pv : string) (val : pyval) : M unit :=
  log_put pv val true ;;
  tick ;;
  deliver.

(** [pv.put(val, callback=self.complete_put, callback_data=(txm,))] *)
Definition epics_put_callback (pv : string) (val : pyval) (self : string) (txm : TXM.t)
  : M unit :=
  k <- gets (fun w => length (puts w)) ;;
  log_put pv val false ;;
  modify (fun w =>
    set_callbacks (callbacks w ++ [{| cb_serial := k; cb_self := self; cb_data := txm |}]) w) ;;
  tick ;;
  deliver.

(** [txm.pv_queue.append(self)]: the list is changed in place, whichever
    object the attribute lookup yields. *)
Definition pv_queue_append (self : string) : M unit :=
  modify (fun w =>
    match TXM.pv_queue (session w) with
    | Some q => set_session (TXM.set_pv_queue (Some (q ++ [self])%list) (session w)) w
    | None => set_class_pv_queue (class_pv_queue w ++ [self])%list w
    end).

(** The warning of a refused write.  The code formats the bound method
    [self.pv_name] (it does not call it), so the text shows its [repr]. *)
Definition permit_warning (namestring : string) : string :=
  "PV <bound method TxmPV.pv_name of <TxmPV: " +:+ namestring +:+
  ">> was not set because TXM doesn't have permission.".

(** [TxmPV.__set__].  The session [txm] is the one of the store; where the
    code keeps a reference to it ([self.txm], [callback_data]) the model
    keeps its state at that moment, of which only [is_attached] and
    [ioc_prefix] are ever read. *)
Definition __set__ (self : string) (val : pyval) : M unit :=
  txm <- gets session ;;
  update self (TxmPV.set_txm txm) ;;
  required <- attr self TxmPV.permit_required ;;
  permit_clear <-
    (if TXM.is_attached txm && required && negb (TXM.has_permit txm) then
       ns <- attr self TxmPV._namestring ;;
       warn (permit_warning ns) ;;
       ret false
     else
       update self (TxmPV.set_curr_value val) ;;
       ret true) ;;
  if TXM.is_attached txm && permit_clear then
    pv <- get_epics_PV self txm ;;
    update self (TxmPV.set_put_complete false) ;;
    pv_queue_append self ;;
    blocking <- attr self TxmPV.wait ;;
    if blocking then
      epics_put_wait pv val ;;
      complete_put self []
    else
      epics_put_callback pv val self txm
  else if negb (TXM.is_attached txm) then
    update self (TxmPV.set_put_complete true)
  else ret tt.

(** ** class TXM *)

(** The class attributes [SHUTTER_OPEN], [SHUTTER_CLOSED], [E_RANGE] (in
    keV) and [POLL_INTERVAL] (in seconds), and the module's
    [DEFAULT_TIMEOUT]. *)
Definition DEFAULT_TIMEOUT : pyval := VInt 20.
Definition SHUTTER_OPEN : pyval := VInt 0.
Definition SHUTTER_CLOSED : pyval := VInt 1.
Definition E_RANGE : pyval * pyval := (VInt 5, VInt 10).
Definition POLL_INTERVAL : float := 0.01%float.

Local Abbreviation PV ns := (TxmPV.__init__ ns None VNone false false).

(** The process variables declared in the class body, in source order. *)
Definition TXM_class_body : list (string * res TxmPV.t) :=
  [
    ("Cam1_ImageMode", PV "{ioc_prefix}cam1:ImageMode");
    ("Cam1_ArrayCallbacks", PV "{ioc_prefix}cam1:ArrayCallbacks");
    ("Cam1_AcquirePeriod", PV "{ioc_prefix}cam1:AcquirePeriod");
    ("Cam1_TriggerMode", PV "{ioc_prefix}cam1:TriggerMode");
    ("Cam1_SoftwareTrigger", PV "{ioc_prefix}cam1:SoftwareTrigger");
    ("Cam1_AcquireTime", PV "{ioc_prefix}cam1:AcquireTime");
    ("Cam1_FrameRateOnOff", PV "{ioc_prefix}cam1:FrameRateOnOff");
    ("Cam1_FrameType", PV "{ioc_prefix}cam1:FrameType");
    ("Cam1_NumImages", PV "{ioc_prefix}cam1:NumImages");
    ("Cam1_Acquire", PV "{ioc_prefix}cam1:Acquire");
    ("CCD_Motor", TxmPV.__init__ "WHAT GOES HERE!?" None (VInt 500) false false);
    ("HDF1_AutoSave", PV "{ioc_prefix}HDF1:AutoSave");
    ("HDF1_DeleteDriverFile", PV "{ioc_prefix}HDF1:DeleteDriverFile");
    ("HDF1_EnableCallbacks", PV "{ioc_prefix}HDF1:EnableCallbacks");
    ("HDF1_BlockingCallbacks", PV "{ioc_prefix}HDF1:BlockingCallbacks");
    ("HDF1_FileWriteMode", PV "{ioc_prefix}HDF1:FileWriteMode");
    ("HDF1_NumCapture", PV "{ioc_prefix}HDF1:NumCapture");
    ("HDF1_Capture", PV "{ioc_prefix}HDF1:Capture");
    ("HDF1_Capture_RBV", PV "{ioc_prefix}HDF1:Capture_RBV");
    ("HDF1_FileName", PV "{ioc_prefix}HDF1:FileName");
    ("HDF1_FullFileName_RBV", TxmPV.__init__ "{ioc_prefix}HDF1:FullFileName_RBV" (Some (py_str_dtype rt)) (VStr "") false false);
    ("HDF1_FileTemplate", PV "{ioc_prefix}HDF1:FileTemplate");
    ("HDF1_ArrayPort", PV "{ioc_prefix}HDF1:NDArrayPort");
    ("Motor_SampleX", PV "32idcTXM:mcs:c1:m2.VAL");
    ("Motor_SampleY", PV "32idcTXM:xps:c1:m7.VAL");
    ("Motor_SampleRot", PV "32idcTXM:ens:c1:m1.VAL");
    ("Motor_SampleZ", PV "32idcTXM:mcs:c1:m1.VAL");
    ("Motor_X_Tile", PV "32idc01:m33.VAL");
    ("Motor_Y_Tile", PV "32idc02:m15.VAL");
    ("ShutterA_Open", TxmPV.__init__ "32idb:rshtrA:Open" None VNone true false);
    ("ShutterA_Close", TxmPV.__init__ "32idb:rshtrA:Close" None VNone true false);
    ("ShutterA_Move_Status", TxmPV.__init__ "PB:32ID:STA_A_FES_CLSD_PL" None (VInt 0) false false);
    ("ShutterB_Open", TxmPV.__init__ "32idb:fbShutter:Open.PROC" None VNone true false);
    ("ShutterB_Close", TxmPV.__init__ "32idb:fbShutter:Close.PROC" None VNone true false);
    ("ShutterB_Move_Status", TxmPV.__init__ "PB:32ID:STA_B_SBS_CLSD_PL" None (VInt 0) false false);
    ("ExternalShutter_Trigger", TxmPV.__init__ "32idcTXM:shutCam:go" None VNone true false);
    ("Fly_ScanDelta", PV "32idcTXM:eFly:scanDelta");
    ("Fly_StartPos", PV "32idcTXM:eFly:startPos");
    ("Fly_EndPos", PV "32idcTXM:eFly:endPos");
    ("Fly_SlewSpeed", PV "32idcTXM:eFly:slewSpeed");
    ("Fly_Taxi", PV "32idcTXM:eFly:taxi");
    ("Fly_Run", PV "32idcTXM:eFly:fly");
    ("Fly_ScanControl", PV "32idcTXM:eFly:scanControl");
    ("Fly_Calc_Projections", PV "32idcTXM:eFly:calcNumTriggers");
    ("Reset_Theta", PV "32idcTXM:SG_RdCntr:reset.PROC");
    ("Proc_Theta", PV "32idcTXM:SG_RdCntr:cVals.PROC");
    ("Theta_Array", PV "32idcTXM:eFly:motorPos.AVAL");
    ("Theta_Cnt", PV "32idcTXM:SG_RdCntr:aSub.VALB");
    ("Image1_Callbacks", PV "{ioc_prefix}image1:EnableCallbacks");
    ("ExternShutterExposure", PV "32idcTXM:shutCam:tExpose");
    ("SetSoftGlueForStep", PV "32idcTXM:SG3:MUX2-1_SEL_Signal");
    ("ExternShutterDelay", PV "32idcTXM:shutCam:tDly");
    ("Interferometer", PV "32idcTXM:SG2:UpDnCntr-1_COUNTS_s");
    ("Interferometer_Update", PV "32idcTXM:SG2:UpDnCntr-1_COUNTS_SCAN.PROC");
    ("Interferometer_Reset", PV "32idcTXM:SG_RdCntr:reset.PROC");
    ("Interferometer_Cnt", PV "32idcTXM:SG_RdCntr:aSub.VALB");
    ("Interferometer_Arr", PV "32idcTXM:SG_RdCntr:cVals.AA");
    ("Interferometer_Proc_Arr", PV "32idcTXM:SG_RdCntr:cVals.PROC");
    ("Interferometer_Val", PV "32idcTXM:userAve4.VAL");
    ("Interferometer_Mode", PV "32idcTXM:userAve4_mode.VAL");
    ("Interferometer_Acquire", PV "32idcTXM:userAve4_acquire.PROC");
    ("Proc1_Callbacks", PV "{ioc_prefix}Proc1:EnableCallbacks");
    ("Proc1_ArrayPort", PV "{ioc_prefix}Proc1:NDArrayPort");
    ("Proc1_Filter_Enable", PV "{ioc_prefix}Proc1:EnableFilter");
    ("Proc1_Filter_Type", PV "{ioc_prefix}Proc1:FilterType");
    ("Proc1_Num_Filter", PV "{ioc_prefix}Proc1:NumFilter");
    ("Proc1_Reset_Filter", PV "{ioc_prefix}Proc1:ResetFilter");
    ("Proc1_AutoReset_Filter", PV "{ioc_prefix}Proc1:AutoResetFilter");
    ("Proc1_Filter_Callbacks", PV "{ioc_prefix}Proc1:FilterCallbacks");
    ("TIFF1_AutoSave", PV "{ioc_prefix}TIFF1:AutoSave");
    ("TIFF1_DeleteDriverFile", PV "{ioc_prefix}TIFF1:DeleteDriverFile");
    ("TIFF1_EnableCallbacks", PV "{ioc_prefix}TIFF1:EnableCallbacks");
    ("TIFF1_BlockingCallbacks", PV "{ioc_prefix}TIFF1:BlockingCallbacks");
    ("TIFF1_FileWriteMode", PV "{ioc_prefix}TIFF1:FileWriteMode");
    ("TIFF1_NumCapture", PV "{ioc_prefix}TIFF1:NumCapture");
    ("TIFF1_Capture", PV "{ioc_prefix}TIFF1:Capture");
    ("TIFF1_FullFileName_RBV", PV "{ioc_prefix}TIFF1:FullFileName_RBV");
    ("TIFF1_FileNumber", PV "{ioc_prefix}TIFF1:FileNumber");
    ("TIFF1_FileName", PV "{ioc_prefix}TIFF1:FileName");
    ("TIFF1_ArrayPort", PV "{ioc_prefix}TIFF1:NDArrayPort");
    ("DCMmvt", TxmPV.__init__ "32ida:KohzuModeBO.VAL" None VNone true false);
    ("GAPputEnergy", TxmPV.__init__ "32id:ID32us_energy" None VNone true false);
    ("EnergyWait", PV "ID32us:Busy");
    ("DCMputEnergy", TxmPV.__init__ "32ida:BraggEAO.VAL" (Some (py_float rt)) (VFloat 8.6) true false)
  ].

(** Executing the class body binds each name to its descriptor; a later
    binding of a name replaces an earlier one. *)
Fixpoint exec_class_body (body : list (string * res TxmPV.t)) (acc : gmap string TxmPV.t)
  : res (gmap string TxmPV.t) :=
  match body with
  | [] => inr acc
  | (name, made) :: rest =>
      res_bind made (fun pv => exec_class_body rest (<[name := pv]> acc))
  end.

(** The descriptors of the class [TXM] as defined. *)
Definition TXM_pvs : gmap string TxmPV.t :=
  match exec_class_body TXM_class_body ∅ with
  | inr m => m
  | inl _ => ∅
  end.

(** [TXM.__init__], with the defaults of its signature where [None] is
    passed. *)
Definition TXM_init (has_permit is_attached : option bool) (ioc_prefix : option string)
    (use_shutter_A use_shutter_B : option bool) (zp_diameter drn : option pyval) : TXM.t :=
  TXM.mk (default true is_attached) (default false has_permit) (default "" ioc_prefix)
    (default false use_shutter_A) (default false use_shutter_B)
    (default (VInt 180) zp_diameter) (default (VInt 60) drn) None ∅.

(** The store right after the class is defined and [txm] is created:
    [TXM.pv_queue = []], nothing has happened yet. *)
Definition boot (txm : TXM.t) : world :=
  mkWorld TXM_pvs [] txm 0 [] [] [] [].

(** [getattr(self, name)]: a descriptor of the class comes first, then the
    instance's own attributes, then the scalar class attributes.
    Attributes that are not scalars (methods, [E_RANGE], [pv_queue]) are
    outside the universe of values and read as missing. *)
Definition getattr_ (name : string) : M pyval :=
  w <- gets (fun w => w) ;;
  match pvs w !! name with
  | Some _ => __get__ name
  | None =>
      match TXM.attrs (session w) !! name with
      | Some v => ret v
      | None =>
          let txm := session w in
          if String.eqb name "is_attached" then ret (VBool (TXM.is_attached txm))
          else if String.eqb name "has_permit" then ret (VBool (TXM.has_permit txm))
          else if String.eqb name "ioc_prefix" then ret (VStr (TXM.ioc_prefix txm))
          else if String.eqb name "use_shutter_A" then ret (VBool (TXM.use_shutter_A txm))
          else if String.eqb name "use_shutter_B" then ret (VBool (TXM.use_shutter_B txm))
          else if String.eqb name "zp_diameter" then ret (TXM.zp_diameter txm)
          else if String.eqb name "drn" then ret (TXM.drn txm)
          else if String.eqb name "SHUTTER_OPEN" then ret SHUTTER_OPEN
          else if String.eqb name "SHUTTER_CLOSED" then ret SHUTTER_CLOSED
          else if String.eqb name "POLL_INTERVAL" then ret (VFloat POLL_INTERVAL)
          else raise AttributeError
      end
  end.

(** [self.name = val]: a descriptor of the class takes the assignment,
    otherwise the value is stored on the instance.  (The program assigns
    the attributes of [__init__] nowhere else.) *)
Definition setattr_ (name : string) (val : pyval) : M unit :=
  w <- gets (fun w => w) ;;
  match pvs w !! name with
  | Some _ => __set__ name val
  | None =>
      modify (fun w =>
        set_session (TXM.set_attrs (<[name := val]> (TXM.attrs (session w))) (session w)) w)
  end.

(** The decorator [permit_required] *)
Definition permit_required {A : Type} (real_func : M A) : M A :=
  obj <- gets session ;;
  if TXM.has_permit obj then real_func else raise PermitError.

(** [all([pv.put_complete for pv in self.pv_queue])] *)
Definition all_put_complete (w : world) : bool :=
  forallb (fun self => TxmPV.put_complete (pv_at w self)) (queue_of w).

(** [TXM.flush_pvs].  The queue it reports to the log is kept in
    [flushed]. *)
Definition flush_pvs : M unit :=
  while_ (A := Empty_set)
    (fun _ => done <- gets all_put_complete ;; ret (negb done))
    (fun _ => time_sleep 0.01 ;; ret (inl tt))
    tt ;;
  modify (fun w => set_flushed (flushed w ++ [queue_of w])%list w) ;;
  modify (fun w => set_session (TXM.set_pv_queue (Some []) (session w)) w).

(** [TXM.wait_pvs], the context manager: the code before its [yield] ... *)
Definition wait_pvs_enter : M unit :=
  flush_pvs ;;
  modify (fun w => set_session (TXM.set_pv_queue (Some []) (session w)) w).

(** ... and the code after it. *)
Definition wait_pvs_exit : M unit :=
  flush_pvs.

(** [with self.wait_pvs(): body].  An exception of the body is thrown into
    the generator at its [yield], where nothing catches it: the code after
    the [yield] does not run. *)
Definition wait_pvs {A : Type} (body : M A) : M A :=
  wait_pvs_enter ;;
  r <- body ;;
  wait_pvs_exit ;;
  ret r.

Definition timeout_message (pv_name : string) (target_val timeout : pyval) : string :=
  "Timed out '" +:+ pv_name +:+ "' (" +:+ py_str rt target_val +:+ ") after " +:+
  py_str rt timeout +:+ "s".

(** [TXM.wait_pv].  A function that ends without [return] yields [None]. *)
Definition wait_pv (pv_name : string) (target_val timeout : pyval) : M pyval :=
  time_sleep POLL_INTERVAL ;;
  startTime <- time_time ;;
  r <- while_
    (fun _ => self <- gets session ;; ret (true && TXM.is_attached self))
    (fun _ =>
       pv_val <- getattr_ pv_name ;;
       if py_ne pv_val target_val then
         enforced <- lift (py_gt timeout (VInt (-1))) ;;
         (if enforced then
            curTime <- time_time ;;
            let diffTime := (curTime - startTime)%float in
            expired <- lift (py_ge (VFloat diffTime) timeout) ;;
            if expired then raise (TimeoutError (timeout_message pv_name target_val timeout))
            else ret tt
          else ret tt) ;;
         time_sleep 0.01 ;;
         ret (inl tt)
       else
         ret (inr (VBool true)))
    tt ;;
  match r with
  | inr v => ret v
  | inl _ => ret VNone
  end.

Definition energy_message (energy : pyval) : string :=
  "Energy " +:+ py_str rt energy +:+ " keV not in range " +:+ py_str rt (fst E_RANGE) +:+
  " - " +:+ py_str rt (snd E_RANGE) +:+ " keV".

(** [TXM.move_energy], under its decorator.  [constant_mag] defaults to
    [True] and [gap_offset] to [0.]. *)
Definition move_energy (energy constant_mag gap_offset : pyval) : M unit :=
  permit_required (
    (* Check that the energy given is valid for this instrument *)
    above <- lift (py_le (fst E_RANGE) energy) ;;
    in_range <- (if above then lift (py_le energy (snd E_RANGE)) else ret false) ;;
    if negb in_range then raise (EnergyError (energy_message energy))
    else
    (* Get the current values *)
    prev_energy <- getattr_ "DCMputEnergy" ;;
    curr_CCD <- getattr_ "CCD_Motor" ;;
    (* Calculate target values *)
    zp_diameter <- gets (fun w => TXM.zp_diameter (session w)) ;;
    drn <- gets (fun w => TXM.drn (session w)) ;;
    t <- lift (py_mul prev_energy (VFloat 1000.0)) ;;
    landa <- lift (py_truediv (VFloat 1240.0) t) ;;
    t1 <- lift (py_mul zp_diameter drn) ;;
    t2 <- lift (py_mul (VFloat 1000.0) landa) ;;
    ZP_focal <- lift (py_truediv t1 t2) ;;
    t1 <- lift (py_pow2 curr_CCD) ;;
    t2 <- lift (py_mul (VFloat 4.0) curr_CCD) ;;
    t3 <- lift (py_mul t2 ZP_focal) ;;
    t4 <- lift (py_sub t1 t3) ;;
    inner <- lift (math_sqrt t4) ;;
    t <- lift (py_add curr_CCD inner) ;;
    D <- lift (py_truediv t (VFloat 2.0)) ;;
    t <- lift (py_sub D ZP_focal) ;;
    mag <- lift (py_truediv t ZP_focal) ;;
    setattr_ "DCMmvt" (VInt 1) ;;
    t <- lift (py_mul energy (VFloat 1000.0)) ;;
    landa <- lift (py_truediv (VFloat 1240.0) t) ;;
    t1 <- lift (py_mul zp_diameter drn) ;;
    t2 <- lift (py_mul (VFloat 1000.0) landa) ;;
    ZP_focal <- lift (py_truediv t1 t2) ;;
    t <- lift (py_mul mag ZP_focal) ;;
    dist_ZP_ccd <- lift (py_add t ZP_focal) ;;
    t1 <- lift (py_mul dist_ZP_ccd ZP_focal) ;;
    t2 <- lift (py_sub dist_ZP_ccd ZP_focal) ;;
    ZP_WD <- lift (py_truediv t1 t2) ;;
    new_CCD <- lift (py_add ZP_WD dist_ZP_ccd) ;;
    (* Move the CCD to achieve constant magnification *)
    (if py_truthy constant_mag then setattr_ "CCD_Motor" new_CCD else ret tt) ;;
    (* Move the motors *)
    wait_pvs (
      setattr_ "ZpLocation" ZP_WD ;;
      setattr_ "DCMputEnergy" energy ;;
      setattr_ "GAPputEnergy" energy) ;;
    wait_pv "EnergyWait" (VInt 0) (VInt 20) ;;
    (* Apply the offset to make sure the ID gap is correct *)
    wait_pvs (
      t <- lift (py_add energy gap_offset) ;;
      setattr_ "GAPputEnergy" t) ;;
    wait_pv "EnergyWait" (VInt 0) (VInt 20) ;;
    setattr_ "DCMmvt" (VInt 0)).

(** The decorator [txm_required(return_value)] *)
Definition txm_required {A : Type} (return_value : A) (real_func : M A) : M A :=
  obj <- gets session ;;
  if TXM.is_attached obj then real_func else ret return_value.

(** [v is not None] *)
Definition is_not_None (v : pyval) : bool :=
  match v with
  | VNone => false
  | _ => true
  end.

(** [TXM.move_sample]; [x], [y] and [z] default to [None]. *)
Definition move_sample (x y z : pyval) : M pyval :=
  (if is_not_None x then
     v <- lift (py_float rt x) ;;
     setattr_ "Motor_SampleX" v
   else ret tt) ;;
  (if is_not_None y then
     v <- lift (py_float rt y) ;;
     setattr_ "Motor_SampleY" v
   else ret tt) ;;
  (if is_not_None z then
     v <- lift (py_float rt z) ;;
     setattr_ "Motor_SampleZ" v
   else ret tt) ;;
  setattr_ "Motor_SampleRot" (VInt 0) ;;
  ret (VBool true).

(** [TXM.open_shutters] *)
Definition open_shutters : M unit :=
  use_shutter_A <- gets (fun w => TXM.use_shutter_A (session w)) ;;
  (if use_shutter_A then
     setattr_ "ShutterA_Open" (VInt 1) ;;
     wait_pv "ShutterA_Move_Status" SHUTTER_OPEN DEFAULT_TIMEOUT ;;
     ret tt
   else ret tt) ;;
  use_shutter_B <- gets (fun w => TXM.use_shutter_B (session w)) ;;
  (if use_shutter_B then
     setattr_ "ShutterB_Open" (VInt 1) ;;
     wait_pv "ShutterB_Move_Status" SHUTTER_OPEN DEFAULT_TIMEOUT ;;
     ret tt
   else ret tt) ;;
  (* Display a logging info *)
  self <- gets session ;;
  if TXM.use_shutter_A self || TXM.use_shutter_B self || negb (TXM.is_attached self)
  then ret tt
  else warn "Neither shutter A nor B enabled.".

(** [TXM.close_shutters] *)
Definition close_shutters : M unit :=
  use_shutter_A <- gets (fun w => TXM.use_shutter_A (session w)) ;;
  (if use_shutter_A then
     setattr_ "ShutterA_Close" (VInt 1) ;;
     wait_pv "ShutterA_Move_Status" SHUTTER_CLOSED DEFAULT_TIMEOUT ;;
     ret tt
   else ret tt) ;;
  use_shutter_B <- gets (fun w => TXM.use_shutter_B (session w)) ;;
  (if use_shutter_B then
     setattr_ "ShutterB_Close" (VInt 1) ;;
     wait_pv "ShutterB_Move_Status" SHUTTER_CLOSED DEFAULT_TIMEOUT ;;
     ret tt
   else ret tt) ;;
  (* Display a logging info *)
  self <- gets session ;;
  if TXM.use_shutter_A self || TXM.use_shutter_B self || negb (TXM.is_attached self)
  then ret tt
  else warn "Neither shutter A nor B enabled.".

End Program.

(** * Properties *)

(** ** Notions used in the statements *)

(** The coercion [__get__] applies: the declared [dtype], if any. *)
Definition coerce (dt : option (pyval -> res pyval)) (v : pyval) : res pyval :=
  match dt with
  | Some d => d v
  | None => inr v
  end.

(** The process-variable name [get_epics_PV] yields for a descriptor in the
    state [pv]: the cached one if the prefix still matches, the formatted
    template otherwise. *)
Definition epics_name (pv : TxmPV.t) (txm : TXM.t) : res string :=
  match TxmPV._epicsPV pv with
  | None => format_ioc_prefix (TxmPV._namestring pv) (TXM.ioc_prefix txm)
  | Some e =>
      match TxmPV.ioc_prefix pv with
      | None => inl AttributeError
      | Some p =>
          if String.eqb p (TXM.ioc_prefix txm) then inr e
          else format_ioc_prefix (TxmPV._namestring pv) (TXM.ioc_prefix txm)
      end
  end.

(** The descriptor once bound to the name [e] for the session [txm]. *)
Definition rebind (txm : TXM.t) (e : string) (pv : TxmPV.t) : TxmPV.t :=
  set_epicsPV e (set_ioc_prefix (TXM.ioc_prefix txm) pv).

(** Every callback the transport owes belongs to a descriptor without the
    [wait] policy.  This holds of every store the program can reach:
    [__set__] registers a callback only on its non-blocking branch, and
    nothing assigns [wait] after [__init__]. *)
Definition callbacks_ok (w : world) : Prop :=
  Forall (fun cb => TxmPV.wait (pv_at w (cb_self cb)) = false) (callbacks w).

(** The effect of one completion callback of such a descriptor. *)
Definition mark_complete (self : string) (w : world) : world :=
  set_pvs (<[self := TxmPV.set_put_complete true (pv_at w self)]> (pvs w)) w.

(** The effect of a run of such callbacks. *)
Definition marks (cbs : list callback) (w : world) : world :=
  fold_left (fun w cb => mark_complete (cb_self cb) w) cbs w.

(** The store after the callbacks due at this moment have run. *)
Definition delivered (rt : Runtime) (w : world) : world :=
  fold_left (fun w cb => mark_complete (cb_self cb) w)
    (List.filter (fun cb => ca_done rt (now w) (cb_serial cb)) (callbacks w))
    (set_callbacks
       (List.filter (fun cb => negb (ca_done rt (now w) (cb_serial cb))) (callbacks w)) w).

(** The store after one [time.sleep] of the session's thread, and after
    [i] of them in a row. *)
Definition slept (rt : Runtime) (w : world) : world :=
  delivered rt (set_now (S (now w)) w).

Fixpoint sleeps (rt : Runtime) (i : nat) (w : world) : world :=
  match i with
  | O => w
  | S i' => sleeps rt i' (slept rt w)
  end.

(** An energy outside the closed range [[5, 10]]: a number below 5 or
    above 10. *)
Definition num_lt_Z (x : num) (z : Z) : Prop :=
  match x with
  | NInt a => (a < z)%Z
  | NFloat f => SF_compare_Z (Prim2SF f) z = Some Lt
  end.

Definition num_gt_Z (x : num) (z : Z) : Prop :=
  match x with
  | NInt a => (z < a)%Z
  | NFloat f => SF_compare_Z (Prim2SF f) z = Some Gt
  end.

Definition outside_E_RANGE (energy : pyval) : Prop :=
  exists x, as_num energy = Some x /\ (num_lt_Z x 5 \/ num_gt_Z x 10).

(** The store right after a permitted write of [val] on an attached
    session has been handed to the transport under the name [e], before
    any callback runs; [pv] is the descriptor's state before the write. *)
Definition issued (self : string) (val : pyval) (e : string) (pv : TxmPV.t) (w : world)
  : world :=
  let txm := session w in
  mkWorld
    (<[self := TxmPV.set_put_complete false
                 (rebind txm e (TxmPV.set_curr_value val (TxmPV.set_txm txm pv)))]> (pvs w))
    (match TXM.pv_queue txm with
     | Some _ => class_pv_queue w
     | None => (class_pv_queue w ++ [self])%list
     end)
    (match TXM.pv_queue txm with
     | Some q => TXM.set_pv_queue (Some (q ++ [self])%list) txm
     | None => txm
     end)
    (S (now w))
    (puts w ++ [{| put_pv := e; put_val := val; put_wait := TxmPV.wait pv |}])%list
    (if TxmPV.wait pv then callbacks w
     else (callbacks w ++ [{| cb_serial := length (puts w); cb_self := self; cb_data := txm |}])%list)
    (warnings w) (flushed w).

(** The store [flush_pvs] leaves once its loop has ended: the queue it
    waited on is reported, and the instance gets a new empty [pv_queue]. *)
Definition drained (w : world) : world :=
  set_session (TXM.set_pv_queue (Some []) (session w))
    (set_flushed (flushed w ++ [queue_of w])%list w).

(** [keeps R m]: whenever [m] ends, with a value or with an exception, the
    store it leaves is related by [R] to the one it started from. *)
Definition keeps {A : Type} (R : world -> world -> Prop) (m : M A) : Prop :=
  forall n w,
    match m n w with
    | Ret _ w' | Raise _ w' => R w w'
    | Blocked => True
    end.

(** The session's queue is the same list, held in the same place. *)
Definition queue_same (w w' : world) : Prop :=
  session w' = session w /\ class_pv_queue w' = class_pv_queue w.

(** The session's queue has only gained members, at its end. *)
Definition queue_grows (w w' : world) : Prop :=
  exists l, queue_of w' = (queue_of w ++ l)%list.

(** The loop of [wait_pv], by its parts: the condition and the body, the
    latter for a given [startTime]. *)
Definition poll_cond : unit -> M bool :=
  fun _ => self <- gets session ;; ret (true && TXM.is_attached self).

Definition poll_body (rt : Runtime) (pv_name : string) (target_val timeout : pyval)
    (startTime : float) : unit -> M (unit + pyval) :=
  fun _ =>
    pv_val <- getattr_ rt pv_name ;;
    if py_ne pv_val target_val then
      enforced <- lift (py_gt timeout (VInt (-1))) ;;
      (if enforced then
         curTime <- time_time rt ;;
         let diffTime := (curTime - startTime)%float in
         expired <- lift (py_ge (VFloat diffTime) timeout) ;;
         if expired then raise (TimeoutError (timeout_message rt pv_name target_val timeout))
         else ret tt
       else ret tt) ;;
      time_sleep rt 0.01 ;;
      ret (inl tt)
    else
      ret (inr (VBool true)).

(** A session polling the descriptor [name], bound to the process variable
    [e] and declared with [dtype] [dt]. *)
Definition polling (txm : TXM.t) (name e : string) (dt : option (pyval -> res pyval))
    (w : world) : Prop :=
  session w = txm /\ callbacks_ok w
  /\ exists pv, pvs w !! name = Some pv /\ TxmPV.dtype pv = dt /\ epics_name pv txm = inr e.

(** A descriptor whose [EpicsPV] object, if it has one, was made for the
    prefix it remembers. *)
Definition binding_ok (pv : TxmPV.t) : Prop :=
  match TxmPV._epicsPV pv with
  | None => True
  | Some e =>
      exists p, TxmPV.ioc_prefix pv = Some p
                /\ format_ioc_prefix (TxmPV._namestring pv) p = inr e
  end.

(** A text without braces, and a text with a given beginning taken off. *)
Fixpoint brace_free (s : string) : bool :=
  match s with
  | EmptyString => true
  | String c rest => negb (is_brace_open c) && negb (is_brace_close c) && brace_free rest
  end.

Fixpoint strip_prefix (p s : string) : option string :=
  match p, s with
  | EmptyString, _ => Some s
  | String a p', String b s' => if Ascii.eqb a b then strip_prefix p' s' else None
  | String _ _, EmptyString => None
  end.

(** The process-variable name a template stands for under a prefix, for the
    two shapes of template the class uses: ["{ioc_prefix}rest"] and a plain
    name. *)
Definition resolved (template prefix : string) : string :=
  match strip_prefix "{ioc_prefix}" template with
  | Some rest => prefix +:+ rest
  | None => template
  end.

Definition plain_or_prefixed (template : string) : bool :=
  match strip_prefix "{ioc_prefix}" template with
  | Some rest => brace_free rest
  | None => brace_free template
  end.

(** The descriptors have the policies they had: the name template, the
    [dtype], and the [permit_required] and [wait] flags. *)
Definition same_policy (w w' : world) : Prop :=
  forall s,
    TxmPV._namestring (pv_at w' s) = TxmPV._namestring (pv_at w s)
    /\ TxmPV.dtype (pv_at w' s) = TxmPV.dtype (pv_at w s)
    /\ TxmPV.permit_required (pv_at w' s) = TxmPV.permit_required (pv_at w s)
    /\ TxmPV.wait (pv_at w' s) = TxmPV.wait (pv_at w s).

(** Every callback the transport owes was owed before, or belongs to a
    descriptor without the [wait] policy. *)
Definition owes_no_more (w w' : world) : Prop :=
  forall cb, In cb (callbacks w') ->
    In cb (callbacks w) \/ TxmPV.wait (pv_at w (cb_self cb)) = false.

Definition tame (w w' : world) : Prop := same_policy w w' /\ owes_no_more w w'.

(** A change of a descriptor that leaves its policies alone. *)
Definition policy_preserving (f : TxmPV.t -> TxmPV.t) : Prop :=
  forall pv,
    TxmPV._namestring (f pv) = TxmPV._namestring pv
    /\ TxmPV.dtype (f pv) = TxmPV.dtype pv
    /\ TxmPV.permit_required (f pv) = TxmPV.permit_required pv
    /\ TxmPV.wait (f pv) = TxmPV.wait pv.

(** [preserves P m]: whenever [m] ends from a store with [P], with a value
    or with an exception, the store it leaves has [P]. *)
Definition preserves {A : Type} (P : world -> Prop) (m : M A) : Prop :=
  forall n w, P w ->
    match m n w with
    | Ret _ w' | Raise _ w' => P w'
    | Blocked => True
    end.

(** On the session of [w], the descriptor [name] takes a write and hands it
    to the process variable [e] without blocking: the session has the
    permit if one is required, and the descriptor does not have the [wait]
    policy. *)
Definition writable (w : world) (name e : string) : Prop :=
  exists pv,
    pvs w !! name = Some pv
    /\ TxmPV.permit_required pv && negb (TXM.has_permit (session w)) = false
    /\ TxmPV.wait pv = false
    /\ epics_name pv (session w) = inr e.

(** A coordinate argument of [move_sample]: [None] if it is left out, its
    conversion by [float] otherwise. *)
Definition coordinate (rt : Runtime) (v : pyval) : res (option pyval) :=
  if is_not_None v then res_bind (py_float rt v) (fun f => inr (Some f)) else inr None.

(** The non-blocking write of a coordinate to the process variable [e], if
    there is one to write. *)
Definition request (e : string) (v : option pyval) : list put_record :=
  match v with
  | Some f => [{| put_pv := e; put_val := f; put_wait := false |}]
  | None => []
  end.

(** The store a run has ended in, if it has ended. *)
Definition final_store {A : Type} (o : outcome A) (d : world) : world :=
  match o with
  | Ret _ w | Raise _ w => w
  | Blocked => d
  end.

(** On the session of [w], the descriptor [name] is read from the process
    variable [e] and coerced by [dt]. *)
Definition bound_to (w : world) (name e : string) (dt : option (pyval -> res pyval)) : Prop :=
  exists pv,
    pvs w !! name = Some pv /\ TxmPV.dtype pv = dt /\ epics_name pv (session w) = inr e.

(** Two states of a session that differ at most in its [pv_queue]. *)
Definition same_settings (txm txm' : TXM.t) : Prop :=
  TXM.set_pv_queue None txm' = TXM.set_pv_queue None txm.

(** Nothing has been handed to the transport and no warning has been
    raised. *)
Definition silent (w w' : world) : Prop :=
  puts w' = puts w /\ warnings w' = warnings w.


(** ** Sample surroundings and sessions, for the concrete runs *)

(** CPython's [repr] on the floats the samples print. *)
Definition sample_repr (f : float) : string :=
  if (f =? -0.5)%float then "-0.5"
  else if (f =? 8.6)%float then "8.6"
  else "?".

(** A beamline at 8.6 keV with the detector at 500: the busy flag reads
    [busy], a write is acknowledged from interaction [ack] on, and the clock
    advances one second per interaction. *)
Definition beamline (busy : pyval) (ack : nat) : Runtime := {|
  float_repr := sample_repr;
  float_parse := fun _ => None;
  ca_get := fun _ name =>
    if String.eqb name "32ida:BraggEAO.VAL" then VFloat 8.6
    else if String.eqb name "WHAT GOES HERE!?" then VInt 500
    else if String.eqb name "ID32us:Busy" then busy
    else VInt 0;
  ca_done := fun n _ => (ack <=? n)%nat;
  clock := fun n => Z2float (Z.of_nat n)
|}.

(** The same beamline with a busy flag that reads 1 before interaction
    [t] and 0 from then on. *)
Definition settling (t ack : nat) : Runtime := {|
  float_repr := sample_repr;
  float_parse := fun _ => None;
  ca_get := fun n name =>
    if String.eqb name "32ida:BraggEAO.VAL" then VFloat 8.6
    else if String.eqb name "WHAT GOES HERE!?" then VInt 500
    else if String.eqb name "ID32us:Busy" then (if (n <? t)%nat then VInt 1 else VInt 0)
    else VInt 0;
  ca_done := fun n _ => (ack <=? n)%nat;
  clock := fun n => Z2float (Z.of_nat n)
|}.

(** A hutch whose shutter A reports [status n] at interaction [n]; every
    other process variable reads 0, writes are acknowledged at once, and the
    clock advances one second per interaction. *)
Definition hutch (status : nat -> pyval) : Runtime := {|
  float_repr := sample_repr;
  float_parse := fun _ => None;
  ca_get := fun n name =>
    if String.eqb name "PB:32ID:STA_A_FES_CLSD_PL" then status n else VInt 0;
  ca_done := fun _ _ => true;
  clock := fun n => Z2float (Z.of_nat n)
|}.

(** [TXM(has_permit=True)], [TXM()] and [TXM(is_attached=False)] *)
Definition operator : TXM.t := TXM_init (Some true) None None None None None None.
Definition visitor : TXM.t := TXM_init None None None None None None None.
Definition offline : TXM.t := TXM_init None (Some false) None None None None None.

(** The class with [ShutterA_Open] declared to block,
    [TxmPV('32idb:rshtrA:Open', permit_required=True, wait=True)], as the
    comment at its use in [open_shutters] has it; and the store of a
    session of that class right after start-up. *)
Definition TXM_pvs_blocking_shutter (rt : Runtime) : gmap string TxmPV.t :=
  match exec_class_body
          (TXM_class_body rt ++
           [("ShutterA_Open", TxmPV.__init__ "32idb:rshtrA:Open" None VNone true true)])%list ∅
  with
  | inr m => m
  | inl _ => ∅
  end.

Definition boot_blocking_shutter (rt : Runtime) (txm : TXM.t) : world :=
  set_pvs (TXM_pvs_blocking_shutter rt) (boot rt txm).

(** A store in which [DCMmvt] has been written and the write is still
    pending: [TXM(has_permit=True).DCMmvt = 1] on a transport that
    acknowledges from interaction [ack] on. *)
Definition after_DCMmvt_write (ack : nat) : world :=
  match __set__ (beamline (VInt 0) ack) "DCMmvt" (VInt 1) 0%nat
          (boot (beamline (VInt 0) ack) operator) with
  | Ret _ w => w
  | _ => boot (beamline (VInt 0) ack) operator
  end.


(** ** Running the code symbolically *)

Ltac run :=
  cbv beta iota delta
    [bind gets modify ret raise attr update warn lift tick log_put pv_queue_append
     set_pvs set_warnings set_now set_puts set_callbacks set_flushed set_session
     set_class_pv_queue];
  cbn [session pvs warnings now puts callbacks flushed class_pv_queue].

Lemma pv_at_lookup (w : world) (self : string) (pv : TxmPV.t) :
  pvs w !! self = Some pv -> pv_at w self = pv.
Proof. unfold pv_at. intros ->. reflexivity. Qed.

Lemma pv_at_insert (m : gmap string TxmPV.t) (self : string) (x : TxmPV.t) q s n p c wn f :
  pv_at (mkWorld (<[self := x]> m) q s n p c wn f) self = x.
Proof. unfold pv_at. cbn. rewrite lookup_insert_eq. reflexivity. Qed.

Lemma pv_at_insert_ne (m : gmap string TxmPV.t) (self other : string) (x : TxmPV.t)
    q s n p c wn f :
  self <> other ->
  pv_at (mkWorld (<[self := x]> m) q s n p c wn f) other = default blank (m !! other).
Proof. intros H. unfold pv_at. cbn. rewrite lookup_insert_ne by exact H. reflexivity. Qed.

Lemma pv_at_mk (m : gmap string TxmPV.t) (self : string) q s n p c wn f :
  pv_at (mkWorld m q s n p c wn f) self = default blank (m !! self).
Proof. reflexivity. Qed.

Ltac fields :=
  cbn [TxmPV._namestring TxmPV.curr_value TxmPV.dtype TxmPV.permit_required TxmPV.wait
       TxmPV._epicsPV TxmPV.ioc_prefix TxmPV.put_complete TxmPV.txm
       TxmPV.set_curr_value TxmPV.set_put_complete TxmPV.set_txm
       set_ioc_prefix set_epicsPV rebind].

Ltac step Hpv := run; rewrite ?pv_at_insert, ?(pv_at_lookup _ _ _ Hpv); fields.

Lemma world_eta (w : world) :
  mkWorld (pvs w) (class_pv_queue w) (session w) (now w) (puts w) (callbacks w)
    (warnings w) (flushed w) = w.
Proof. destruct w. reflexivity. Qed.

(** A declared name has its descriptor, and a run that ended has its
    final store. *)
Lemma declared_pv_at (w : world) (self : string) :
  match pvs w !! self with Some _ => True | None => False end ->
  pvs w !! self = Some (pv_at w self).
Proof. unfold pv_at. destruct (pvs w !! self); [reflexivity|contradiction]. Qed.

Lemma returns_eta {A : Type} (o : outcome A) (r : A) (d : world) :
  match o with Ret a _ => a = r | _ => False end -> o = Ret r (final_store o d).
Proof. destruct o; intros H; try contradiction. subst. reflexivity. Qed.

Lemma raises_eta {A : Type} (o : outcome A) (err : exn) (d : world) :
  match o with Raise e _ => e = err | _ => False end -> o = Raise err (final_store o d).
Proof. destruct o; intros H; try contradiction. subst. reflexivity. Qed.

(** ** Completion callbacks *)

Lemma set_put_complete_same (pv : TxmPV.t) :
  TxmPV.set_put_complete (TxmPV.put_complete pv) pv = pv.
Proof. destruct pv. reflexivity. Qed.

Lemma pv_at_mark_complete (self other : string) (w : world) :
  exists b, pv_at (mark_complete self w) other = TxmPV.set_put_complete b (pv_at w other)
            /\ (TxmPV.put_complete (pv_at w other) = true -> b = true).
Proof.
  destruct (decide (self = other)) as [->|Hne].
  - exists true. split; [|reflexivity]. unfold mark_complete, set_pvs. apply pv_at_insert.
  - exists (TxmPV.put_complete (pv_at w other)). split; [|tauto].
    rewrite set_put_complete_same. unfold mark_complete, set_pvs.
    rewrite pv_at_insert_ne by exact Hne. reflexivity.
Qed.

Lemma lookup_mark_complete (self other : string) (w : world) (pv : TxmPV.t) :
  pvs w !! other = Some pv ->
  exists b, pvs (mark_complete self w) !! other = Some (TxmPV.set_put_complete b pv).
Proof.
  intros H. unfold mark_complete, set_pvs. cbn [pvs].
  destruct (decide (self = other)) as [->|Hne].
  - exists true. rewrite lookup_insert_eq. rewrite (pv_at_lookup _ _ _ H). reflexivity.
  - exists (TxmPV.put_complete pv). rewrite lookup_insert_ne by exact Hne.
    rewrite set_put_complete_same. exact H.
Qed.

(** The loop, one turn at a time. *)
Lemma while_fuel_exit {S A : Type} (fuel : nat) (cond : S -> M bool) (body : S -> M (S + A))
    (s : S) (n : nat) (w w1 : world) :
  cond s n w = Ret false w1 -> while_fuel fuel cond body s n w = Ret (inl s) w1.
Proof. intros H. destruct fuel; cbn [while_fuel]; rewrite H; reflexivity. Qed.

Lemma while_fuel_step {S A : Type} (fuel : nat) (cond : S -> M bool) (body : S -> M (S + A))
    (s s' : S) (n : nat) (w w1 w2 : world) :
  cond s n w = Ret true w1 -> body s n w1 = Ret (inl s') w2 ->
  while_fuel (Datatypes.S fuel) cond body s n w = while_fuel fuel cond body s' n w2.
Proof. intros H1 H2. cbn [while_fuel]. rewrite H1, H2. reflexivity. Qed.

Lemma while_fuel_spent {S A : Type} (cond : S -> M bool) (body : S -> M (S + A))
    (s : S) (n : nat) (w w1 : world) :
  cond s n w = Ret true w1 -> while_fuel O cond body s n w = Blocked.
Proof. intros H. cbn [while_fuel]. rewrite H. reflexivity. Qed.

Lemma while_fuel_raise {S A : Type} (fuel : nat) (cond : S -> M bool) (body : S -> M (S + A))
    (s : S) (n : nat) (w w1 w2 : world) (e : exn) :
  cond s n w = Ret true w1 -> body s n w1 = Raise e w2 ->
  while_fuel (Datatypes.S fuel) cond body s n w = Raise e w2.
Proof. intros H1 H2. cbn [while_fuel]. rewrite H1, H2. reflexivity. Qed.

Lemma while_fuel_return {S A : Type} (fuel : nat) (cond : S -> M bool) (body : S -> M (S + A))
    (s : S) (a : A) (n : nat) (w w1 w2 : world) :
  cond s n w = Ret true w1 -> body s n w1 = Ret (inr a) w2 ->
  while_fuel (Datatypes.S fuel) cond body s n w = Ret (inr a) w2.
Proof. intros H1 H2. cbn [while_fuel]. rewrite H1, H2. reflexivity. Qed.

(** A callback of a descriptor without the [wait] policy does not poll: it
    marks the write complete and returns, whatever the budget. *)
Lemma complete_put_nowait (rt : Runtime) (self : string) (txm : TXM.t) (n : nat) (w : world) :
  TxmPV.wait (pv_at w self) = false ->
  complete_put rt self [txm] n w = Ret tt (mark_complete self w).
Proof.
  intros H. unfold complete_put, complete_put_body, while_.
  unfold bind at 1.
  erewrite while_fuel_exit; [reflexivity|].
  run. rewrite H, andb_false_r. reflexivity.
Qed.

Lemma run_callbacks_ok (rt : Runtime) (cbs : list callback) (n : nat) (w : world) :
  Forall (fun cb => TxmPV.wait (pv_at w (cb_self cb)) = false) cbs ->
  run_callbacks rt cbs n w = Ret tt (marks cbs w).
Proof.
  revert w. induction cbs as [|cb cbs IH]; intros w H.
  - reflexivity.
  - inversion H as [|? ? Hcb Hrest]; subst.
    cbn [run_callbacks]. unfold bind, run_callback.
    rewrite complete_put_nowait by exact Hcb.
    unfold marks. cbn [fold_left]. apply IH.
    eapply List.Forall_impl; [|exact Hrest]. intros cb' Hw. cbn beta in *.
    destruct (pv_at_mark_complete (cb_self cb) (cb_self cb') w) as [b [-> _]].
    destruct (pv_at w (cb_self cb')). exact Hw.
Qed.

Section MarksFacts.

Context (cbs : list callback).

Lemma marks_frame (w : world) :
  class_pv_queue (marks cbs w) = class_pv_queue w /\ session (marks cbs w) = session w
  /\ now (marks cbs w) = now w /\ puts (marks cbs w) = puts w
  /\ callbacks (marks cbs w) = callbacks w /\ warnings (marks cbs w) = warnings w
  /\ flushed (marks cbs w) = flushed w.
Proof.
  revert w. induction cbs as [|cb l IH]; intros w; [repeat split|].
  unfold marks in *. cbn [fold_left]. destruct (IH (mark_complete (cb_self cb) w)) as (?&?&?&?&?&?&?).
  repeat split; assumption.
Qed.

Lemma pv_at_marks (w : world) (other : string) :
  exists b, pv_at (marks cbs w) other = TxmPV.set_put_complete b (pv_at w other)
            /\ (TxmPV.put_complete (pv_at w other) = true -> b = true).
Proof.
  revert w. induction cbs as [|cb l IH]; intros w.
  - exists (TxmPV.put_complete (pv_at w other)). rewrite set_put_complete_same. tauto.
  - unfold marks in *. cbn [fold_left].
    destruct (IH (mark_complete (cb_self cb) w)) as [b [-> Hb]].
    destruct (pv_at_mark_complete (cb_self cb) other w) as [b' [E Hb']].
    rewrite E in *. clear E.
    exists b. split; [destruct (pv_at w other); reflexivity|].
    intros H. apply Hb. rewrite (Hb' H). destruct (pv_at w other). reflexivity.
Qed.

Lemma lookup_marks (w : world) (other : string) (pv : TxmPV.t) :
  pvs w !! other = Some pv ->
  exists b, pvs (marks cbs w) !! other = Some (TxmPV.set_put_complete b pv).
Proof.
  revert w pv. induction cbs as [|cb l IH]; intros w pv H.
  - exists (TxmPV.put_complete pv). rewrite set_put_complete_same. exact H.
  - unfold marks in *. cbn [fold_left].
    destruct (lookup_mark_complete (cb_self cb) other w pv H) as [b' Hb'].
    destruct (IH _ _ Hb') as [b Hb]. exists b. rewrite Hb. destruct pv. reflexivity.
Qed.

End MarksFacts.

Lemma deliver_ok (rt : Runtime) (n : nat) (w : world) :
  callbacks_ok w -> deliver rt n w = Ret tt (delivered rt w).
Proof.
  intros H. unfold deliver. run. unfold delivered, set_callbacks.
  apply run_callbacks_ok.
  apply List.Forall_forall. intros cb Hin. apply List.filter_In in Hin. destruct Hin as [Hin _].
  unfold callbacks_ok in H. rewrite List.Forall_forall in H. apply (H cb Hin).
Qed.

Lemma time_sleep_ok (rt : Runtime) (seconds : float) (n : nat) (w : world) :
  callbacks_ok w -> time_sleep rt seconds n w = Ret tt (slept rt w).
Proof.
  intros H. unfold time_sleep. run. unfold bind.
  change (mkWorld (pvs w) (class_pv_queue w) (session w) (S (now w)) (puts w) (callbacks w)
            (warnings w) (flushed w)) with (set_now (S (now w)) w).
  rewrite deliver_ok; [reflexivity|]. exact H.
Qed.

Lemma delivered_frame (rt : Runtime) (w : world) :
  class_pv_queue (delivered rt w) = class_pv_queue w /\ session (delivered rt w) = session w
  /\ now (delivered rt w) = now w /\ puts (delivered rt w) = puts w
  /\ warnings (delivered rt w) = warnings w /\ flushed (delivered rt w) = flushed w.
Proof.
  unfold delivered.
  match goal with |- context [fold_left _ ?l ?w0] =>
    destruct (marks_frame l w0) as (H1&H2&H3&H4&H5&H6&H7) end.
  unfold marks in *. rewrite H1, H2, H3, H4, H6, H7. repeat split.
Qed.

Lemma pv_at_delivered (rt : Runtime) (w : world) (other : string) :
  exists b, pv_at (delivered rt w) other = TxmPV.set_put_complete b (pv_at w other)
            /\ (TxmPV.put_complete (pv_at w other) = true -> b = true).
Proof.
  unfold delivered.
  match goal with |- context [fold_left _ ?l ?w0] => exact (pv_at_marks l w0 other) end.
Qed.

Lemma lookup_delivered (rt : Runtime) (w : world) (other : string) (pv : TxmPV.t) :
  pvs w !! other = Some pv ->
  exists b, pvs (delivered rt w) !! other = Some (TxmPV.set_put_complete b pv).
Proof.
  intros H. unfold delivered.
  match goal with |- context [fold_left _ ?l ?w0] => exact (lookup_marks l w0 other pv H) end.
Qed.

Lemma callbacks_ok_delivered (rt : Runtime) (w : world) :
  callbacks_ok w -> callbacks_ok (delivered rt w).
Proof.
  intros H. unfold callbacks_ok in *. rewrite List.Forall_forall in *. intros cb Hin.
  destruct (pv_at_delivered rt w (cb_self cb)) as [b [-> _]].
  assert (Hcb : In cb (callbacks w)).
  { unfold delivered in Hin.
    match type of Hin with context [fold_left _ ?l ?w0] =>
      destruct (marks_frame l w0) as (_&_&_&_&H5&_) end.
    unfold marks in H5. rewrite H5 in Hin. cbn in Hin.
    apply List.filter_In in Hin. tauto. }
  specialize (H cb Hcb). destruct (pv_at w (cb_self cb)). exact H.
Qed.

(** ** One sleep of the session's thread *)

Lemma slept_frame (rt : Runtime) (w : world) :
  class_pv_queue (slept rt w) = class_pv_queue w /\ session (slept rt w) = session w
  /\ now (slept rt w) = S (now w) /\ puts (slept rt w) = puts w
  /\ warnings (slept rt w) = warnings w /\ flushed (slept rt w) = flushed w.
Proof. unfold slept. destruct (delivered_frame rt (set_now (S (now w)) w)) as (?&?&?&?&?&?). tauto. Qed.

Lemma pv_at_slept (rt : Runtime) (w : world) (other : string) :
  exists b, pv_at (slept rt w) other = TxmPV.set_put_complete b (pv_at w other)
            /\ (TxmPV.put_complete (pv_at w other) = true -> b = true).
Proof. unfold slept. exact (pv_at_delivered rt (set_now (S (now w)) w) other). Qed.

Lemma lookup_slept (rt : Runtime) (w : world) (other : string) (pv : TxmPV.t) :
  pvs w !! other = Some pv ->
  exists b, pvs (slept rt w) !! other = Some (TxmPV.set_put_complete b pv).
Proof. intros H. unfold slept. exact (lookup_delivered rt (set_now (S (now w)) w) other pv H). Qed.

Lemma callbacks_ok_slept (rt : Runtime) (w : world) :
  callbacks_ok w -> callbacks_ok (slept rt w).
Proof. intros H. unfold slept. apply callbacks_ok_delivered. exact H. Qed.

Lemma queue_of_slept (rt : Runtime) (w : world) : queue_of (slept rt w) = queue_of w.
Proof.
  unfold queue_of. destruct (slept_frame rt w) as (H1&H2&_). rewrite H1, H2. reflexivity.
Qed.

Lemma callbacks_ok_sleeps (rt : Runtime) (i : nat) (w : world) :
  callbacks_ok w -> callbacks_ok (sleeps rt i w).
Proof.
  revert w. induction i as [|i IH]; intros w H; [exact H|].
  cbn [sleeps]. apply IH, callbacks_ok_slept, H.
Qed.

Lemma sleeps_frame (rt : Runtime) (i : nat) (w : world) :
  class_pv_queue (sleeps rt i w) = class_pv_queue w /\ session (sleeps rt i w) = session w
  /\ now (sleeps rt i w) = (i + now w)%nat /\ puts (sleeps rt i w) = puts w
  /\ warnings (sleeps rt i w) = warnings w /\ flushed (sleeps rt i w) = flushed w.
Proof.
  revert w. induction i as [|i IH]; intros w; [repeat split|].
  cbn [sleeps]. destruct (IH (slept rt w)) as (H1&H2&H3&H4&H5&H6).
  destruct (slept_frame rt w) as (G1&G2&G3&G4&G5&G6).
  rewrite H1, H2, H3, H4, H5, H6, G1, G2, G3, G4, G5, G6. repeat split. lia.
Qed.

Lemma queue_of_sleeps (rt : Runtime) (i : nat) (w : world) :
  queue_of (sleeps rt i w) = queue_of w.
Proof.
  unfold queue_of. destruct (sleeps_frame rt i w) as (H1&H2&_). rewrite H1, H2. reflexivity.
Qed.

Lemma sleeps_S (rt : Runtime) (i : nat) (w : world) :
  sleeps rt (S i) w = slept rt (sleeps rt i w).
Proof. revert w. induction i as [|i IH]; intros w; [reflexivity|]. cbn [sleeps] in *. apply IH. Qed.

(** ** The descriptor's methods, step by step *)

Lemma get_epics_PV_ok (self : string) (txm : TXM.t) (n : nat) (w : world) (pv : TxmPV.t)
    (e : string) :
  pvs w !! self = Some pv -> epics_name pv txm = inr e ->
  get_epics_PV self txm n w = Ret e (set_pvs (<[self := rebind txm e pv]> (pvs w)) w).
Proof.
  intros Hpv He. unfold get_epics_PV, pv_name. step Hpv.
  unfold epics_name in He.
  destruct (TxmPV._epicsPV pv) as [e0|] eqn:Hepv;
    [step Hpv; destruct (TxmPV.ioc_prefix pv) as [p|] eqn:Hpfx; [|discriminate He];
     step Hpv; destruct (String.eqb p (TXM.ioc_prefix txm)) eqn:Heq|].
  - injection He as ->. apply String.eqb_eq in Heq. subst p.
    f_equal. unfold set_pvs.
    assert (Hsame : rebind txm e pv = pv).
    { unfold rebind, set_epicsPV, set_ioc_prefix. destruct pv. cbn in *. subst. reflexivity. }
    rewrite Hsame, insert_id by exact Hpv. symmetry. apply world_eta.
  - step Hpv. rewrite He.
    step Hpv. rewrite ?insert_insert_eq. reflexivity.
  - step Hpv. rewrite He.
    step Hpv. rewrite ?insert_insert_eq. reflexivity.
Qed.

Lemma epics_name_rebind (txm : TXM.t) (e : string) (pv : TxmPV.t) :
  epics_name (rebind txm e pv) txm = inr e.
Proof.
  unfold epics_name, rebind, set_epicsPV, set_ioc_prefix. cbn. rewrite String.eqb_refl.
  reflexivity.
Qed.

(** A read on an attached session: the transport's value, coerced. *)
Lemma get_attached (rt : Runtime) (self : string) (n : nat) (w : world) (pv : TxmPV.t)
    (e : string) (v : pyval) :
  pvs w !! self = Some pv -> TXM.is_attached (session w) = true ->
  epics_name pv (session w) = inr e ->
  coerce (TxmPV.dtype pv) (ca_get rt (now w) e) = inr v ->
  __get__ rt self n w =
  Ret v (set_now (S (now w))
           (set_pvs (<[self := TxmPV.set_curr_value v (rebind (session w) e pv)]> (pvs w)) w)).
Proof.
  intros Hpv Hatt He Hv. unfold __get__, epics_get. step Hpv. rewrite Hatt.
  step Hpv. rewrite (get_epics_PV_ok _ _ _ _ _ _ Hpv He). step Hpv.
  cbn [TxmPV.dtype TxmPV.set_curr_value rebind set_epicsPV set_ioc_prefix].
  unfold coerce in Hv. destruct (TxmPV.dtype pv) as [d|].
  - step Hpv. rewrite Hv. step Hpv.
    rewrite !insert_insert_eq. cbn. reflexivity.
  - step Hpv. rewrite !insert_insert_eq. cbn. injection Hv as ->. reflexivity.
Qed.

(** A read on a session that is not attached: the cached value, coerced. *)
Lemma get_unattached (rt : Runtime) (self : string) (n : nat) (w : world) (pv : TxmPV.t)
    (v : pyval) :
  pvs w !! self = Some pv -> TXM.is_attached (session w) = false ->
  coerce (TxmPV.dtype pv) (TxmPV.curr_value pv) = inr v ->
  __get__ rt self n w = Ret v (set_pvs (<[self := TxmPV.set_curr_value v pv]> (pvs w)) w).
Proof.
  intros Hpv Hatt Hv. unfold __get__. step Hpv. rewrite Hatt. step Hpv.
  unfold coerce in Hv.
  destruct (TxmPV.dtype pv) as [d|].
  - step Hpv. rewrite Hv. step Hpv. reflexivity.
  - step Hpv. injection Hv as <-.
    assert (Hsame : TxmPV.set_curr_value (TxmPV.curr_value pv) pv = pv) by (destruct pv; reflexivity).
    rewrite Hsame, insert_id by exact Hpv. rewrite world_eta. reflexivity.
Qed.

(** A read on a session that is not attached, of a cached value the
    [dtype] does not accept. *)
Lemma get_unattached_raises (rt : Runtime) (self : string) (n : nat) (w : world)
    (pv : TxmPV.t) (err : exn) :
  pvs w !! self = Some pv -> TXM.is_attached (session w) = false ->
  coerce (TxmPV.dtype pv) (TxmPV.curr_value pv) = inl err ->
  __get__ rt self n w = Raise err w.
Proof.
  intros Hpv Hatt Hv. unfold __get__. step Hpv. rewrite Hatt. step Hpv.
  unfold coerce in Hv.
  destruct (TxmPV.dtype pv) as [d|]; [|discriminate Hv].
  step Hpv. rewrite Hv. reflexivity.
Qed.

(** ** Writes *)

Lemma callbacks_ok_issued (self : string) (val : pyval) (e : string) (pv : TxmPV.t)
    (w : world) :
  callbacks_ok w -> pvs w !! self = Some pv -> callbacks_ok (issued self val e pv w).
Proof.
  intros Hok Hpv. unfold callbacks_ok in *. rewrite List.Forall_forall in *.
  assert (Hwait : forall other,
    TxmPV.wait (pv_at (issued self val e pv w) other) = TxmPV.wait (pv_at w other)).
  { intros other. unfold issued. destruct (decide (self = other)) as [<-|Hne].
    - rewrite pv_at_insert, (pv_at_lookup _ _ _ Hpv). reflexivity.
    - rewrite pv_at_insert_ne by exact Hne. reflexivity. }
  intros cb Hin. rewrite Hwait. unfold issued in Hin. cbn [callbacks] in Hin.
  destruct (TxmPV.wait pv) eqn:Hw; [exact (Hok cb Hin)|].
  apply in_app_or in Hin. destruct Hin as [Hin|[<-|[]]]; [exact (Hok cb Hin)|].
  cbn [cb_self]. rewrite (pv_at_lookup _ _ _ Hpv). exact Hw.
Qed.

(** A write the session may make, on an attached session, through a
    descriptor without the [wait] policy. *)
Lemma set_attached_nonblocking (rt : Runtime) (self : string) (val : pyval) (n : nat)
    (w : world) (pv : TxmPV.t) (e : string) :
  callbacks_ok w -> pvs w !! self = Some pv -> TXM.is_attached (session w) = true ->
  TxmPV.permit_required pv && negb (TXM.has_permit (session w)) = false ->
  epics_name pv (session w) = inr e -> TxmPV.wait pv = false ->
  __set__ rt self val n w = Ret tt (delivered rt (issued self val e pv w)).
Proof.
  intros Hok Hpv Hatt Hperm He Hwait.
  pose proof (callbacks_ok_issued self val e pv w Hok Hpv) as Hok'.
  unfold __set__, epics_put_callback. step Hpv. rewrite Hatt. cbn [andb]. rewrite Hperm.
  step Hpv.
  erewrite get_epics_PV_ok; [|cbn [pvs]; apply lookup_insert_eq|exact He].
  unfold issued in *. rewrite Hwait in *.
  step Hpv. destruct (TXM.pv_queue (session w)) as [q|]; step Hpv; rewrite Hwait; step Hpv;
    rewrite !insert_insert_eq; rewrite <- (deliver_ok rt n _ Hok'); reflexivity.
Qed.

(** The same write through a descriptor with the [wait] policy: the call
    [self.complete_put()] lacks its argument. *)
Lemma set_attached_blocking (rt : Runtime) (self : string) (val : pyval) (n : nat)
    (w : world) (pv : TxmPV.t) (e : string) :
  callbacks_ok w -> pvs w !! self = Some pv -> TXM.is_attached (session w) = true ->
  TxmPV.permit_required pv && negb (TXM.has_permit (session w)) = false ->
  epics_name pv (session w) = inr e -> TxmPV.wait pv = true ->
  __set__ rt self val n w = Raise TypeError (delivered rt (issued self val e pv w)).
Proof.
  intros Hok Hpv Hatt Hperm He Hwait.
  pose proof (callbacks_ok_issued self val e pv w Hok Hpv) as Hok'.
  unfold __set__, epics_put_wait, complete_put. step Hpv. rewrite Hatt. cbn [andb].
  rewrite Hperm. step Hpv.
  erewrite get_epics_PV_ok; [|cbn [pvs]; apply lookup_insert_eq|exact He].
  unfold issued in *. rewrite Hwait in *.
  step Hpv. destruct (TXM.pv_queue (session w)) as [q|]; step Hpv; rewrite Hwait; step Hpv;
    rewrite !insert_insert_eq; (erewrite deliver_ok; [reflexivity|exact Hok']).
Qed.

(** A write on a session that is not attached. *)
Lemma set_unattached (rt : Runtime) (self : string) (val : pyval) (n : nat) (w : world)
    (pv : TxmPV.t) :
  pvs w !! self = Some pv -> TXM.is_attached (session w) = false ->
  __set__ rt self val n w =
  Ret tt (set_pvs (<[self := TxmPV.set_put_complete true
                      (TxmPV.set_curr_value val (TxmPV.set_txm (session w) pv))]> (pvs w)) w).
Proof.
  intros Hpv Hatt. unfold __set__. step Hpv. rewrite Hatt. cbn [andb negb]. step Hpv.
  rewrite !insert_insert_eq. reflexivity.
Qed.

(** A write the session may not make, on an attached session. *)
Lemma set_refused (rt : Runtime) (self : string) (val : pyval) (n : nat) (w : world)
    (pv : TxmPV.t) :
  pvs w !! self = Some pv -> TxmPV.permit_required pv = true ->
  TXM.is_attached (session w) = true -> TXM.has_permit (session w) = false ->
  __set__ rt self val n w =
  Ret tt (set_warnings (warnings w ++ [permit_warning (TxmPV._namestring pv)])
            (set_pvs (<[self := TxmPV.set_txm (session w) pv]> (pvs w)) w)).
Proof.
  intros Hpv Hreq Hatt Hperm. unfold __set__. step Hpv.
  rewrite Hatt, Hperm, Hreq. cbn [andb negb]. step Hpv. reflexivity.
Qed.

(** * The claims *)

(** C1 (as amended).  On an attached session without permit, a write
    through a permit-required descriptor returns normally and is
    suppressed: the cached value [curr_value] is what it was, no write
    reaches the transport, no callback is registered, the queue and the
    completion flag are untouched, and one warning is raised. *)
Theorem refused_write_is_suppressed (rt : Runtime) (self : string) (val : pyval) (n : nat)
    (w : world) (pv : TxmPV.t) :
  pvs w !! self = Some pv -> TxmPV.permit_required pv = true ->
  TXM.is_attached (session w) = true -> TXM.has_permit (session w) = false ->
  exists w',
    __set__ rt self val n w = Ret tt w'
    /\ TxmPV.curr_value (pv_at w' self) = TxmPV.curr_value pv
    /\ TxmPV.put_complete (pv_at w' self) = TxmPV.put_complete pv
    /\ puts w' = puts w /\ callbacks w' = callbacks w /\ queue_of w' = queue_of w
    /\ warnings w' = (warnings w ++ [permit_warning (TxmPV._namestring pv)])%list.
Proof.
  intros Hpv Hreq Hatt Hperm. eexists. split; [apply (set_refused rt); eassumption|].
  run. rewrite pv_at_insert. repeat split.
Qed.

(** C1, a witness: [TXM().ShutterA_Open = 1]. *)
Lemma refused_write_witness :
  let rt := beamline (VInt 0) 0 in
  let w := boot rt visitor in
  exists w',
    __set__ rt "ShutterA_Open" (VInt 1) 0%nat w = Ret tt w'
    /\ TxmPV.curr_value (pv_at w' "ShutterA_Open") = TxmPV.curr_value (pv_at w "ShutterA_Open")
    /\ TxmPV.put_complete (pv_at w' "ShutterA_Open") = TxmPV.put_complete (pv_at w "ShutterA_Open")
    /\ puts w' = puts w /\ callbacks w' = callbacks w /\ queue_of w' = queue_of w
    /\ warnings w' =
       (warnings w ++ [permit_warning (TxmPV._namestring (pv_at w "ShutterA_Open"))])%list.
Proof.
  intros rt w.
  apply (refused_write_is_suppressed rt "ShutterA_Open" (VInt 1) 0%nat w
           (pv_at w "ShutterA_Open")); vm_compute; reflexivity.
Defined.

(** C1 as stated fails on a session that is not attached: there the write
    [TXM(is_attached=False).ShutterA_Open = 1], made without permit through
    a permit-required descriptor, does cache the value and raises no
    warning. *)
Lemma unattached_write_without_permit_is_cached :
  let rt := beamline (VInt 0) 0 in
  let w := boot rt offline in
  TxmPV.permit_required (pv_at w "ShutterA_Open") = true
  /\ TXM.has_permit (session w) = false
  /\ TxmPV.curr_value (pv_at w "ShutterA_Open") = VNone
  /\ exists w',
       __set__ rt "ShutterA_Open" (VInt 1) 0%nat w = Ret tt w'
       /\ TxmPV.curr_value (pv_at w' "ShutterA_Open") = VInt 1
       /\ warnings w' = [].
Proof.
  intros rt w. repeat split. eexists. split.
  - apply (set_unattached rt "ShutterA_Open" (VInt 1) 0%nat w (pv_at w "ShutterA_Open"));
      vm_compute; reflexivity.
  - split; vm_compute; reflexivity.
Qed.

(** C8 (as amended).  On a session that is not attached, a write of any
    value [val] returns with [put_complete] true ([write_pending] false)
    without touching the transport.  The read that follows applies the
    descriptor's [dtype], if it has one, to the cached value: it returns
    [val] itself when no [dtype] is declared, the coerced value when the
    [dtype] accepts [val], and raises the [dtype]'s error, leaving the store
    as the write left it, when the [dtype] does not accept [val]. *)
Theorem unattached_write_then_read (rt : Runtime) (self : string) (val : pyval) (n : nat)
    (w : world) (pv : TxmPV.t) :
  pvs w !! self = Some pv -> TXM.is_attached (session w) = false ->
  exists w1,
    __set__ rt self val n w = Ret tt w1
    /\ TxmPV.put_complete (pv_at w1 self) = true
    /\ puts w1 = puts w /\ session w1 = session w
    /\ match coerce (TxmPV.dtype pv) val with
       | inr v => exists w2, __get__ rt self n w1 = Ret v w2
       | inl err => __get__ rt self n w1 = Raise err w1
       end.
Proof.
  intros Hpv Hatt. eexists. split; [apply (set_unattached rt); eassumption|].
  run. rewrite pv_at_insert. repeat split.
  destruct (coerce (TxmPV.dtype pv) val) as [err|v] eqn:Hv.
  - apply (get_unattached_raises rt) with
      (pv := TxmPV.set_put_complete true
               (TxmPV.set_curr_value val (TxmPV.set_txm (session w) pv))).
    + apply lookup_insert_eq.
    + exact Hatt.
    + exact Hv.
  - eexists. apply (get_unattached rt) with
      (pv := TxmPV.set_put_complete true
               (TxmPV.set_curr_value val (TxmPV.set_txm (session w) pv))).
    + apply lookup_insert_eq.
    + exact Hatt.
    + exact Hv.
Qed.

(** C8, a witness: [DCMputEnergy], declared with [dtype] [float], written
    with the integer 8 on [TXM(is_attached=False)], reads back as the
    float 8.0. *)
Lemma unattached_write_then_read_witness :
  let rt := beamline (VInt 0) 0 in
  let w := boot rt offline in
  exists w1,
    __set__ rt "DCMputEnergy" (VInt 8) 0%nat w = Ret tt w1
    /\ TxmPV.put_complete (pv_at w1 "DCMputEnergy") = true
    /\ puts w1 = puts w /\ session w1 = session w
    /\ exists w2, __get__ rt "DCMputEnergy" 0%nat w1 = Ret (VFloat 8) w2.
Proof.
  intros rt w.
  refine (unattached_write_then_read rt "DCMputEnergy" (VInt 8) 0%nat w
            (pv_at w "DCMputEnergy") _ _).
  - apply declared_pv_at. vm_compute. exact I.
  - reflexivity.
Defined.

(** C8 as stated fails on a value the [dtype] does not accept:
    [TXM(is_attached=False).DCMputEnergy = None] returns with [put_complete]
    true, and the read that follows raises [TypeError] (from [float(None)])
    instead of returning the written value. *)
Lemma unattached_write_of_None_then_read_raises :
  let rt := beamline (VInt 0) 0 in
  let w := boot rt offline in
  TXM.is_attached (session w) = false
  /\ exists w1,
       __set__ rt "DCMputEnergy" VNone 0%nat w = Ret tt w1
       /\ TxmPV.put_complete (pv_at w1 "DCMputEnergy") = true
       /\ __get__ rt "DCMputEnergy" 0%nat w1 = Raise TypeError w1.
Proof.
  intros rt w. split; [reflexivity|].
  assert (Hpv : pvs w !! "DCMputEnergy" = Some (pv_at w "DCMputEnergy"))
    by (apply declared_pv_at; vm_compute; exact I).
  eexists. split; [apply (set_unattached rt "DCMputEnergy" VNone 0%nat w _ Hpv); reflexivity|].
  split; [run; rewrite pv_at_insert; reflexivity|].
  apply (get_unattached_raises rt) with
    (pv := TxmPV.set_put_complete true
             (TxmPV.set_curr_value VNone (TxmPV.set_txm (session w) (pv_at w "DCMputEnergy")))).
  - apply lookup_insert_eq.
  - reflexivity.
  - vm_compute. reflexivity.
Qed.

(** The range check of [move_energy] on an energy outside the range: either
    the lower comparison fails or the upper one does. *)
Lemma range_check_fails (energy : pyval) :
  outside_E_RANGE energy ->
  exists b, py_le (fst E_RANGE) energy = inr b
            /\ (b = true -> py_le energy (snd E_RANGE) = inr false).
Proof.
  intros (x & Hx & Hout). unfold py_le, py_compare, E_RANGE. cbn [fst snd as_num].
  rewrite Hx. cbn [res_bind]. eexists. split; [reflexivity|].
  destruct x as [a|f]; cbn [num_compare num_lt_Z num_gt_Z] in *.
  - destruct Hout as [Hlt|Hgt].
    + intros Hb. exfalso. apply Z.compare_gt_iff in Hlt. rewrite Hlt in Hb. discriminate Hb.
    + intros _. apply Z.compare_gt_iff in Hgt. rewrite Hgt. reflexivity.
  - destruct Hout as [Hlt|Hgt].
    + intros Hb. rewrite Hlt in Hb. discriminate Hb.
    + intros _. rewrite Hgt. reflexivity.
Qed.

(** C7.  With permit held, [move_energy] on an energy outside [[5, 10]] keV
    raises [EnergyError]; the message shows the attempted value and both
    bounds; the store is exactly what it was, so no control point has been
    written and nothing has reached the transport. *)
Theorem move_energy_out_of_range (rt : Runtime) (energy constant_mag gap_offset : pyval)
    (n : nat) (w : world) :
  TXM.has_permit (session w) = true -> outside_E_RANGE energy ->
  move_energy rt energy constant_mag gap_offset n w
  = Raise (EnergyError ("Energy " +:+ py_str rt energy +:+ " keV not in range 5 - 10 keV")) w.
Proof.
  intros Hperm Hout. destruct (range_check_fails energy Hout) as (b & Hlo & Hhi).
  unfold move_energy, permit_required. run. rewrite Hperm. run. rewrite Hlo.
  destruct b.
  - rewrite (Hhi eq_refl). reflexivity.
  - reflexivity.
Qed.

(** C7, a witness: the spec's example, energy 12 with the range (5, 10). *)
Lemma move_energy_out_of_range_witness :
  let rt := beamline (VInt 0) 0 in
  let w := boot rt operator in
  move_energy rt (VInt 12) (VBool true) (VFloat 0) 0%nat w
  = Raise (EnergyError "Energy 12 keV not in range 5 - 10 keV") w.
Proof.
  intros rt w.
  apply (move_energy_out_of_range rt (VInt 12) (VBool true) (VFloat 0) 0%nat w).
  - reflexivity.
  - exists (NInt 12). split; [reflexivity|]. right. cbn. lia.
Defined.

(** ** Draining the queue *)

(** The loop of [flush_pvs]: it ends at the first sleep after which every
    queued descriptor reports completion, and not before. *)
Lemma flush_loop (rt : Runtime) (cond : unit -> M bool) (body : unit -> M (unit + Empty_set))
    (n : nat) :
  (forall w, cond tt n w = Ret (negb (all_put_complete w)) w) ->
  (forall w, callbacks_ok w -> body tt n w = Ret (inl tt) (slept rt w)) ->
  forall (k fuel : nat) (w : world),
    callbacks_ok w ->
    (forall i, (i < k)%nat -> all_put_complete (sleeps rt i w) = false) ->
    all_put_complete (sleeps rt k w) = true ->
    ((k <= fuel)%nat -> while_fuel fuel cond body tt n w = Ret (inl tt) (sleeps rt k w))
    /\ ((fuel < k)%nat -> while_fuel fuel cond body tt n w = Blocked).
Proof.
  intros Hcond Hbody. induction k as [|k IH]; intros fuel w Hok Hbefore Hat.
  - split; [|lia]. intros _. cbn [sleeps] in *.
    apply while_fuel_exit. rewrite Hcond, Hat. reflexivity.
  - assert (Hnow : cond tt n w = Ret true w).
    { pose proof (Hbefore 0%nat ltac:(lia)) as H0. cbn [sleeps] in H0.
      rewrite Hcond, H0. reflexivity. }
    destruct fuel as [|fuel].
    + split; [lia|]. intros _. eapply while_fuel_spent. exact Hnow.
    + rewrite (while_fuel_step fuel cond body tt tt n w w (slept rt w) Hnow (Hbody w Hok)).
      cbn [sleeps]. destruct (IH fuel (slept rt w)) as [Hret Hblk].
      * apply callbacks_ok_slept, Hok.
      * intros i Hi. apply (Hbefore (S i)). lia.
      * exact Hat.
      * split; intros Hle; [apply Hret|apply Hblk]; lia.
Qed.

Lemma flush_pvs_spec (rt : Runtime) (k : nat) (w : world) :
  callbacks_ok w ->
  (forall i, (i < k)%nat -> all_put_complete (sleeps rt i w) = false) ->
  all_put_complete (sleeps rt k w) = true ->
  (forall n, (k <= n)%nat -> flush_pvs rt n w = Ret tt (drained (sleeps rt k w)))
  /\ (forall n, (n < k)%nat -> flush_pvs rt n w = Blocked).
Proof.
  intros Hok Hbefore Hat.
  assert (Hloop : forall n,
    ((k <= n)%nat ->
       while_fuel n (fun _ : unit => done <- gets all_put_complete ;; ret (negb done))
         (fun _ : unit => time_sleep rt 0.01 ;; ret (inl tt) : M (unit + Empty_set)) tt n w
       = Ret (inl tt) (sleeps rt k w))
    /\ ((n < k)%nat ->
       while_fuel n (fun _ : unit => done <- gets all_put_complete ;; ret (negb done))
         (fun _ : unit => time_sleep rt 0.01 ;; ret (inl tt) : M (unit + Empty_set)) tt n w
       = Blocked)).
  { intros n. apply (flush_loop rt); try assumption.
    - intros w0. reflexivity.
    - intros w0 Hw0. unfold bind. rewrite time_sleep_ok by exact Hw0. reflexivity. }
  split; intros n Hn; unfold flush_pvs, while_; unfold bind at 1;
    destruct (Hloop n) as [Hret Hblk].
  - rewrite (Hret Hn). reflexivity.
  - rewrite (Hblk Hn). reflexivity.
Qed.

Lemma drained_facts (w : world) :
  TXM.pv_queue (session (drained w)) = Some [] /\ queue_of (drained w) = []
  /\ flushed (drained w) = (flushed w ++ [queue_of w])%list
  /\ (forall self, pv_at (drained w) self = pv_at w self)
  /\ puts (drained w) = puts w /\ class_pv_queue (drained w) = class_pv_queue w.
Proof. repeat split. Qed.

Lemma all_put_complete_members (w : world) (self : string) :
  all_put_complete w = true -> In self (queue_of w) ->
  TxmPV.put_complete (pv_at w self) = true.
Proof.
  unfold all_put_complete. intros H Hin. rewrite forallb_forall in H. exact (H self Hin).
Qed.

(** C9.  Entering [wait_pvs] while the previous batch has pending writes:
    let [k] be the first sleep after which every member of the queue
    reports [put_complete].  With fewer than [k] turns the call is still
    blocked; given [k] turns it returns, every member of the prior queue is
    complete, and the session now has a queue of its own, which is empty:
    the new batch starts with no members, and the one [pv_queue] of the
    session is the only batch there is. *)
Theorem wait_pvs_enter_drains_then_starts_empty (rt : Runtime) (k : nat) (w : world) :
  callbacks_ok w ->
  (forall i, (i < k)%nat -> all_put_complete (sleeps rt i w) = false) ->
  all_put_complete (sleeps rt k w) = true ->
  (forall n, (n < k)%nat -> wait_pvs_enter rt n w = Blocked)
  /\ (forall n, (k <= n)%nat ->
        exists w',
          wait_pvs_enter rt n w = Ret tt w'
          /\ (forall self, In self (queue_of w) -> TxmPV.put_complete (pv_at w' self) = true)
          /\ TXM.pv_queue (session w') = Some []
          /\ queue_of w' = []
          /\ flushed w' = (flushed w ++ [queue_of w])%list).
Proof.
  intros Hok Hbefore Hat.
  destruct (flush_pvs_spec rt k w Hok Hbefore Hat) as [Hret Hblk].
  split; intros n Hn; unfold wait_pvs_enter; unfold bind.
  - rewrite (Hblk n Hn). reflexivity.
  - rewrite (Hret n Hn). eexists. split; [reflexivity|].
    run. repeat split.
    + intros self Hin. rewrite <- (queue_of_sleeps rt k w) in Hin.
      exact (all_put_complete_members _ _ Hat Hin).
    + unfold drained. run. destruct (sleeps_frame rt k w) as (_&_&_&_&_&->).
      rewrite queue_of_sleeps. reflexivity.
Qed.

(** C9, a witness: [DCMmvt] has been written, the transport acknowledges at
    interaction 3, which the second sleep reaches. *)
Lemma wait_pvs_enter_witness :
  let rt := beamline (VInt 0) 3 in
  let w := after_DCMmvt_write 3 in
  queue_of w = ["DCMmvt"] /\ all_put_complete w = false
  /\ (forall n, (n < 2)%nat -> wait_pvs_enter rt n w = Blocked)
  /\ (forall n, (2 <= n)%nat ->
        exists w',
          wait_pvs_enter rt n w = Ret tt w'
          /\ (forall self, In self (queue_of w) -> TxmPV.put_complete (pv_at w' self) = true)
          /\ TXM.pv_queue (session w') = Some []
          /\ queue_of w' = []
          /\ flushed w' = (flushed w ++ [queue_of w])%list).
Proof.
  intros rt w. split; [vm_compute; reflexivity|]. split; [vm_compute; reflexivity|].
  apply (wait_pvs_enter_drains_then_starts_empty rt 2%nat w).
  - unfold callbacks_ok. vm_compute. repeat constructor.
  - intros i Hi. destruct i as [|[|i]]; [vm_compute; reflexivity|vm_compute; reflexivity|lia].
  - vm_compute. reflexivity.
Defined.

(** ** What a computation leaves alone *)

Section Keeps.

Context (R : world -> world -> Prop).
Hypothesis R_refl : forall w, R w w.
Hypothesis R_trans : forall w1 w2 w3, R w1 w2 -> R w2 w3 -> R w1 w3.

Lemma keeps_ret {A : Type} (a : A) : keeps R (ret a).
Proof. intros n w. apply R_refl. Qed.

Lemma keeps_raise {A : Type} (e : exn) : keeps R (raise (A := A) e).
Proof. intros n w. apply R_refl. Qed.

Lemma keeps_lift {A : Type} (r : res A) : keeps R (lift r).
Proof. destruct r; [apply keeps_raise|apply keeps_ret]. Qed.

Lemma keeps_gets {A : Type} (f : world -> A) : keeps R (gets f).
Proof. intros n w. apply R_refl. Qed.

Lemma keeps_modify (f : world -> world) : (forall w, R w (f w)) -> keeps R (modify f).
Proof. intros H n w. apply H. Qed.

Lemma keeps_bind {A B : Type} (m : M A) (k : A -> M B) :
  keeps R m -> (forall a, keeps R (k a)) -> keeps R (bind m k).
Proof.
  intros Hm Hk n w. unfold bind. specialize (Hm n w).
  destruct (m n w) as [a w1|e w1|]; [|exact Hm|exact I].
  specialize (Hk a n w1). destruct (k a n w1); try exact I; eapply R_trans; eassumption.
Qed.

Lemma keeps_while_fuel {S A : Type} (cond : S -> M bool) (body : S -> M (S + A)) :
  (forall s, keeps R (cond s)) -> (forall s, keeps R (body s)) ->
  forall fuel s, keeps R (while_fuel fuel cond body s).
Proof.
  intros Hc Hb. induction fuel as [|fuel IH]; intros s n w; cbn [while_fuel];
    specialize (Hc s n w); destruct (cond s n w) as [[|] w1|e w1|]; try exact Hc; try exact I.
  specialize (Hb s n w1). destruct (body s n w1) as [[s'|a] w2|e w2|]; try exact I;
    try (eapply R_trans; eassumption).
  specialize (IH s' n w2). destruct (while_fuel fuel cond body s' n w2); try exact I;
    (eapply R_trans; [|exact IH]); eapply R_trans; eassumption.
Qed.

Lemma keeps_while {S A : Type} (cond : S -> M bool) (body : S -> M (S + A)) (s : S) :
  (forall s, keeps R (cond s)) -> (forall s, keeps R (body s)) ->
  keeps R (while_ cond body s).
Proof. intros Hc Hb n w. unfold while_. apply (keeps_while_fuel cond body Hc Hb n s n w). Qed.

End Keeps.

Lemma queue_same_refl (w : world) : queue_same w w.
Proof. split; reflexivity. Qed.

Lemma queue_same_trans (w1 w2 w3 : world) :
  queue_same w1 w2 -> queue_same w2 w3 -> queue_same w1 w3.
Proof. intros [H1 H2] [H3 H4]. split; congruence. Qed.

Lemma queue_grows_refl (w : world) : queue_grows w w.
Proof. exists []. symmetry. apply app_nil_r. Qed.



Lemma keeps_weaken {A : Type} (R1 R2 : world -> world -> Prop) (m : M A) :
  (forall w w', R1 w w' -> R2 w w') -> keeps R1 m -> keeps R2 m.
Proof. intros H Hm n w. specialize (Hm n w). destruct (m n w); auto. Qed.

(** Building a [keeps queue_same] proof along the shape of the code. *)
Ltac keeps_same :=
  repeat first
    [ apply (keeps_bind queue_same queue_same_trans)
    | apply (keeps_ret queue_same queue_same_refl)
    | apply (keeps_raise queue_same queue_same_refl)
    | apply (keeps_lift queue_same queue_same_refl)
    | apply (keeps_gets queue_same queue_same_refl)
    | apply (keeps_while queue_same queue_same_trans)
    | apply (keeps_modify queue_same); intros ?; split; reflexivity
    | intros ? ].

Lemma keeps_same_tick : keeps queue_same tick.
Proof. unfold tick. keeps_same. Qed.

Lemma keeps_same_attr {A : Type} (self : string) (field : TxmPV.t -> A) :
  keeps queue_same (attr self field).
Proof. unfold attr. keeps_same. Qed.

Lemma keeps_same_update (self : string) (f : TxmPV.t -> TxmPV.t) :
  keeps queue_same (update self f).
Proof. unfold update. keeps_same. Qed.

Lemma keeps_same_get_epics_PV (self : string) (txm : TXM.t) :
  keeps queue_same (get_epics_PV self txm).
Proof.
  unfold get_epics_PV, pv_name.
  apply (keeps_bind queue_same queue_same_trans); [apply keeps_same_attr|]. intros epv.
  apply (keeps_bind queue_same queue_same_trans).
  - destruct epv; [|keeps_same].
    apply (keeps_bind queue_same queue_same_trans); [apply keeps_same_attr|].
    intros [p|]; keeps_same.
  - intros [pv|]; [keeps_same|].
    apply (keeps_bind queue_same queue_same_trans); [apply keeps_same_update|]. intros _.
    apply (keeps_bind queue_same queue_same_trans).
    + apply (keeps_bind queue_same queue_same_trans); [apply keeps_same_attr|]. keeps_same.
    + intros name. apply (keeps_bind queue_same queue_same_trans); [apply keeps_same_update|].
      keeps_same.
Qed.

Lemma keeps_same_epics_get (rt : Runtime) (pv : string) : keeps queue_same (epics_get rt pv).
Proof. unfold epics_get, tick. keeps_same. Qed.

Lemma keeps_same_get (rt : Runtime) (self : string) : keeps queue_same (__get__ rt self).
Proof.
  unfold __get__.
  apply (keeps_bind queue_same queue_same_trans); [keeps_same|]. intros txm.
  apply (keeps_bind queue_same queue_same_trans).
  - destruct (TXM.is_attached txm); [|keeps_same].
    apply (keeps_bind queue_same queue_same_trans); [apply keeps_same_get_epics_PV|]. intros pv.
    apply (keeps_bind queue_same queue_same_trans); [apply keeps_same_epics_get|]. intros v.
    apply keeps_same_update.
  - intros _. apply (keeps_bind queue_same queue_same_trans); [apply keeps_same_attr|].
    intros dt. apply (keeps_bind queue_same queue_same_trans); [|intros _; apply keeps_same_attr].
    destruct dt; [|keeps_same].
    apply (keeps_bind queue_same queue_same_trans); [apply keeps_same_attr|]. intros cv.
    apply (keeps_bind queue_same queue_same_trans); [keeps_same|]. intros v.
    apply keeps_same_update.
Qed.

Lemma keeps_same_complete_put (rt : Runtime) (self : string) (args : list TXM.t) :
  keeps queue_same (complete_put rt self args).
Proof.
  unfold complete_put. destruct args as [|txm [|? ?]]; [keeps_same| |keeps_same].
  unfold complete_put_body.
  apply (keeps_bind queue_same queue_same_trans); [|intros _; apply keeps_same_update].
  apply (keeps_while queue_same queue_same_trans).
  - intros b. apply (keeps_bind queue_same queue_same_trans); [apply keeps_same_attr|]. keeps_same.
  - intros _. apply (keeps_bind queue_same queue_same_trans); [apply keeps_same_tick|]. intros _.
    apply (keeps_bind queue_same queue_same_trans); [apply keeps_same_get_epics_PV|]. intros pv.
    apply (keeps_bind queue_same queue_same_trans); [apply keeps_same_epics_get|]. intros v.
    apply (keeps_bind queue_same queue_same_trans); [apply keeps_same_attr|]. keeps_same.
Qed.

Lemma keeps_same_run_callbacks (rt : Runtime) (cbs : list callback) :
  keeps queue_same (run_callbacks rt cbs).
Proof.
  induction cbs as [|cb cbs IH]; cbn [run_callbacks]; [keeps_same|].
  apply (keeps_bind queue_same queue_same_trans); [|intros _; exact IH].
  intros n w. unfold run_callback.
  pose proof (keeps_same_complete_put rt (cb_self cb) [cb_data cb] n w) as H.
  destruct (complete_put rt (cb_self cb) [cb_data cb] n w); try exact H. apply queue_same_refl.
Qed.

Lemma keeps_same_deliver (rt : Runtime) : keeps queue_same (deliver rt).
Proof.
  unfold deliver.
  apply (keeps_bind queue_same queue_same_trans); [keeps_same|]. intros w0.
  apply (keeps_bind queue_same queue_same_trans); [keeps_same|]. intros _.
  apply keeps_same_run_callbacks.
Qed.

Lemma keeps_same_time_sleep (rt : Runtime) (seconds : float) :
  keeps queue_same (time_sleep rt seconds).
Proof.
  unfold time_sleep. apply (keeps_bind queue_same queue_same_trans); [apply keeps_same_tick|].
  intros _. apply keeps_same_deliver.
Qed.

Lemma keeps_same_time_time (rt : Runtime) : keeps queue_same (time_time rt).
Proof. unfold time_time, tick. keeps_same. Qed.

Lemma keeps_same_getattr (rt : Runtime) (name : string) : keeps queue_same (getattr_ rt name).
Proof.
  unfold getattr_. apply (keeps_bind queue_same queue_same_trans); [keeps_same|]. intros w0.
  destruct (pvs w0 !! name); [apply keeps_same_get|].
  destruct (TXM.attrs (session w0) !! name); [keeps_same|].
  repeat match goal with |- keeps _ (if ?c then _ else _) => destruct c end; keeps_same.
Qed.

(** A wait never touches the queue. *)
Lemma keeps_same_wait_pv (rt : Runtime) (pv_name : string) (target_val timeout : pyval) :
  keeps queue_same (wait_pv rt pv_name target_val timeout).
Proof.
  unfold wait_pv.
  apply (keeps_bind queue_same queue_same_trans); [apply keeps_same_time_sleep|]. intros _.
  apply (keeps_bind queue_same queue_same_trans); [apply keeps_same_time_time|]. intros startTime.
  apply (keeps_bind queue_same queue_same_trans); [|intros [?|?]; keeps_same].
  apply (keeps_while queue_same queue_same_trans); [keeps_same|]. intros _.
  apply (keeps_bind queue_same queue_same_trans); [apply keeps_same_getattr|]. intros pv_val.
  destruct (py_ne pv_val target_val); [|keeps_same].
  apply (keeps_bind queue_same queue_same_trans); [keeps_same|]. intros enforced.
  apply (keeps_bind queue_same queue_same_trans).
  - destruct enforced; [|keeps_same].
    apply (keeps_bind queue_same queue_same_trans); [apply keeps_same_time_time|]. intros curTime.
    apply (keeps_bind queue_same queue_same_trans); [keeps_same|]. intros [|]; keeps_same.
  - intros _. apply (keeps_bind queue_same queue_same_trans); [apply keeps_same_time_sleep|].
    keeps_same.
Qed.


Lemma issued_queue (rt : Runtime) (self : string) (val : pyval) (e : string) (pv : TxmPV.t)
    (w : world) :
  let w' := delivered rt (issued self val e pv w) in
  queue_of w' = (queue_of w ++ [self])%list
  /\ (TXM.pv_queue (session w) = None ->
        TXM.pv_queue (session w') = None
        /\ class_pv_queue w' = (class_pv_queue w ++ [self])%list)
  /\ (forall q, TXM.pv_queue (session w) = Some q ->
        TXM.pv_queue (session w') = Some (q ++ [self])%list
        /\ class_pv_queue w' = class_pv_queue w).
Proof.
  intros w'. subst w'.
  destruct (delivered_frame rt (issued self val e pv w)) as (Hc & Hs & _).
  unfold queue_of. rewrite Hc, Hs. unfold issued. cbn [session class_pv_queue].
  destruct (TXM.pv_queue (session w)) as [q|] eqn:Hq; cbn; rewrite ?Hq.
  - split; [reflexivity|]. split; [discriminate|].
    intros q' Hq'. injection Hq' as <-. split; reflexivity.
  - split; [reflexivity|]. split; [intros _; split; reflexivity|discriminate].
Qed.






(** ** Polling *)

Lemma wait_pv_unfold (rt : Runtime) (pv_name : string) (target_val timeout : pyval) :
  wait_pv rt pv_name target_val timeout =
  (time_sleep rt POLL_INTERVAL ;;
   startTime <- time_time rt ;;
   r <- while_ poll_cond (poll_body rt pv_name target_val timeout startTime) tt ;;
   match r with
   | inr v => ret v
   | inl _ => ret VNone
   end).
Proof. reflexivity. Qed.

Lemma getattr_pv (rt : Runtime) (name : string) (n : nat) (w : world) (pv : TxmPV.t) :
  pvs w !! name = Some pv -> getattr_ rt name n w = __get__ rt name n w.
Proof. intros H. unfold getattr_. run. rewrite H. reflexivity. Qed.

Lemma callbacks_ok_same_wait (w w' : world) :
  callbacks_ok w -> callbacks w' = callbacks w ->
  (forall s, TxmPV.wait (pv_at w' s) = TxmPV.wait (pv_at w s)) -> callbacks_ok w'.
Proof.
  unfold callbacks_ok. intros H Hc Hw. rewrite Hc. eapply List.Forall_impl; [|exact H].
  intros cb Hcb. cbn beta in *. rewrite Hw. exact Hcb.
Qed.

(** A timeout that is at least 0 is one the loop enforces. *)
Lemma nonneg_timeout_enforced (timeout : pyval) :
  py_le (VInt 0) timeout = inr true -> py_gt timeout (VInt (-1)) = inr true.
Proof.
  unfold py_le, py_gt, py_compare.
  destruct timeout as [|b|z|f|s]; cbn [as_num res_bind num_compare]; try discriminate.
  - destruct b; reflexivity.
  - destruct z; cbn; intros H; try discriminate H; reflexivity.
  - intros H. injection H as H. unfold SF_compare_Z in *.
    destruct (Prim2SF f) as [sz|neg| |neg m e]; cbn in H |- *; try discriminate H.
    + reflexivity.
    + destruct neg; [discriminate H|reflexivity].
    + destruct (0 <=? e)%Z eqn:He.
      * apply Z.leb_le in He.
        pose proof (Z.pow_pos_nonneg 2 e ltac:(lia) He) as Hpow.
        destruct neg.
        -- assert (Hlt : (Z.neg m * 2 ^ e ?= 0)%Z = Lt) by (apply Z.compare_lt_iff; nia).
           rewrite Hlt in H. discriminate H.
        -- assert (Hgt : (Z.pos m * 2 ^ e ?= -1)%Z = Gt) by (apply Z.compare_gt_iff; nia).
           rewrite Hgt. reflexivity.
      * apply Z.leb_gt in He.
        pose proof (Z.pow_pos_nonneg 2 (- e) ltac:(lia) ltac:(lia)) as Hpow.
        destruct neg.
        -- cbn in H. discriminate H.
        -- assert (Hgt : (Z.pos m ?= -1 * 2 ^ (- e))%Z = Gt) by (apply Z.compare_gt_iff; nia).
           rewrite Hgt. reflexivity.
Qed.

Lemma polling_slept (rt : Runtime) (txm : TXM.t) (name e : string)
    (dt : option (pyval -> res pyval)) (w : world) :
  polling txm name e dt w -> polling txm name e dt (slept rt w).
Proof.
  intros (Hs & Hok & pv & Hpv & Hdt & He). destruct (slept_frame rt w) as (_ & Hs' & _).
  split; [congruence|]. split; [apply callbacks_ok_slept, Hok|].
  destruct (lookup_slept rt w name pv Hpv) as [b Hb].
  exists (TxmPV.set_put_complete b pv). split; [exact Hb|]. destruct pv. split; assumption.
Qed.

Lemma polling_set_now (txm : TXM.t) (name e : string) (dt : option (pyval -> res pyval))
    (w : world) (k : nat) :
  polling txm name e dt w -> polling txm name e dt (set_now k w).
Proof.
  intros (Hs & Hok & Hpv). split; [exact Hs|]. split; [|exact Hpv].
  apply (callbacks_ok_same_wait w); [exact Hok|reflexivity|reflexivity].
Qed.

(** One read of the polled attribute on an attached session. *)
Lemma poll_read (rt : Runtime) (txm : TXM.t) (name e : string)
    (dt : option (pyval -> res pyval)) (v : pyval) (n : nat) (w : world) :
  polling txm name e dt w -> TXM.is_attached txm = true ->
  coerce dt (ca_get rt (now w) e) = inr v ->
  exists w1,
    getattr_ rt name n w = Ret v w1 /\ polling txm name e dt w1
    /\ now w1 = S (now w) /\ puts w1 = puts w.
Proof.
  intros (Hs & Hok & pv & Hpv & Hdt & He) Hatt Hv. subst txm dt.
  rewrite (getattr_pv rt name n w pv Hpv).
  rewrite (get_attached rt name n w pv e v Hpv Hatt He Hv).
  eexists. split; [reflexivity|]. split; [|split; reflexivity].
  split; [reflexivity|]. split.
  - apply (callbacks_ok_same_wait w); [exact Hok|reflexivity|].
    intros s. run. destruct (decide (name = s)) as [<-|Hne].
    + rewrite pv_at_insert, (pv_at_lookup _ _ _ Hpv). reflexivity.
    + rewrite pv_at_insert_ne by exact Hne. reflexivity.
  - eexists. split; [run; apply lookup_insert_eq|]. split; [reflexivity|].
    apply epics_name_rebind.
Qed.

Lemma poll_cond_attached (txm : TXM.t) (name e : string) (dt : option (pyval -> res pyval))
    (n : nat) (w : world) :
  polling txm name e dt w -> TXM.is_attached txm = true -> poll_cond tt n w = Ret true w.
Proof. intros (Hs & _) Hatt. unfold poll_cond. run. rewrite Hs, Hatt. reflexivity. Qed.

Section Poll.

Context (rt : Runtime) (txm : TXM.t) (name e : string) (dt : option (pyval -> res pyval)).
Context (target timeout : pyval) (start : float) (n : nat).
Hypothesis attached : TXM.is_attached txm = true.
Hypothesis never_equal :
  forall m, exists v, coerce dt (ca_get rt m e) = inr v /\ py_ne v target = true.
Hypothesis enforced : py_gt timeout (VInt (-1)) = inr true.

(** A turn of the loop whose clock reading is short of the timeout. *)
Lemma poll_continue (w : world) :
  polling txm name e dt w ->
  py_ge (VFloat (clock rt (S (now w)) - start)%float) timeout = inr false ->
  exists w',
    poll_body rt name target timeout start tt n w = Ret (inl tt) w'
    /\ polling txm name e dt w' /\ now w' = (now w + 3)%nat /\ puts w' = puts w.
Proof.
  intros Hpoll Hshort. destruct (never_equal (now w)) as (v & Hv & Hne).
  destruct (poll_read rt txm name e dt v n w Hpoll attached Hv) as (w1 & Hread & Hpoll1 & Hnow1 & Hputs1).
  unfold poll_body. unfold bind at 1. rewrite Hread, Hne.
  unfold time_time. run. rewrite enforced. run. rewrite Hnow1, Hshort. run.
  pose proof (polling_set_now txm name e dt w1 (S (S (now w))) Hpoll1) as Hpoll2.
  pose proof Hpoll2 as (_ & Hok2 & _).
  pose proof (time_sleep_ok rt 0.01 n _ Hok2) as Hsleep. unfold set_now in Hsleep, Hpoll2.
  rewrite Hsleep.
  eexists. split; [reflexivity|]. split; [apply polling_slept; exact Hpoll2|].
  match goal with |- context [slept rt ?w2] => destruct (slept_frame rt w2) as (_&_&Hn&Hp&_) end.
  rewrite Hn, Hp. cbn [now puts]. split; [lia|exact Hputs1].
Qed.

(** The turn of the loop whose clock reading reaches the timeout. *)
Lemma poll_expire (w : world) :
  polling txm name e dt w ->
  py_ge (VFloat (clock rt (S (now w)) - start)%float) timeout = inr true ->
  exists w',
    poll_body rt name target timeout start tt n w
    = Raise (TimeoutError (timeout_message rt name target timeout)) w'
    /\ now w' = (now w + 2)%nat /\ puts w' = puts w.
Proof.
  intros Hpoll Hdue. destruct (never_equal (now w)) as (v & Hv & Hne).
  destruct (poll_read rt txm name e dt v n w Hpoll attached Hv) as (w1 & Hread & Hpoll1 & Hnow1 & Hputs1).
  unfold poll_body. unfold bind at 1. rewrite Hread, Hne.
  unfold time_time. run. rewrite enforced. run. rewrite Hnow1, Hdue.
  eexists. split; [reflexivity|]. cbn [now puts]. split; [lia|exact Hputs1].
Qed.

(** The loop raises at the first turn [k] whose reading reaches the timeout:
    the body has to run [k + 1] times. *)
Lemma poll_loop (k : nat) :
  forall (fuel : nat) (w : world),
    polling txm name e dt w ->
    (forall i, (i < k)%nat ->
       py_ge (VFloat (clock rt (now w + 1 + 3 * i) - start)%float) timeout = inr false) ->
    py_ge (VFloat (clock rt (now w + 1 + 3 * k) - start)%float) timeout = inr true ->
    ((fuel <= k)%nat ->
       while_fuel fuel poll_cond (poll_body rt name target timeout start) tt n w = Blocked)
    /\ ((k < fuel)%nat ->
         exists w',
           while_fuel fuel poll_cond (poll_body rt name target timeout start) tt n w
           = Raise (TimeoutError (timeout_message rt name target timeout)) w'
           /\ now w' = (now w + 2 + 3 * k)%nat /\ puts w' = puts w).
Proof.
  induction k as [|k IH]; intros fuel w Hpoll Hbefore Hat;
    pose proof (poll_cond_attached txm name e dt n w Hpoll attached) as Hcond.
  - replace (now w + 1 + 3 * 0)%nat with (S (now w)) in Hat by lia.
    destruct (poll_expire w Hpoll Hat) as (w' & Hbody & Hnow & Hputs).
    destruct fuel as [|fuel].
    + split; [|lia]. intros _. eapply while_fuel_spent. exact Hcond.
    + split; [lia|]. intros _. exists w'.
      rewrite (while_fuel_raise fuel _ _ tt n w w w' _ Hcond Hbody).
      split; [reflexivity|]. split; [lia|exact Hputs].
  - pose proof (Hbefore 0%nat ltac:(lia)) as H0.
    replace (now w + 1 + 3 * 0)%nat with (S (now w)) in H0 by lia.
    destruct (poll_continue w Hpoll H0) as (w1 & Hbody & Hpoll1 & Hnow1 & Hputs1).
    destruct fuel as [|fuel].
    + split; [|lia]. intros _. eapply while_fuel_spent. exact Hcond.
    + rewrite (while_fuel_step fuel _ _ tt tt n w w w1 Hcond Hbody).
      destruct (IH fuel w1 Hpoll1) as [Hblk Hraise].
      * intros i Hi. rewrite Hnow1.
        replace (now w + 3 + 1 + 3 * i)%nat with (now w + 1 + 3 * S i)%nat by lia.
        apply Hbefore. lia.
      * rewrite Hnow1.
        replace (now w + 3 + 1 + 3 * k)%nat with (now w + 1 + 3 * S k)%nat by lia. exact Hat.
      * split; intros Hf.
        -- apply Hblk. lia.
        -- destruct (Hraise ltac:(lia)) as (w' & Hw' & Hnow' & Hputs').
           exists w'. split; [exact Hw'|]. split; [lia|congruence].
Qed.

End Poll.

(** C6.  On an attached session polling a process variable that never
    reads as the target, with a timeout [T >= 0]: let [k] be the first turn
    of the loop at which the clock reads at least [T] past the start
    reading.  Before that turn is reached the call is still blocked and
    raises nothing; when it is reached the call raises [TimeoutError], whose
    message shows the attribute's name, the target and the timeout.  The
    start reading is taken after the initial sleep, at interaction
    [now w + 1], and turn [i] reads the clock at interaction
    [now w + 3 + 3 i]. *)
Theorem wait_pv_times_out_at_first_expiry (rt : Runtime) (name : string)
    (target timeout : pyval) (w : world) (pv : TxmPV.t) (e : string) (k : nat) :
  callbacks_ok w -> TXM.is_attached (session w) = true ->
  pvs w !! name = Some pv -> epics_name pv (session w) = inr e ->
  (forall m, exists v,
     coerce (TxmPV.dtype pv) (ca_get rt m e) = inr v /\ py_ne v target = true) ->
  py_le (VInt 0) timeout = inr true ->
  (forall i, (i < k)%nat ->
     py_ge (VFloat (clock rt (now w + 3 + 3 * i) - clock rt (S (now w)))%float) timeout
     = inr false) ->
  py_ge (VFloat (clock rt (now w + 3 + 3 * k) - clock rt (S (now w)))%float) timeout
  = inr true ->
  (forall n, (n <= k)%nat -> wait_pv rt name target timeout n w = Blocked)
  /\ (forall n, (k < n)%nat ->
        exists w',
          wait_pv rt name target timeout n w
          = Raise (TimeoutError ("Timed out '" +:+ name +:+ "' (" +:+ py_str rt target +:+
                                 ") after " +:+ py_str rt timeout +:+ "s")) w'
          /\ now w' = (now w + 4 + 3 * k)%nat /\ puts w' = puts w).
Proof.
  intros Hok Hatt Hpv He Hnever Hnonneg Hbefore Hat.
  assert (Hpoll : polling (session w) name e (TxmPV.dtype pv) w).
  { split; [reflexivity|]. split; [exact Hok|]. exists pv. repeat split; assumption. }
  pose proof (polling_set_now _ _ _ _ _ (S (S (now w))) (polling_slept rt _ _ _ _ _ Hpoll))
    as Hpoll0.
  destruct (slept_frame rt w) as (_ & _ & Hnow & Hputs & _).
  assert (Hloop : forall n,
    ((n <= k)%nat ->
       while_fuel n poll_cond (poll_body rt name target timeout (clock rt (S (now w)))) tt n
         (set_now (S (S (now w))) (slept rt w)) = Blocked)
    /\ ((k < n)%nat ->
         exists w',
           while_fuel n poll_cond (poll_body rt name target timeout (clock rt (S (now w)))) tt n
             (set_now (S (S (now w))) (slept rt w))
           = Raise (TimeoutError (timeout_message rt name target timeout)) w'
           /\ now w' = (S (S (now w)) + 2 + 3 * k)%nat
           /\ puts w' = puts (slept rt w))).
  { intros n.
    apply (poll_loop rt (session w) name e (TxmPV.dtype pv) target timeout
             (clock rt (S (now w))) n Hatt Hnever (nonneg_timeout_enforced timeout Hnonneg) k n
             (set_now (S (S (now w))) (slept rt w)) Hpoll0).
    - intros i Hi. cbn [now set_now].
      replace (S (S (now w)) + 1 + 3 * i)%nat with (now w + 3 + 3 * i)%nat by lia.
      apply Hbefore, Hi.
    - cbn [now set_now].
      replace (S (S (now w)) + 1 + 3 * k)%nat with (now w + 3 + 3 * k)%nat by lia. exact Hat. }
  assert (Hstart : forall n,
    wait_pv rt name target timeout n w =
    match while_fuel n poll_cond (poll_body rt name target timeout (clock rt (S (now w)))) tt n
            (set_now (S (S (now w))) (slept rt w)) with
    | Ret (inr v) w' => Ret v w'
    | Ret (inl _) w' => Ret VNone w'
    | Raise e0 w' => Raise e0 w'
    | Blocked => Blocked
    end).
  { intros n. rewrite wait_pv_unfold. unfold bind at 1. rewrite (time_sleep_ok rt _ n w Hok).
    unfold time_time, while_. run. rewrite Hnow.
    match goal with |- match ?x with _ => _ end = match ?y with _ => _ end =>
      change x with y; destruct y as [[?|?] ?|? ?|]; reflexivity end. }
  split; intros n Hn; rewrite Hstart; destruct (Hloop n) as [Hblk Hraise].
  - rewrite (Hblk Hn). reflexivity.
  - destruct (Hraise Hn) as (w' & -> & Hnow' & Hputs'). exists w'.
    split; [reflexivity|]. split; [lia|congruence].
Qed.

(** C6, a witness: [wait_pv('EnergyWait', 0, timeout=20)] on an attached
    session while the busy flag stays 1 and the clock advances one second
    per interaction.  The start reading is 1 s; turn [i] reads 3 + 3 i s,
    so the first turn with 20 s elapsed is the seventh, [k = 6]. *)
Lemma wait_pv_timeout_witness :
  let rt := beamline (VInt 1) 0 in
  let w := boot rt operator in
  (forall n, (n <= 6)%nat -> wait_pv rt "EnergyWait" (VInt 0) (VInt 20) n w = Blocked)
  /\ (forall n, (6 < n)%nat ->
        exists w',
          wait_pv rt "EnergyWait" (VInt 0) (VInt 20) n w
          = Raise (TimeoutError "Timed out 'EnergyWait' (0) after 20s") w'
          /\ now w' = 22%nat /\ puts w' = []).
Proof.
  intros rt w.
  apply (wait_pv_times_out_at_first_expiry rt "EnergyWait" (VInt 0) (VInt 20) w
           (pv_at w "EnergyWait") "ID32us:Busy" 6%nat).
  - constructor.
  - reflexivity.
  - vm_compute. reflexivity.
  - vm_compute. reflexivity.
  - intros m. exists (VInt 1). split; reflexivity.
  - reflexivity.
  - intros i Hi. do 6 (destruct i as [|i]; [vm_compute; reflexivity|]). lia.
  - vm_compute. reflexivity.
Defined.

(** ** Where the code departs from its documentation *)

(** C2.  On a session that is not attached, [wait_pv] sleeps once, reads the
    clock, skips its loop and falls off its end: it returns [None], which is
    not the [True] its docstring promises.  It does not read the attribute,
    writes nothing and raises nothing. *)
Theorem wait_pv_unattached_returns_None (rt : Runtime) (name : string)
    (target timeout : pyval) (n : nat) (w : world) :
  callbacks_ok w -> TXM.is_attached (session w) = false ->
  wait_pv rt name target timeout n w = Ret VNone (set_now (S (S (now w))) (slept rt w))
  /\ py_truthy VNone = false /\ py_eq VNone (VBool true) = false.
Proof.
  intros Hok Hatt. split; [|split; reflexivity].
  rewrite wait_pv_unfold. unfold bind at 1. rewrite (time_sleep_ok rt _ n w Hok).
  unfold time_time, while_. run.
  erewrite while_fuel_exit; [reflexivity|].
  unfold poll_cond. run. destruct (slept_frame rt w) as (_ & Hs & Hn & _).
  rewrite Hs, Hn, Hatt. reflexivity.
Qed.

(** C2, the failing input: [TXM(is_attached=False).wait_pv('EnergyWait', 0)]. *)
Lemma wait_pv_unattached_witness :
  let rt := beamline (VInt 0) 0 in
  let w := boot rt offline in
  wait_pv rt "EnergyWait" (VInt 0) DEFAULT_TIMEOUT 0%nat w
  = Ret VNone (set_now (S (S (now w))) (slept rt w))
  /\ py_truthy VNone = false /\ py_eq VNone (VBool true) = false.
Proof.
  intros rt w.
  apply (wait_pv_unattached_returns_None rt "EnergyWait" (VInt 0) DEFAULT_TIMEOUT 0%nat w).
  - constructor.
  - reflexivity.
Defined.

(** C3.  A write through a descriptor with the [wait] policy, on an attached
    session that may make it: the value goes to the transport with
    [wait=True], and then the call [self.complete_put()], which lacks the
    argument [txm], raises [TypeError].  The call does not complete
    normally, and nothing sets [put_complete] back to true. *)
Theorem blocking_write_raises_TypeError (rt : Runtime) (self : string) (val : pyval)
    (n : nat) (w : world) (pv : TxmPV.t) (e : string) :
  callbacks_ok w -> pvs w !! self = Some pv -> TXM.is_attached (session w) = true ->
  TxmPV.permit_required pv && negb (TXM.has_permit (session w)) = false ->
  epics_name pv (session w) = inr e -> TxmPV.wait pv = true ->
  exists w',
    __set__ rt self val n w = Raise TypeError w'
    /\ puts w' = (puts w ++ [{| put_pv := e; put_val := val; put_wait := true |}])%list
    /\ queue_of w' = (queue_of w ++ [self])%list.
Proof.
  intros Hok Hpv Hatt Hperm He Hwait. exists (delivered rt (issued self val e pv w)).
  split; [apply set_attached_blocking; assumption|].
  destruct (issued_queue rt self val e pv w) as (Hq & _).
  destruct (delivered_frame rt (issued self val e pv w)) as (_ & _ & _ & -> & _).
  split; [|exact Hq]. unfold issued. cbn [puts]. rewrite Hwait. reflexivity.
Qed.

(** C3, the failing input: [ShutterA_Open] declared with [wait=True], and
    [TXM(has_permit=True).ShutterA_Open = 1].  Afterwards [put_complete] is
    still false. *)
Lemma blocking_write_witness :
  let rt := beamline (VInt 0) 0 in
  let w := boot_blocking_shutter rt operator in
  (exists w',
     __set__ rt "ShutterA_Open" (VInt 1) 0%nat w = Raise TypeError w'
     /\ puts w' = (puts w ++ [{| put_pv := "32idb:rshtrA:Open"; put_val := VInt 1;
                                put_wait := true |}])%list
     /\ queue_of w' = (queue_of w ++ ["ShutterA_Open"])%list)
  /\ match __set__ rt "ShutterA_Open" (VInt 1) 0%nat w with
     | Raise _ w' => TxmPV.put_complete (pv_at w' "ShutterA_Open") = false
     | _ => False
     end.
Proof.
  intros rt w. split.
  - apply (blocking_write_raises_TypeError rt "ShutterA_Open" (VInt 1) 0%nat w
             (pv_at w "ShutterA_Open") "32idb:rshtrA:Open").
    + constructor.
    + vm_compute. reflexivity.
    + reflexivity.
    + reflexivity.
    + vm_compute. reflexivity.
    + vm_compute. reflexivity.
  - vm_compute. reflexivity.
Defined.

(** C4.  [TXM(has_permit=True).move_energy(8)] on a beamline at 8.6 keV with
    the detector at 500.  The class declares no descriptor [ZpLocation], so
    [self.ZpLocation = ZP_WD] only sets an attribute of the instance.  The
    queues [flush_pvs] reports are, in order: the two writes made before the
    first batch, the first batch with its two members (monochromator and
    gap energy), the empty queue at the opening of the second batch, and
    the second batch.  No zone-plate position is among the writes that
    reach the transport. *)
Theorem move_energy_first_batch_has_two_writes :
  let rt := beamline (VInt 0) 0 in
  let w := boot rt operator in
  TXM_pvs rt !! "ZpLocation" = None
  /\ match move_energy rt (VInt 8) (VBool true) (VFloat 0) 1%nat w with
     | Ret _ w' =>
         flushed w' = [["DCMmvt"; "CCD_Motor"]; ["DCMputEnergy"; "GAPputEnergy"]; [];
                       ["GAPputEnergy"]]
         /\ TXM.attrs (session w') !! "ZpLocation" = Some (VFloat 85.33318839405274)
         /\ map put_pv (puts w')
            = ["32ida:KohzuModeBO.VAL"; "WHAT GOES HERE!?"; "32ida:BraggEAO.VAL";
               "32id:ID32us_energy"; "32id:ID32us_energy"; "32ida:KohzuModeBO.VAL"]
     | _ => False
     end.
Proof. vm_compute. repeat split. Qed.

(** C5.  [wait_pv('EnergyWait', 0, timeout=-0.5)] on an attached session
    while the busy flag stays 1: the guard [timeout > -1] holds, the elapsed
    time is at least [-0.5], and the first turn of the loop raises
    [TimeoutError].  With [timeout=-1] the same call is still polling after
    a thousand turns. *)
Theorem wait_pv_negative_fraction_times_out :
  let rt := beamline (VInt 1) 0 in
  let w := boot rt operator in
  py_le (VInt 0) (VFloat (-0.5)) = inr false
  /\ match wait_pv rt "EnergyWait" (VInt 0) (VFloat (-0.5)) 1%nat w with
     | Raise e w' =>
         e = TimeoutError "Timed out 'EnergyWait' (0) after -0.5s" /\ now w' = 4%nat
     | _ => False
     end
  /\ wait_pv rt "EnergyWait" (VInt 0) (VInt (-1)) 1000%nat w = Blocked.
Proof. vm_compute. repeat split. Qed.

(** * Further properties *)

(** ** Waiting without a timeout *)

Section WaitForever.

Context (rt : Runtime) (txm : TXM.t) (name e : string) (dt : option (pyval -> res pyval)).
Context (target timeout : pyval) (start : float) (n : nat).
Hypothesis attached : TXM.is_attached txm = true.
Hypothesis not_enforced : py_gt timeout (VInt (-1)) = inr false.

(** A turn of the loop when no timeout is enforced and the read differs
    from the target: read, sleep, go on. *)
Lemma poll_skip (w : world) (v : pyval) :
  polling txm name e dt w ->
  coerce dt (ca_get rt (now w) e) = inr v -> py_ne v target = true ->
  exists w',
    poll_body rt name target timeout start tt n w = Ret (inl tt) w'
    /\ polling txm name e dt w' /\ now w' = (now w + 2)%nat /\ puts w' = puts w.
Proof.
  intros Hpoll Hv Hne.
  destruct (poll_read rt txm name e dt v n w Hpoll attached Hv)
    as (w1 & Hread & Hpoll1 & Hnow1 & Hputs1).
  unfold poll_body. unfold bind at 1. rewrite Hread, Hne. run. rewrite not_enforced. run.
  pose proof Hpoll1 as (_ & Hok1 & _).
  rewrite (time_sleep_ok rt 0.01 n w1 Hok1).
  eexists. split; [reflexivity|]. split; [apply polling_slept, Hpoll1|].
  destruct (slept_frame rt w1) as (_ & _ & Hn & Hp & _). rewrite Hn, Hp. split; [lia|congruence].
Qed.

(** The turn of the loop at which the read is the target. *)
Lemma poll_hit (w : world) (v : pyval) :
  polling txm name e dt w ->
  coerce dt (ca_get rt (now w) e) = inr v -> py_ne v target = false ->
  exists w',
    poll_body rt name target timeout start tt n w = Ret (inr (VBool true)) w'
    /\ now w' = S (now w) /\ puts w' = puts w.
Proof.
  intros Hpoll Hv Heq.
  destruct (poll_read rt txm name e dt v n w Hpoll attached Hv)
    as (w1 & Hread & Hpoll1 & Hnow1 & Hputs1).
  unfold poll_body. unfold bind at 1. rewrite Hread, Heq. run.
  eexists. split; [reflexivity|]. split; assumption.
Qed.

(** Without a timeout the loop returns at the first turn [k] whose read is
    the target, turn [i] reading at interaction [now w + 2 i]. *)
Lemma poll_until (k : nat) :
  forall (fuel : nat) (w : world),
    polling txm name e dt w ->
    (forall i, (i < k)%nat ->
       exists v, coerce dt (ca_get rt (now w + 2 * i) e) = inr v /\ py_ne v target = true) ->
    (exists v, coerce dt (ca_get rt (now w + 2 * k) e) = inr v /\ py_ne v target = false) ->
    ((fuel <= k)%nat ->
       while_fuel fuel poll_cond (poll_body rt name target timeout start) tt n w = Blocked)
    /\ ((k < fuel)%nat ->
         exists w',
           while_fuel fuel poll_cond (poll_body rt name target timeout start) tt n w
           = Ret (inr (VBool true)) w'
           /\ now w' = (now w + 1 + 2 * k)%nat /\ puts w' = puts w).
Proof.
  induction k as [|k IH]; intros fuel w Hpoll Hbefore Hat;
    pose proof (poll_cond_attached txm name e dt n w Hpoll attached) as Hcond.
  - destruct Hat as (v & Hv & Heq).
    replace (now w + 2 * 0)%nat with (now w) in Hv by lia.
    destruct (poll_hit w v Hpoll Hv Heq) as (w' & Hbody & Hnow & Hputs).
    destruct fuel as [|fuel].
    + split; [|lia]. intros _. eapply while_fuel_spent. exact Hcond.
    + split; [lia|]. intros _. exists w'.
      rewrite (while_fuel_return fuel _ _ tt _ n w w w' Hcond Hbody).
      split; [reflexivity|]. split; [lia|exact Hputs].
  - destruct (Hbefore 0%nat ltac:(lia)) as (v & Hv & Hne).
    replace (now w + 2 * 0)%nat with (now w) in Hv by lia.
    destruct (poll_skip w v Hpoll Hv Hne) as (w1 & Hbody & Hpoll1 & Hnow1 & Hputs1).
    destruct fuel as [|fuel].
    + split; [|lia]. intros _. eapply while_fuel_spent. exact Hcond.
    + rewrite (while_fuel_step fuel _ _ tt tt n w w w1 Hcond Hbody).
      destruct (IH fuel w1 Hpoll1) as [Hblk Hret].
      * intros i Hi. rewrite Hnow1.
        replace (now w + 2 + 2 * i)%nat with (now w + 2 * S i)%nat by lia.
        apply Hbefore. lia.
      * rewrite Hnow1.
        replace (now w + 2 + 2 * k)%nat with (now w + 2 * S k)%nat by lia. exact Hat.
      * split; intros Hf.
        -- apply Hblk. lia.
        -- destruct (Hret ltac:(lia)) as (w' & Hw' & Hnow' & Hputs').
           exists w'. split; [exact Hw'|]. split; [lia|congruence].
Qed.

(** Without a timeout, and with a read that never is the target, the loop
    outlasts every budget. *)
Lemma poll_forever (fuel : nat) :
  (forall m, exists v, coerce dt (ca_get rt m e) = inr v /\ py_ne v target = true) ->
  forall w, polling txm name e dt w ->
    while_fuel fuel poll_cond (poll_body rt name target timeout start) tt n w = Blocked.
Proof.
  intros Hnever. induction fuel as [|fuel IH]; intros w Hpoll;
    pose proof (poll_cond_attached txm name e dt n w Hpoll attached) as Hcond.
  - eapply while_fuel_spent. exact Hcond.
  - destruct (Hnever (now w)) as (v & Hv & Hne).
    destruct (poll_skip w v Hpoll Hv Hne) as (w' & Hbody & Hpoll' & _).
    rewrite (while_fuel_step fuel _ _ tt tt n w w w' Hcond Hbody). apply IH, Hpoll'.
Qed.

End WaitForever.

Lemma negative_integer_not_enforced (z : Z) :
  (z < 0)%Z -> py_gt (VInt z) (VInt (-1)) = inr false.
Proof.
  intros Hz. unfold py_gt, py_compare. cbn [as_num res_bind num_compare is_gt].
  destruct (z ?= -1)%Z eqn:Hc; try reflexivity.
  apply Z.compare_gt_iff in Hc. lia.
Qed.

(** What [wait_pv] comes to on an attached session: the initial sleep, the
    start reading, then the loop. *)
Lemma wait_pv_attached_start (rt : Runtime) (name : string) (target timeout : pyval)
    (n : nat) (w : world) :
  callbacks_ok w ->
  wait_pv rt name target timeout n w =
  match while_fuel n poll_cond (poll_body rt name target timeout (clock rt (S (now w)))) tt n
          (set_now (S (S (now w))) (slept rt w)) with
  | Ret (inr v) w' => Ret v w'
  | Ret (inl _) w' => Ret VNone w'
  | Raise e0 w' => Raise e0 w'
  | Blocked => Blocked
  end.
Proof.
  intros Hok. rewrite wait_pv_unfold. unfold bind at 1. rewrite (time_sleep_ok rt _ n w Hok).
  unfold time_time, while_. run. destruct (slept_frame rt w) as (_ & _ & Hnow & _). rewrite Hnow.
  match goal with |- match ?x with _ => _ end = match ?y with _ => _ end =>
    change x with y; destruct y as [[?|?] ?|? ?|]; reflexivity end.
Qed.

Lemma polling_start (rt : Runtime) (name e : string) (w : world) (pv : TxmPV.t) :
  callbacks_ok w -> pvs w !! name = Some pv -> epics_name pv (session w) = inr e ->
  polling (session w) name e (TxmPV.dtype pv) (set_now (S (S (now w))) (slept rt w)).
Proof.
  intros Hok Hpv He. apply polling_set_now, polling_slept.
  split; [reflexivity|]. split; [exact Hok|]. exists pv. repeat split; assumption.
Qed.

(** X1.  With a negative integer timeout, [wait_pv] on an attached session
    whose process variable never reads as the target is still polling after
    any number of turns: it never raises [TimeoutError] and never returns. *)
Theorem wait_pv_negative_integer_waits_forever (rt : Runtime) (name : string)
    (target : pyval) (z : Z) (w : world) (pv : TxmPV.t) (e : string) :
  callbacks_ok w -> TXM.is_attached (session w) = true ->
  pvs w !! name = Some pv -> epics_name pv (session w) = inr e ->
  (forall m, exists v,
     coerce (TxmPV.dtype pv) (ca_get rt m e) = inr v /\ py_ne v target = true) ->
  (z < 0)%Z ->
  forall n, wait_pv rt name target (VInt z) n w = Blocked.
Proof.
  intros Hok Hatt Hpv He Hnever Hz n.
  rewrite (wait_pv_attached_start rt name target (VInt z) n w Hok).
  rewrite (poll_forever rt (session w) name e (TxmPV.dtype pv) target (VInt z)
             (clock rt (S (now w))) n Hatt (negative_integer_not_enforced z Hz) n Hnever _
             (polling_start rt name e w pv Hok Hpv He)).
  reflexivity.
Qed.

(** X1, a witness: [wait_pv('EnergyWait', 0, timeout=-1)] while the busy
    flag stays 1. *)
Lemma wait_pv_negative_integer_witness :
  let rt := beamline (VInt 1) 0 in
  let w := boot rt operator in
  wait_pv rt "EnergyWait" (VInt 0) (VInt (-1)) 100%nat w = Blocked.
Proof.
  intros rt w.
  refine (wait_pv_negative_integer_waits_forever rt "EnergyWait" (VInt 0) (-1) w
            (pv_at w "EnergyWait") "ID32us:Busy" _ _ _ _ _ _ 100%nat).
  - constructor.
  - reflexivity.
  - vm_compute. reflexivity.
  - vm_compute. reflexivity.
  - intros m. exists (VInt 1). split; reflexivity.
  - lia.
Defined.

(** X2.  Without a timeout (a negative integer), [wait_pv] on an attached
    session returns [True] at the first poll that reads the target: let [k]
    be the first turn whose read is the target, turn [i] reading at
    interaction [now w + 2 + 2 i].  Before that turn is reached the call is
    still polling; when it is reached the call returns [True], having
    written nothing. *)
Theorem wait_pv_without_timeout_returns_at_first_match (rt : Runtime) (name : string)
    (target : pyval) (z : Z) (w : world) (pv : TxmPV.t) (e : string) (k : nat) :
  callbacks_ok w -> TXM.is_attached (session w) = true ->
  pvs w !! name = Some pv -> epics_name pv (session w) = inr e -> (z < 0)%Z ->
  (forall i, (i < k)%nat ->
     exists v, coerce (TxmPV.dtype pv) (ca_get rt (now w + 2 + 2 * i) e) = inr v
               /\ py_ne v target = true) ->
  (exists v, coerce (TxmPV.dtype pv) (ca_get rt (now w + 2 + 2 * k) e) = inr v
             /\ py_ne v target = false) ->
  (forall n, (n <= k)%nat -> wait_pv rt name target (VInt z) n w = Blocked)
  /\ (forall n, (k < n)%nat ->
        exists w',
          wait_pv rt name target (VInt z) n w = Ret (VBool true) w'
          /\ now w' = (now w + 3 + 2 * k)%nat /\ puts w' = puts w).
Proof.
  intros Hok Hatt Hpv He Hz Hbefore Hat.
  destruct (slept_frame rt w) as (_ & _ & _ & Hputs & _).
  assert (Hloop : forall n,
    ((n <= k)%nat ->
       while_fuel n poll_cond (poll_body rt name target (VInt z) (clock rt (S (now w)))) tt n
         (set_now (S (S (now w))) (slept rt w)) = Blocked)
    /\ ((k < n)%nat ->
         exists w',
           while_fuel n poll_cond (poll_body rt name target (VInt z) (clock rt (S (now w)))) tt n
             (set_now (S (S (now w))) (slept rt w))
           = Ret (inr (VBool true)) w'
           /\ now w' = (S (S (now w)) + 1 + 2 * k)%nat
           /\ puts w' = puts (slept rt w))).
  { intros n.
    apply (poll_until rt (session w) name e (TxmPV.dtype pv) target (VInt z)
             (clock rt (S (now w))) n Hatt (negative_integer_not_enforced z Hz) k n
             (set_now (S (S (now w))) (slept rt w)) (polling_start rt name e w pv Hok Hpv He)).
    - intros i Hi. cbn [now set_now].
      replace (S (S (now w)) + 2 * i)%nat with (now w + 2 + 2 * i)%nat by lia.
      apply Hbefore, Hi.
    - cbn [now set_now].
      replace (S (S (now w)) + 2 * k)%nat with (now w + 2 + 2 * k)%nat by lia. exact Hat. }
  split; intros n Hn; rewrite (wait_pv_attached_start rt name target (VInt z) n w Hok);
    destruct (Hloop n) as [Hblk Hret].
  - rewrite (Hblk Hn). reflexivity.
  - destruct (Hret Hn) as (w' & -> & Hnow' & Hputs'). exists w'.
    split; [reflexivity|]. split; [lia|congruence].
Qed.

(** X2, a witness: [wait_pv('EnergyWait', 0, timeout=-1)] while the busy
    flag reads 1 until interaction 5: the reads at interactions 2 and 4 give
    1, the read at 6 gives 0, so [k = 2]. *)
Lemma wait_pv_without_timeout_witness :
  let rt := settling 5 0 in
  let w := boot rt operator in
  (forall n, (n <= 2)%nat -> wait_pv rt "EnergyWait" (VInt 0) (VInt (-1)) n w = Blocked)
  /\ (forall n, (2 < n)%nat ->
        exists w',
          wait_pv rt "EnergyWait" (VInt 0) (VInt (-1)) n w = Ret (VBool true) w'
          /\ now w' = 7%nat /\ puts w' = []).
Proof.
  intros rt w.
  apply (wait_pv_without_timeout_returns_at_first_match rt "EnergyWait" (VInt 0) (-1) w
           (pv_at w "EnergyWait") "ID32us:Busy" 2%nat).
  - constructor.
  - reflexivity.
  - vm_compute. reflexivity.
  - vm_compute. reflexivity.
  - lia.
  - intros i Hi. exists (VInt 1).
    destruct i as [|[|i]]; [split; reflexivity|split; reflexivity|lia].
  - exists (VInt 0). split; reflexivity.
Defined.

(** ** Waiting with a timeout, for a value that arrives *)

Section WaitUntil.

Context (rt : Runtime) (txm : TXM.t) (name e : string) (dt : option (pyval -> res pyval)).
Context (target timeout : pyval) (start : float) (n : nat).
Hypothesis attached : TXM.is_attached txm = true.
Hypothesis enforced : py_gt timeout (VInt (-1)) = inr true.

(** A turn of the loop whose read differs from the target and whose clock
    reading is short of the timeout: read, look at the clock, sleep, go on. *)
Lemma poll_short (w : world) (v : pyval) :
  polling txm name e dt w ->
  coerce dt (ca_get rt (now w) e) = inr v -> py_ne v target = true ->
  py_ge (VFloat (clock rt (S (now w)) - start)%float) timeout = inr false ->
  exists w',
    poll_body rt name target timeout start tt n w = Ret (inl tt) w'
    /\ polling txm name e dt w' /\ now w' = (now w + 3)%nat /\ puts w' = puts w.
Proof.
  intros Hpoll Hv Hne Hshort.
  destruct (poll_read rt txm name e dt v n w Hpoll attached Hv)
    as (w1 & Hread & Hpoll1 & Hnow1 & Hputs1).
  unfold poll_body. unfold bind at 1. rewrite Hread, Hne.
  unfold time_time. run. rewrite enforced. run. rewrite Hnow1, Hshort. run.
  pose proof (polling_set_now txm name e dt w1 (S (S (now w))) Hpoll1) as Hpoll2.
  pose proof Hpoll2 as (_ & Hok2 & _).
  pose proof (time_sleep_ok rt 0.01 n _ Hok2) as Hsleep. unfold set_now in Hsleep, Hpoll2.
  rewrite Hsleep.
  eexists. split; [reflexivity|]. split; [apply polling_slept; exact Hpoll2|].
  match goal with |- context [slept rt ?w2] => destruct (slept_frame rt w2) as (_&_&Hn&Hp&_) end.
  rewrite Hn, Hp. cbn [now puts]. split; [lia|exact Hputs1].
Qed.

(** With a timeout the loop returns at the first turn [k] whose read is the
    target, if the clock readings of the turns before it are short of the
    timeout.  Turn [i] reads the attribute at interaction [now w + 3 i] and
    the clock at the next one. *)
Lemma poll_until_in_time (k : nat) :
  forall (fuel : nat) (w : world),
    polling txm name e dt w ->
    (forall i, (i < k)%nat ->
       (exists v, coerce dt (ca_get rt (now w + 3 * i) e) = inr v /\ py_ne v target = true)
       /\ py_ge (VFloat (clock rt (now w + 1 + 3 * i) - start)%float) timeout = inr false) ->
    (exists v, coerce dt (ca_get rt (now w + 3 * k) e) = inr v /\ py_ne v target = false) ->
    ((fuel <= k)%nat ->
       while_fuel fuel poll_cond (poll_body rt name target timeout start) tt n w = Blocked)
    /\ ((k < fuel)%nat ->
         exists w',
           while_fuel fuel poll_cond (poll_body rt name target timeout start) tt n w
           = Ret (inr (VBool true)) w'
           /\ now w' = (now w + 1 + 3 * k)%nat /\ puts w' = puts w).
Proof.
  induction k as [|k IH]; intros fuel w Hpoll Hbefore Hat;
    pose proof (poll_cond_attached txm name e dt n w Hpoll attached) as Hcond.
  - destruct Hat as (v & Hv & Heq).
    replace (now w + 3 * 0)%nat with (now w) in Hv by lia.
    destruct (poll_hit rt txm name e dt target timeout start n attached w v Hpoll Hv Heq)
      as (w' & Hbody & Hnow & Hputs).
    destruct fuel as [|fuel].
    + split; [|lia]. intros _. eapply while_fuel_spent. exact Hcond.
    + split; [lia|]. intros _. exists w'.
      rewrite (while_fuel_return fuel _ _ tt _ n w w w' Hcond Hbody).
      split; [reflexivity|]. split; [lia|exact Hputs].
  - destruct (Hbefore 0%nat ltac:(lia)) as ((v & Hv & Hne) & Hshort).
    replace (now w + 3 * 0)%nat with (now w) in Hv by lia.
    replace (now w + 1 + 3 * 0)%nat with (S (now w)) in Hshort by lia.
    destruct (poll_short w v Hpoll Hv Hne Hshort) as (w1 & Hbody & Hpoll1 & Hnow1 & Hputs1).
    destruct fuel as [|fuel].
    + split; [|lia]. intros _. eapply while_fuel_spent. exact Hcond.
    + rewrite (while_fuel_step fuel _ _ tt tt n w w w1 Hcond Hbody).
      destruct (IH fuel w1 Hpoll1) as [Hblk Hret].
      * intros i Hi. rewrite Hnow1.
        replace (now w + 3 + 3 * i)%nat with (now w + 3 * S i)%nat by lia.
        replace (now w + 3 * S i + 1)%nat with (now w + 1 + 3 * S i)%nat by lia.
        replace (now w + 3 + 1 + 3 * i)%nat with (now w + 1 + 3 * S i)%nat by lia.
        apply Hbefore. lia.
      * rewrite Hnow1.
        replace (now w + 3 + 3 * k)%nat with (now w + 3 * S k)%nat by lia. exact Hat.
      * split; intros Hf.
        -- apply Hblk. lia.
        -- destruct (Hret ltac:(lia)) as (w' & Hw' & Hnow' & Hputs').
           exists w'. split; [exact Hw'|]. split; [lia|congruence].
Qed.

End WaitUntil.

(** [wait_pv] with a timeout, for a value that arrives in time. *)
Lemma wait_pv_in_time (rt : Runtime) (name : string)
    (target timeout : pyval) (w : world) (pv : TxmPV.t) (e : string) (k : nat) :
  callbacks_ok w -> TXM.is_attached (session w) = true ->
  pvs w !! name = Some pv -> epics_name pv (session w) = inr e ->
  py_le (VInt 0) timeout = inr true ->
  (forall i, (i < k)%nat ->
     (exists v, coerce (TxmPV.dtype pv) (ca_get rt (now w + 2 + 3 * i) e) = inr v
                /\ py_ne v target = true)
     /\ py_ge (VFloat (clock rt (now w + 3 + 3 * i) - clock rt (S (now w)))%float) timeout
        = inr false) ->
  (exists v, coerce (TxmPV.dtype pv) (ca_get rt (now w + 2 + 3 * k) e) = inr v
             /\ py_ne v target = false) ->
  (forall n, (n <= k)%nat -> wait_pv rt name target timeout n w = Blocked)
  /\ (forall n, (k < n)%nat ->
        exists w',
          wait_pv rt name target timeout n w = Ret (VBool true) w'
          /\ now w' = (now w + 3 + 3 * k)%nat /\ puts w' = puts w).
Proof.
  intros Hok Hatt Hpv He Hnonneg Hbefore Hat.
  destruct (slept_frame rt w) as (_ & _ & _ & Hputs & _).
  assert (Hloop : forall n,
    ((n <= k)%nat ->
       while_fuel n poll_cond (poll_body rt name target timeout (clock rt (S (now w)))) tt n
         (set_now (S (S (now w))) (slept rt w)) = Blocked)
    /\ ((k < n)%nat ->
         exists w',
           while_fuel n poll_cond (poll_body rt name target timeout (clock rt (S (now w)))) tt n
             (set_now (S (S (now w))) (slept rt w))
           = Ret (inr (VBool true)) w'
           /\ now w' = (S (S (now w)) + 1 + 3 * k)%nat
           /\ puts w' = puts (slept rt w))).
  { intros n.
    apply (poll_until_in_time rt (session w) name e (TxmPV.dtype pv) target timeout
             (clock rt (S (now w))) n Hatt (nonneg_timeout_enforced timeout Hnonneg) k n
             (set_now (S (S (now w))) (slept rt w)) (polling_start rt name e w pv Hok Hpv He)).
    - intros i Hi. cbn [now set_now].
      replace (S (S (now w)) + 3 * i)%nat with (now w + 2 + 3 * i)%nat by lia.
      replace (S (S (now w)) + 1 + 3 * i)%nat with (now w + 3 + 3 * i)%nat by lia.
      apply Hbefore, Hi.
    - cbn [now set_now].
      replace (S (S (now w)) + 3 * k)%nat with (now w + 2 + 3 * k)%nat by lia. exact Hat. }
  split; intros n Hn; rewrite (wait_pv_attached_start rt name target timeout n w Hok);
    destruct (Hloop n) as [Hblk Hret].
  - rewrite (Hblk Hn). reflexivity.
  - destruct (Hret Hn) as (w' & -> & Hnow' & Hputs'). exists w'.
    split; [reflexivity|]. split; [lia|congruence].
Qed.

(** X3.  With a timeout [T >= 0], [wait_pv] on an attached session returns
    [True] at the first poll that reads the target, provided the clock has
    not reached [T] past the start reading at any earlier poll: let [k] be
    the first turn whose read is the target, turn [i] reading the attribute
    at interaction [now w + 2 + 3 i] and the clock at the next one.  Before
    that turn is reached the call is still polling; when it is reached the
    call returns [True] without a last look at the clock, having written
    nothing. *)
Theorem wait_pv_returns_True_in_time (rt : Runtime) (name : string)
    (target timeout : pyval) (w : world) (pv : TxmPV.t) (e : string) (k : nat) :
  callbacks_ok w -> TXM.is_attached (session w) = true ->
  pvs w !! name = Some pv -> epics_name pv (session w) = inr e ->
  py_le (VInt 0) timeout = inr true ->
  (forall i, (i < k)%nat ->
     (exists v, coerce (TxmPV.dtype pv) (ca_get rt (now w + 2 + 3 * i) e) = inr v
                /\ py_ne v target = true)
     /\ py_ge (VFloat (clock rt (now w + 3 + 3 * i) - clock rt (S (now w)))%float) timeout
        = inr false) ->
  (exists v, coerce (TxmPV.dtype pv) (ca_get rt (now w + 2 + 3 * k) e) = inr v
             /\ py_ne v target = false) ->
  (forall n, (n <= k)%nat -> wait_pv rt name target timeout n w = Blocked)
  /\ (forall n, (k < n)%nat ->
        exists w',
          wait_pv rt name target timeout n w = Ret (VBool true) w'
          /\ now w' = (now w + 3 + 3 * k)%nat /\ puts w' = puts w).
Proof. apply wait_pv_in_time. Qed.

(** X3, a witness: [wait_pv('EnergyWait', 0, timeout=20)] while the busy
    flag reads 1 until interaction 7 and the clock advances one second per
    interaction: the reads at interactions 2 and 5 give 1, with 2 s and 5 s
    elapsed, and the read at 8 gives 0, so [k = 2]. *)
Lemma wait_pv_returns_True_witness :
  let rt := settling 7 0 in
  let w := boot rt operator in
  (forall n, (n <= 2)%nat -> wait_pv rt "EnergyWait" (VInt 0) (VInt 20) n w = Blocked)
  /\ (forall n, (2 < n)%nat ->
        exists w',
          wait_pv rt "EnergyWait" (VInt 0) (VInt 20) n w = Ret (VBool true) w'
          /\ now w' = 9%nat /\ puts w' = []).
Proof.
  intros rt w.
  apply (wait_pv_returns_True_in_time rt "EnergyWait" (VInt 0) (VInt 20) w
           (pv_at w "EnergyWait") "ID32us:Busy" 2%nat).
  - constructor.
  - reflexivity.
  - vm_compute. reflexivity.
  - vm_compute. reflexivity.
  - reflexivity.
  - intros i Hi.
    destruct i as [|[|i]]; [| |lia]; (split; [exists (VInt 1); split; reflexivity|]);
      vm_compute; reflexivity.
  - exists (VInt 0). split; reflexivity.
Defined.

(** ** The permit guard of [move_energy] *)

(** X4.  Without a permit [move_energy] raises [PermitError] before it does
    anything else: whatever the energy (in range or not) and whether or not
    the session is attached, the store is left as it was. *)
Theorem move_energy_requires_permit (rt : Runtime) (energy constant_mag gap_offset : pyval)
    (n : nat) (w : world) :
  TXM.has_permit (session w) = false ->
  move_energy rt energy constant_mag gap_offset n w = Raise PermitError w.
Proof.
  intros Hperm. unfold move_energy, permit_required. unfold bind at 1. unfold gets.
  rewrite Hperm. reflexivity.
Qed.

(** X4, a witness: [TXM().move_energy(12)], an energy that is also out of
    range. *)
Lemma move_energy_requires_permit_witness :
  let rt := beamline (VInt 0) 0 in
  move_energy rt (VInt 12) (VBool true) (VFloat 0) 0%nat (boot rt visitor)
  = Raise PermitError (boot rt visitor).
Proof.
  intros rt.
  apply (move_energy_requires_permit rt (VInt 12) (VBool true) (VFloat 0) 0%nat
           (boot rt visitor)).
  reflexivity.
Defined.

(** ** The names of the declared process variables *)

Lemma format_brace_free (s p : string) :
  brace_free s = true -> format_ioc_prefix_go s None p = inr s.
Proof.
  induction s as [|c rest IH]; [reflexivity|]. cbn [brace_free format_ioc_prefix_go].
  intros H. apply andb_prop in H as [H Hrest]. apply andb_prop in H as [Ho Hc].
  apply negb_true_iff in Ho, Hc. rewrite Ho, Hc, (IH Hrest). reflexivity.
Qed.

Lemma strip_prefix_spec (p s rest : string) :
  strip_prefix p s = Some rest -> s = p +:+ rest.
Proof.
  revert s. induction p as [|a p IH]; intros s; cbn [strip_prefix].
  - intros H. injection H as ->. reflexivity.
  - destruct s as [|b s]; [discriminate|].
    destruct (Ascii.eqb a b) eqn:Hab; [|discriminate].
    apply Ascii.eqb_eq in Hab. subst b. intros H. rewrite (IH s H). reflexivity.
Qed.

Lemma format_plain_or_prefixed (template prefix : string) :
  plain_or_prefixed template = true ->
  format_ioc_prefix template prefix = inr (resolved template prefix).
Proof.
  unfold plain_or_prefixed, resolved, format_ioc_prefix.
  destruct (strip_prefix "{ioc_prefix}" template) as [rest|] eqn:Hs.
  - intros Hfree. apply strip_prefix_spec in Hs. subst template.
    let t := eval cbv beta iota delta [String.append] in ("{ioc_prefix}" +:+ rest) in
    change ("{ioc_prefix}" +:+ rest) with t.
    cbn. rewrite (format_brace_free rest prefix Hfree). reflexivity.
  - apply format_brace_free.
Qed.

Lemma exec_class_body_lookup (body : list (string * res TxmPV.t)) :
  forall (acc m : gmap string TxmPV.t) (name : string) (pv : TxmPV.t),
    exec_class_body body acc = inr m -> m !! name = Some pv ->
    acc !! name = Some pv \/ In (name, inr pv) body.
Proof.
  induction body as [|[name0 made] body IH]; intros acc m name pv Hexec Hm;
    cbn [exec_class_body] in Hexec.
  - injection Hexec as ->. left. exact Hm.
  - destruct made as [err|pv0]; [discriminate Hexec|]. cbn [res_bind] in Hexec.
    destruct (IH _ _ _ _ Hexec Hm) as [Hacc|Hin]; [|right; right; exact Hin].
    destruct (decide (name0 = name)) as [->|Hne].
    + rewrite lookup_insert_eq in Hacc. injection Hacc as ->. right. left. reflexivity.
    + rewrite lookup_insert_ne in Hacc by exact Hne. left. exact Hacc.
Qed.

(** X6.  Every process variable the class declares has a name for every
    session: whatever the session's prefix, formatting the descriptor's
    template succeeds, and gives the prefix followed by the rest of the
    template where the template begins with [{ioc_prefix}], the template
    itself otherwise.  No declared descriptor can fail to bind with
    [KeyError] or [ValueError]. *)
Theorem declared_names_resolve (rt : Runtime) (name : string) (pv : TxmPV.t)
    (prefix : string) :
  TXM_pvs rt !! name = Some pv ->
  format_ioc_prefix (TxmPV._namestring pv) prefix
  = inr (resolved (TxmPV._namestring pv) prefix).
Proof.
  intros Hpv. apply format_plain_or_prefixed.
  assert (Hall : forallb (fun entry : string * res TxmPV.t =>
                    match snd entry with
                    | inr d => plain_or_prefixed (TxmPV._namestring d)
                    | inl _ => true
                    end) (TXM_class_body rt) = true) by (vm_compute; reflexivity).
  rewrite forallb_forall in Hall.
  unfold TXM_pvs in Hpv.
  destruct (exec_class_body (TXM_class_body rt) ∅) as [err|m] eqn:Hexec;
    [rewrite lookup_empty in Hpv; discriminate Hpv|].
  destruct (exec_class_body_lookup _ _ _ _ _ Hexec Hpv) as [Hacc|Hin];
    [rewrite lookup_empty in Hacc; discriminate Hacc|].
  exact (Hall _ Hin).
Qed.

(** X6, a witness: [Cam1_Acquire] under the prefix ["32idcPG3:"]. *)
Lemma declared_names_witness :
  let rt := beamline (VInt 0) 0 in
  format_ioc_prefix (TxmPV._namestring (pv_at (boot rt operator) "Cam1_Acquire")) "32idcPG3:"
  = inr "32idcPG3:cam1:Acquire".
Proof.
  intros rt.
  apply (declared_names_resolve rt "Cam1_Acquire" (pv_at (boot rt operator) "Cam1_Acquire")
           "32idcPG3:").
  vm_compute. reflexivity.
Defined.

(** ** The cached [EpicsPV] object *)

Lemma epics_name_binding_ok (pv : TxmPV.t) (txm : TXM.t) :
  binding_ok pv ->
  epics_name pv txm = format_ioc_prefix (TxmPV._namestring pv) (TXM.ioc_prefix txm).
Proof.
  unfold binding_ok, epics_name. destruct (TxmPV._epicsPV pv) as [e|]; [|reflexivity].
  intros (p & -> & Hf). destruct (String.eqb p (TXM.ioc_prefix txm)) eqn:Heq; [|reflexivity].
  apply String.eqb_eq in Heq. subst p. symmetry. exact Hf.
Qed.

Lemma binding_ok_rebind (txm : TXM.t) (e : string) (pv : TxmPV.t) :
  format_ioc_prefix (TxmPV._namestring pv) (TXM.ioc_prefix txm) = inr e ->
  binding_ok (rebind txm e pv).
Proof. intros Hf. unfold binding_ok, rebind. cbn. eexists. split; [reflexivity|exact Hf]. Qed.

(** X5.  [get_epics_PV] never serves a name made for another prefix.  Take
    a descriptor whose template has one of the two shapes the class uses (a
    plain name, or [{ioc_prefix}] followed by text without braces) and whose
    cached [EpicsPV] object, if any, was made for the prefix the descriptor
    remembers, as is the case after [__init__], which caches none.  Then
    the call returns the name the template stands for under the prefix the
    session has now, whatever prefix the cache was made for, and the cache
    it leaves is again consistent, so the same holds of the next call, also
    for a session with another prefix. *)
Theorem get_epics_PV_serves_current_prefix (self : string) (txm : TXM.t) (n : nat)
    (w : world) (pv : TxmPV.t) :
  pvs w !! self = Some pv -> plain_or_prefixed (TxmPV._namestring pv) = true ->
  binding_ok pv ->
  exists w' pv',
    get_epics_PV self txm n w
    = Ret (resolved (TxmPV._namestring pv) (TXM.ioc_prefix txm)) w'
    /\ pvs w' !! self = Some pv'
    /\ TxmPV._namestring pv' = TxmPV._namestring pv /\ binding_ok pv'
    /\ TxmPV._epicsPV pv' = Some (resolved (TxmPV._namestring pv) (TXM.ioc_prefix txm))
    /\ TxmPV.ioc_prefix pv' = Some (TXM.ioc_prefix txm).
Proof.
  intros Hpv Hshape Hok.
  pose proof (format_plain_or_prefixed _ (TXM.ioc_prefix txm) Hshape) as Hf.
  pose proof (epics_name_binding_ok pv txm Hok) as Hname. rewrite Hf in Hname.
  exists (set_pvs (<[self := rebind txm (resolved (TxmPV._namestring pv) (TXM.ioc_prefix txm))
                              pv]> (pvs w)) w),
    (rebind txm (resolved (TxmPV._namestring pv) (TXM.ioc_prefix txm)) pv).
  split; [apply get_epics_PV_ok; assumption|].
  split; [cbn; apply lookup_insert_eq|].
  split; [reflexivity|]. split; [apply binding_ok_rebind, Hf|]. split; reflexivity.
Qed.

(** X5, a witness: [Cam1_Acquire] bound for the prefix ["32idcPG3:"] is
    asked for by a session whose prefix is ["sim:"]. *)
Lemma get_epics_PV_witness :
  let old := TxmPV.set_binding "32idcPG3:" "32idcPG3:cam1:Acquire"
               (TxmPV.mk "{ioc_prefix}cam1:Acquire" VNone None false false None None true None) in
  let txm := TXM_init None None (Some "sim:") None None None None in
  let w := mkWorld {["Cam1_Acquire" := old]} [] txm 0 [] [] [] [] in
  exists w' pv',
    get_epics_PV "Cam1_Acquire" txm 0%nat w = Ret "sim:cam1:Acquire" w'
    /\ pvs w' !! "Cam1_Acquire" = Some pv'
    /\ TxmPV._namestring pv' = "{ioc_prefix}cam1:Acquire" /\ binding_ok pv'
    /\ TxmPV._epicsPV pv' = Some "sim:cam1:Acquire" /\ TxmPV.ioc_prefix pv' = Some "sim:".
Proof.
  intros old txm w.
  apply (get_epics_PV_serves_current_prefix "Cam1_Acquire" txm 0%nat w old).
  - reflexivity.
  - reflexivity.
  - exists "32idcPG3:". split; reflexivity.
Defined.

(** ** Leaving a batch *)

(** A sleep of the session's thread always comes back. *)
Lemma run_callbacks_returns (rt : Runtime) (cbs : list callback) (n : nat) (w : world) :
  exists w', run_callbacks rt cbs n w = Ret tt w'.
Proof.
  revert w. induction cbs as [|cb cbs IH]; intros w; cbn [run_callbacks].
  - eexists. reflexivity.
  - unfold bind, run_callback.
    destruct (complete_put rt (cb_self cb) [cb_data cb] n w) as [[] w1|err w1|]; apply IH.
Qed.

Lemma time_sleep_returns (rt : Runtime) (seconds : float) (n : nat) (w : world) :
  exists w', time_sleep rt seconds n w = Ret tt w'.
Proof. unfold time_sleep, deliver. run. apply run_callbacks_returns. Qed.

(** The loop of [flush_pvs] raises nothing, and when it ends every queued
    descriptor reports completion. *)
Lemma flush_loop_ends (cond : unit -> M bool) (body : unit -> M (unit + Empty_set))
    (n : nat) :
  (forall w, cond tt n w = Ret (negb (all_put_complete w)) w) ->
  (forall w, exists w', body tt n w = Ret (inl tt) w' /\ queue_same w w') ->
  forall fuel w,
    match while_fuel fuel cond body tt n w with
    | Ret _ w' => all_put_complete w' = true /\ queue_same w w'
    | Raise _ _ => False
    | Blocked => True
    end.
Proof.
  intros Hcond Hbody. induction fuel as [|fuel IH]; intros w; cbn [while_fuel];
    rewrite Hcond; destruct (all_put_complete w) eqn:Hdone; cbn [negb];
    try (split; [exact Hdone|apply queue_same_refl]); try exact I.
  destruct (Hbody w) as (w1 & -> & Hsame). specialize (IH w1).
  destruct (while_fuel fuel cond body tt n w1) as [r w2|err w2|]; [|exact IH|exact I].
  destruct IH as [Hdone' Hsame']. split; [exact Hdone'|].
  eapply queue_same_trans; eassumption.
Qed.

Lemma queue_of_same (w w' : world) : queue_same w w' -> queue_of w' = queue_of w.
Proof. intros [Hs Hc]. unfold queue_of. rewrite Hs, Hc. reflexivity. Qed.

(** What [flush_pvs] has done when it returns, and that it raises nothing. *)
Lemma flush_pvs_ends (rt : Runtime) (n : nat) (w : world) :
  match flush_pvs rt n w with
  | Ret _ w' =>
      (forall self, In self (queue_of w) -> TxmPV.put_complete (pv_at w' self) = true)
      /\ queue_of w' = [] /\ TXM.pv_queue (session w') = Some []
      /\ class_pv_queue w' = class_pv_queue w
  | Raise _ _ => False
  | Blocked => True
  end.
Proof.
  unfold flush_pvs, while_. unfold bind at 1.
  assert (Hloop :
    match while_fuel n (fun _ : unit => done <- gets all_put_complete ;; ret (negb done))
            (fun _ : unit => time_sleep rt 0.01 ;; ret (inl tt) : M (unit + Empty_set)) tt n w
    with
    | Ret _ w' => all_put_complete w' = true /\ queue_same w w'
    | Raise _ _ => False
    | Blocked => True
    end).
  { apply flush_loop_ends.
    - intros w0. reflexivity.
    - intros w0. pose proof (keeps_same_time_sleep rt 0.01 n w0) as Hsame.
      destruct (time_sleep_returns rt 0.01 n w0) as [w1 Hsleep]. exists w1.
      unfold bind. rewrite Hsleep in Hsame |- *. split; [reflexivity|exact Hsame]. }
  match type of Hloop with match ?x with _ => _ end =>
    destruct x as [r w1|err w1|]; [|exact Hloop|exact I] end.
  destruct Hloop as [Hdone Hsame]. run.
  split; [|split; [reflexivity|split; [reflexivity|apply Hsame]]].
  intros self Hin. rewrite <- (queue_of_same _ _ Hsame) in Hin.
  exact (all_put_complete_members _ _ Hdone Hin).
Qed.

(** The two ways a [with self.wait_pvs():] statement can end. *)
Lemma wait_pvs_ends (rt : Runtime) (A : Type) (body : M A) (n : nat) (w : world) :
  (forall r w',
     wait_pvs rt body n w = Ret r w' ->
     exists w1 w2,
       wait_pvs_enter rt n w = Ret tt w1 /\ queue_of w1 = []
       /\ body n w1 = Ret r w2
       /\ (forall self, In self (queue_of w2) -> TxmPV.put_complete (pv_at w' self) = true)
       /\ queue_of w' = [])
  /\ (forall err w',
        wait_pvs rt body n w = Raise err w' ->
        exists w1,
          wait_pvs_enter rt n w = Ret tt w1 /\ queue_of w1 = []
          /\ body n w1 = Raise err w').
Proof.
  assert (Henter : match wait_pvs_enter rt n w with
                   | Ret _ w1 => queue_of w1 = []
                   | Raise _ _ => False
                   | Blocked => True
                   end).
  { unfold wait_pvs_enter. unfold bind. pose proof (flush_pvs_ends rt n w) as H.
    destruct (flush_pvs rt n w) as [[] w0|err w0|]; [reflexivity|exact H|exact I]. }
  assert (Hrun : wait_pvs rt body n w =
    match wait_pvs_enter rt n w with
    | Ret _ w1 =>
        match body n w1 with
        | Ret r w2 =>
            match flush_pvs rt n w2 with
            | Ret _ w3 => Ret r w3
            | Raise err w3 => Raise err w3
            | Blocked => Blocked
            end
        | Raise err w2 => Raise err w2
        | Blocked => Blocked
        end
    | Raise err w1 => Raise err w1
    | Blocked => Blocked
    end) by reflexivity.
  rewrite Hrun. clear Hrun.
  destruct (wait_pvs_enter rt n w) as [[] w1|err w1|];
    [|contradiction|split; intros; discriminate].
  destruct (body n w1) as [r w2|err w2|] eqn:Hbody.
  - pose proof (flush_pvs_ends rt n w2) as Hexit.
    destruct (flush_pvs rt n w2) as [[] w3|err w3|];
      [|contradiction|split; intros; discriminate].
    split; [|intros; discriminate]. intros r0 w' H. injection H as <- <-.
    destruct Hexit as (Hall & Hempty & _).
    exists w1, w2. repeat split; assumption.
  - split; [intros; discriminate|]. intros err0 w' H. injection H as <- <-.
    exists w1. repeat split; assumption.
  - split; intros; discriminate.
Qed.

(** X7.  What leaving a [with self.wait_pvs():] block guarantees.  If the
    statement ends normally, its body ran from an empty queue, every
    descriptor the body left in the queue reports [put_complete], and the
    queue is empty again. *)
Theorem wait_pvs_leaves_batch_complete (rt : Runtime) (A : Type) (body : M A) (n : nat)
    (w : world) (r : A) (w' : world) :
  wait_pvs rt body n w = Ret r w' ->
  exists w1 w2,
    wait_pvs_enter rt n w = Ret tt w1 /\ queue_of w1 = []
    /\ body n w1 = Ret r w2
    /\ (forall self, In self (queue_of w2) -> TxmPV.put_complete (pv_at w' self) = true)
    /\ queue_of w' = [].
Proof. exact (proj1 (wait_pvs_ends rt A body n w) r w'). Qed.

(** X7, a witness: [with txm.wait_pvs(): txm.DCMmvt = 1] on a transport that
    acknowledges at interaction 3, given five turns. *)
Lemma wait_pvs_leaves_batch_complete_witness :
  let rt := beamline (VInt 0) 3 in
  let w := boot rt operator in
  let body := setattr_ rt "DCMmvt" (VInt 1) in
  let w' := final_store (wait_pvs rt body 5%nat w) w in
  exists w1 w2,
    wait_pvs_enter rt 5%nat w = Ret tt w1 /\ queue_of w1 = []
    /\ body 5%nat w1 = Ret tt w2
    /\ (forall self, In self (queue_of w2) -> TxmPV.put_complete (pv_at w' self) = true)
    /\ queue_of w' = [].
Proof.
  intros rt w body w'.
  apply (wait_pvs_leaves_batch_complete rt unit body 5%nat w tt w').
  apply returns_eta. vm_compute. reflexivity.
Defined.

(** X8.  If a [with self.wait_pvs():] statement raises, the exception is
    the body's and the store is as the body left it: the code after the
    [yield] has not run, the queue has not been drained, and writes that
    were pending are still pending. *)
Theorem wait_pvs_body_exception_skips_drain (rt : Runtime) (A : Type) (body : M A) (n : nat)
    (w : world) (err : exn) (w' : world) :
  wait_pvs rt body n w = Raise err w' ->
  exists w1,
    wait_pvs_enter rt n w = Ret tt w1 /\ queue_of w1 = []
    /\ body n w1 = Raise err w'.
Proof. exact (proj2 (wait_pvs_ends rt A body n w) err w'). Qed.

(** X8, a witness: [with txm.wait_pvs(): txm.DCMmvt = 1; float(None)] on a
    transport that acknowledges at interaction 3: the write of [DCMmvt] is
    left in the queue, incomplete. *)
Lemma wait_pvs_body_exception_witness :
  let rt := beamline (VInt 0) 3 in
  let w := boot rt operator in
  let body := (setattr_ rt "DCMmvt" (VInt 1) ;; lift (py_float rt VNone)) in
  let w' := final_store (wait_pvs rt body 5%nat w) w in
  (exists w1,
     wait_pvs_enter rt 5%nat w = Ret tt w1 /\ queue_of w1 = []
     /\ body 5%nat w1 = Raise TypeError w')
  /\ queue_of w' = ["DCMmvt"] /\ all_put_complete w' = false.
Proof.
  intros rt w body w'. split.
  - apply (wait_pvs_body_exception_skips_drain rt pyval body 5%nat w TypeError w').
    apply raises_eta. vm_compute. reflexivity.
  - split; vm_compute; reflexivity.
Defined.

(** ** What no method ever does to a descriptor *)

Lemma same_policy_refl (w : world) : same_policy w w.
Proof. intros s. repeat split. Qed.

Lemma same_policy_trans (w1 w2 w3 : world) :
  same_policy w1 w2 -> same_policy w2 w3 -> same_policy w1 w3.
Proof.
  intros H1 H2 s. destruct (H1 s) as (A1 & B1 & C1 & D1), (H2 s) as (A2 & B2 & C2 & D2).
  repeat split; congruence.
Qed.

Lemma tame_refl (w : world) : tame w w.
Proof. split; [apply same_policy_refl|]. intros cb H. left. exact H. Qed.

Lemma tame_trans (w1 w2 w3 : world) : tame w1 w2 -> tame w2 w3 -> tame w1 w3.
Proof.
  intros [P1 O1] [P2 O2]. split; [eapply same_policy_trans; eassumption|].
  intros cb H3. destruct (O2 cb H3) as [H2|H2]; [exact (O1 cb H2)|].
  right. destruct (P1 (cb_self cb)) as (_ & _ & _ & <-). exact H2.
Qed.

Lemma tame_callbacks_ok (w w' : world) : tame w w' -> callbacks_ok w -> callbacks_ok w'.
Proof.
  intros [HP HO] Hok. unfold callbacks_ok in *. rewrite List.Forall_forall in *.
  intros cb Hin. destruct (HP (cb_self cb)) as (_ & _ & _ & ->).
  destruct (HO cb Hin) as [H|H]; [exact (Hok cb H)|exact H].
Qed.

Lemma tame_frame (f : world -> world) (w : world) :
  pvs (f w) = pvs w -> callbacks (f w) = callbacks w -> tame w (f w).
Proof.
  intros Hp Hc. split.
  - intros s. unfold pv_at. rewrite Hp. repeat split.
  - intros cb H. left. rewrite <- Hc. exact H.
Qed.

Lemma keeps_tame_modify (f : world -> world) :
  (forall w, pvs (f w) = pvs w) -> (forall w, callbacks (f w) = callbacks w) ->
  keeps tame (modify f).
Proof. intros Hp Hc. apply keeps_modify. intros w. apply tame_frame; auto. Qed.

Lemma keeps_tame_tick : keeps tame tick.
Proof. apply keeps_tame_modify; reflexivity. Qed.

Lemma keeps_tame_warn (msg : string) : keeps tame (warn msg).
Proof. apply keeps_tame_modify; reflexivity. Qed.

Lemma keeps_tame_log_put (pv : string) (val : pyval) (b : bool) : keeps tame (log_put pv val b).
Proof. apply keeps_tame_modify; reflexivity. Qed.

Lemma keeps_tame_pv_queue_append (self : string) : keeps tame (pv_queue_append self).
Proof.
  apply keeps_tame_modify; intros w; destruct (TXM.pv_queue (session w)); reflexivity.
Qed.

Lemma keeps_tame_attr {A : Type} (self : string) (field : TxmPV.t -> A) :
  keeps tame (attr self field).
Proof. apply (keeps_gets tame tame_refl). Qed.

Lemma keeps_tame_update (self : string) (f : TxmPV.t -> TxmPV.t) :
  policy_preserving f -> keeps tame (update self f).
Proof.
  intros Hf. apply keeps_modify. intros w. split.
  - intros s.
    assert (Hat : pv_at (set_pvs (<[self := f (pv_at w self)]> (pvs w)) w) s
                  = if decide (self = s) then f (pv_at w self) else pv_at w s).
    { unfold pv_at. cbn [pvs set_pvs]. destruct (decide (self = s)) as [->|Hne].
      - rewrite lookup_insert_eq. reflexivity.
      - rewrite lookup_insert_ne by exact Hne. reflexivity. }
    rewrite Hat. destruct (decide (self = s)) as [->|Hne]; [apply Hf|repeat split].
  - intros cb H. left. exact H.
Qed.

Lemma set_curr_value_policy (v : pyval) : policy_preserving (TxmPV.set_curr_value v).
Proof. intros pv. repeat split. Qed.

Lemma set_put_complete_policy (b : bool) : policy_preserving (TxmPV.set_put_complete b).
Proof. intros pv. repeat split. Qed.

Lemma set_txm_policy (s : TXM.t) : policy_preserving (TxmPV.set_txm s).
Proof. intros pv. repeat split. Qed.

Lemma set_ioc_prefix_policy (p : string) : policy_preserving (set_ioc_prefix p).
Proof. intros pv. repeat split. Qed.

Lemma set_epicsPV_policy (e : string) : policy_preserving (set_epicsPV e).
Proof. intros pv. repeat split. Qed.

Create HintDb tame.
#[local] Hint Resolve keeps_tame_tick keeps_tame_warn keeps_tame_log_put
  keeps_tame_pv_queue_append keeps_tame_attr keeps_tame_update set_curr_value_policy
  set_put_complete_policy set_txm_policy set_ioc_prefix_policy set_epicsPV_policy : tame.

(** Building a [keeps tame] proof along the shape of the code. *)
Ltac keeps_tame :=
  repeat first
    [ solve [auto with tame nocore]
    | apply (keeps_ret tame tame_refl)
    | apply (keeps_raise tame tame_refl)
    | apply (keeps_lift tame tame_refl)
    | apply (keeps_gets tame tame_refl)
    | apply (keeps_while tame tame_trans)
    | apply keeps_tame_modify; reflexivity
    | match goal with |- keeps _ (if ?c then _ else _) => destruct c end
    | match goal with |- keeps _ (match ?c with _ => _ end) => destruct c end
    | apply (keeps_bind tame tame_trans)
    | intros ? ].

Lemma keeps_tame_get_epics_PV (self : string) (txm : TXM.t) :
  keeps tame (get_epics_PV self txm).
Proof. unfold get_epics_PV, pv_name. keeps_tame. Qed.
#[local] Hint Resolve keeps_tame_get_epics_PV : tame.

Lemma keeps_tame_epics_get (rt : Runtime) (pv : string) : keeps tame (epics_get rt pv).
Proof. unfold epics_get. keeps_tame. Qed.
#[local] Hint Resolve keeps_tame_epics_get : tame.

Lemma keeps_tame_time_time (rt : Runtime) : keeps tame (time_time rt).
Proof. unfold time_time. keeps_tame. Qed.
#[local] Hint Resolve keeps_tame_time_time : tame.

Lemma keeps_tame_get (rt : Runtime) (self : string) : keeps tame (__get__ rt self).
Proof. unfold __get__. keeps_tame. Qed.
#[local] Hint Resolve keeps_tame_get : tame.

Lemma keeps_tame_complete_put (rt : Runtime) (self : string) (args : list TXM.t) :
  keeps tame (complete_put rt self args).
Proof. unfold complete_put, complete_put_body. keeps_tame. Qed.

Lemma keeps_tame_run_callbacks (rt : Runtime) (cbs : list callback) :
  keeps tame (run_callbacks rt cbs).
Proof.
  induction cbs as [|cb cbs IH]; cbn [run_callbacks]; [keeps_tame|].
  apply (keeps_bind tame tame_trans); [|intros _; exact IH].
  intros n w. unfold run_callback.
  pose proof (keeps_tame_complete_put rt (cb_self cb) [cb_data cb] n w) as H.
  destruct (complete_put rt (cb_self cb) [cb_data cb] n w); try exact H. apply tame_refl.
Qed.

Lemma keeps_tame_deliver (rt : Runtime) : keeps tame (deliver rt).
Proof.
  intros n w. unfold deliver. run.
  match goal with |- match run_callbacks rt ?cbs n ?w2 with _ => _ end =>
    pose proof (keeps_tame_run_callbacks rt cbs n w2) as H;
    assert (Hw2 : tame w w2);
    [|destruct (run_callbacks rt cbs n w2); try exact I; eapply tame_trans; eassumption]
  end.
  split; [intros s; repeat split|].
  intros cb Hin. left. cbn [callbacks] in Hin. apply List.filter_In in Hin. apply Hin.
Qed.
#[local] Hint Resolve keeps_tame_deliver : tame.

Lemma keeps_tame_time_sleep (rt : Runtime) (seconds : float) :
  keeps tame (time_sleep rt seconds).
Proof. unfold time_sleep. keeps_tame. Qed.
#[local] Hint Resolve keeps_tame_time_sleep keeps_tame_complete_put : tame.

Lemma keeps_tame_epics_put_wait (rt : Runtime) (pv : string) (val : pyval) :
  keeps tame (epics_put_wait rt pv val).
Proof. unfold epics_put_wait. keeps_tame. Qed.
#[local] Hint Resolve keeps_tame_epics_put_wait : tame.

(** A completion callback is registered only for a descriptor that does not
    have the [wait] policy. *)
Lemma keeps_tame_put (rt : Runtime) (self pv : string) (val : pyval) (txm : TXM.t) :
  keeps tame
    (blocking <- attr self TxmPV.wait ;;
     if blocking then
       epics_put_wait rt pv val ;;
       complete_put rt self []
     else
       epics_put_callback rt pv val self txm).
Proof.
  intros n w. unfold bind at 1. unfold attr, gets.
  destruct (TxmPV.wait (pv_at w self)) eqn:Hwait.
  - assert (H : keeps tame (epics_put_wait rt pv val ;; complete_put rt self [])) by keeps_tame.
    exact (H n w).
  - unfold epics_put_callback. run.
    match goal with |- match deliver rt n ?w2 with _ => _ end =>
      pose proof (keeps_tame_deliver rt n w2) as H;
      assert (Hw2 : tame w w2);
      [|destruct (deliver rt n w2); try exact I; eapply tame_trans; eassumption]
    end.
    split; [intros s; repeat split|].
    intros cb Hin. cbn [callbacks] in Hin. apply in_app_or in Hin.
    destruct Hin as [Hin|[<-|[]]]; [left; exact Hin|right; exact Hwait].
Qed.
#[local] Hint Resolve keeps_tame_put : tame.

Lemma keeps_tame_set (rt : Runtime) (self : string) (val : pyval) :
  keeps tame (__set__ rt self val).
Proof. unfold __set__. keeps_tame. Qed.
#[local] Hint Resolve keeps_tame_set : tame.

Lemma keeps_tame_getattr (rt : Runtime) (name : string) : keeps tame (getattr_ rt name).
Proof. unfold getattr_. keeps_tame. Qed.

Lemma keeps_tame_setattr (rt : Runtime) (name : string) (val : pyval) :
  keeps tame (setattr_ rt name val).
Proof. unfold setattr_. keeps_tame. Qed.
#[local] Hint Resolve keeps_tame_getattr keeps_tame_setattr : tame.

Lemma keeps_tame_flush_pvs (rt : Runtime) : keeps tame (flush_pvs rt).
Proof. unfold flush_pvs. keeps_tame. Qed.
#[local] Hint Resolve keeps_tame_flush_pvs : tame.

Lemma keeps_tame_wait_pvs (rt : Runtime) (A : Type) (body : M A) :
  keeps tame body -> keeps tame (wait_pvs rt body).
Proof. intros Hbody. unfold wait_pvs, wait_pvs_enter, wait_pvs_exit. keeps_tame. Qed.

Lemma keeps_tame_wait_pv (rt : Runtime) (name : string) (target timeout : pyval) :
  keeps tame (wait_pv rt name target timeout).
Proof. unfold wait_pv. keeps_tame. Qed.
#[local] Hint Resolve keeps_tame_wait_pv : tame.

Lemma keeps_tame_move_sample (rt : Runtime) (x y z : pyval) :
  keeps tame (move_sample rt x y z).
Proof. unfold move_sample. keeps_tame. Qed.

Lemma keeps_tame_open_shutters (rt : Runtime) : keeps tame (open_shutters rt).
Proof. unfold open_shutters. keeps_tame. Qed.

Lemma keeps_tame_close_shutters (rt : Runtime) : keeps tame (close_shutters rt).
Proof. unfold close_shutters. keeps_tame. Qed.

Lemma keeps_tame_move_energy (rt : Runtime) (energy constant_mag gap_offset : pyval) :
  keeps tame (move_energy rt energy constant_mag gap_offset).
Proof.
  unfold move_energy, permit_required.
  repeat first
    [ apply keeps_tame_wait_pvs
    | solve [auto with tame nocore]
    | apply (keeps_ret tame tame_refl)
    | apply (keeps_raise tame tame_refl)
    | apply (keeps_lift tame tame_refl)
    | apply (keeps_gets tame tame_refl)
    | match goal with |- keeps _ (if ?c then _ else _) => destruct c end
    | apply (keeps_bind tame tame_trans)
    | intros ? ].
Qed.

Lemma tame_same_policy {A : Type} (m : M A) : keeps tame m -> keeps same_policy m.
Proof. apply keeps_weaken. intros w w' [H _]. exact H. Qed.

Lemma tame_preserves {A : Type} (m : M A) : keeps tame m -> preserves callbacks_ok m.
Proof.
  intros H n w Hok. specialize (H n w).
  destruct (m n w); try exact I; exact (tame_callbacks_ok _ _ H Hok).
Qed.

Lemma preserves_bind {A B : Type} (P : world -> Prop) (m : M A) (k : A -> M B) :
  preserves P m -> (forall a, preserves P (k a)) -> preserves P (bind m k).
Proof.
  intros Hm Hk n w HP. unfold bind. specialize (Hm n w HP).
  destruct (m n w) as [a w1|err w1|]; [|exact Hm|exact I]. exact (Hk a n w1 Hm).
Qed.

Lemma keeps_tame_wait_pvs_enter (rt : Runtime) : keeps tame (wait_pvs_enter rt).
Proof. unfold wait_pvs_enter. keeps_tame. Qed.

(** X9.  No method changes the policy of any descriptor: whenever a read,
    a write, a wait, a flush, a batch, [move_sample], [move_energy],
    [open_shutters] or [close_shutters] ends, normally or with an exception,
    every descriptor has the name template, the [dtype] and the
    [permit_required] and [wait] flags it had before. *)
Theorem policies_never_change (rt : Runtime) :
  (forall self, keeps same_policy (__get__ rt self))
  /\ (forall self val, keeps same_policy (__set__ rt self val))
  /\ (forall name target timeout, keeps same_policy (wait_pv rt name target timeout))
  /\ keeps same_policy (flush_pvs rt)
  /\ (forall A (body : M A), keeps same_policy body -> keeps same_policy (wait_pvs rt body))
  /\ (forall x y z, keeps same_policy (move_sample rt x y z))
  /\ (forall energy constant_mag gap_offset,
        keeps same_policy (move_energy rt energy constant_mag gap_offset))
  /\ keeps same_policy (open_shutters rt)
  /\ keeps same_policy (close_shutters rt).
Proof.
  repeat apply conj; intros.
  - apply tame_same_policy, keeps_tame_get.
  - apply tame_same_policy, keeps_tame_set.
  - apply tame_same_policy, keeps_tame_wait_pv.
  - apply tame_same_policy, keeps_tame_flush_pvs.
  - unfold wait_pvs, wait_pvs_exit.
    apply (keeps_bind same_policy same_policy_trans);
      [apply tame_same_policy, keeps_tame_wait_pvs_enter|]. intros _.
    apply (keeps_bind same_policy same_policy_trans); [assumption|]. intros r.
    apply (keeps_bind same_policy same_policy_trans);
      [apply tame_same_policy, keeps_tame_flush_pvs|]. intros _.
    apply (keeps_ret same_policy same_policy_refl).
  - apply tame_same_policy, keeps_tame_move_sample.
  - apply tame_same_policy, keeps_tame_move_energy.
  - apply tame_same_policy, keeps_tame_open_shutters.
  - apply tame_same_policy, keeps_tame_close_shutters.
Qed.

(** X10.  The transport only ever owes callbacks to descriptors without the
    [wait] policy.  This holds right after start-up, and every method keeps
    it, however it ends: [callbacks_ok] is an invariant of the program. *)
Theorem callbacks_ok_is_invariant (rt : Runtime) :
  (forall txm, callbacks_ok (boot rt txm))
  /\ (forall self, preserves callbacks_ok (__get__ rt self))
  /\ (forall self val, preserves callbacks_ok (__set__ rt self val))
  /\ (forall name target timeout, preserves callbacks_ok (wait_pv rt name target timeout))
  /\ preserves callbacks_ok (flush_pvs rt)
  /\ (forall A (body : M A),
        preserves callbacks_ok body -> preserves callbacks_ok (wait_pvs rt body))
  /\ (forall x y z, preserves callbacks_ok (move_sample rt x y z))
  /\ (forall energy constant_mag gap_offset,
        preserves callbacks_ok (move_energy rt energy constant_mag gap_offset))
  /\ preserves callbacks_ok (open_shutters rt)
  /\ preserves callbacks_ok (close_shutters rt).
Proof.
  split; [intros txm; constructor|].
  repeat apply conj; intros.
  - apply tame_preserves, keeps_tame_get.
  - apply tame_preserves, keeps_tame_set.
  - apply tame_preserves, keeps_tame_wait_pv.
  - apply tame_preserves, keeps_tame_flush_pvs.
  - unfold wait_pvs, wait_pvs_exit.
    apply preserves_bind; [apply tame_preserves, keeps_tame_wait_pvs_enter|]. intros _.
    apply preserves_bind; [assumption|]. intros r.
    apply preserves_bind; [apply tame_preserves, keeps_tame_flush_pvs|]. intros _.
    intros n w Hok. exact Hok.
  - apply tame_preserves, keeps_tame_move_sample.
  - apply tame_preserves, keeps_tame_move_energy.
  - apply tame_preserves, keeps_tame_open_shutters.
  - apply tame_preserves, keeps_tame_close_shutters.
Qed.

(** ** Moving the sample *)

Lemma epics_name_same_prefix (pv : TxmPV.t) (txm txm' : TXM.t) :
  TXM.ioc_prefix txm' = TXM.ioc_prefix txm -> epics_name pv txm' = epics_name pv txm.
Proof. intros H. unfold epics_name. rewrite H. reflexivity. Qed.

Lemma epics_name_set_put_complete (b : bool) (pv : TxmPV.t) (txm : TXM.t) :
  epics_name (TxmPV.set_put_complete b pv) txm = epics_name pv txm.
Proof. reflexivity. Qed.

Lemma same_settings_fields (txm txm' : TXM.t) :
  same_settings txm txm' ->
  TXM.is_attached txm' = TXM.is_attached txm /\ TXM.has_permit txm' = TXM.has_permit txm
  /\ TXM.ioc_prefix txm' = TXM.ioc_prefix txm
  /\ TXM.use_shutter_A txm' = TXM.use_shutter_A txm
  /\ TXM.use_shutter_B txm' = TXM.use_shutter_B txm.
Proof.
  unfold same_settings. destruct txm, txm'. cbn. intros H. injection H as -> -> -> -> -> -> -> ->.
  repeat split.
Qed.

(** One write through a writable descriptor of an attached session. *)
Lemma write_step (rt : Runtime) (name : string) (val : pyval) (n : nat) (w : world)
    (e : string) :
  callbacks_ok w -> TXM.is_attached (session w) = true -> writable w name e ->
  exists w',
    setattr_ rt name val n w = Ret tt w'
    /\ callbacks_ok w' /\ TXM.is_attached (session w') = true
    /\ puts w' = (puts w ++ [{| put_pv := e; put_val := val; put_wait := false |}])%list
    /\ warnings w' = warnings w
    /\ (forall other e', writable w other e' -> writable w' other e')
    /\ same_settings (session w) (session w') /\ now w' = S (now w)
    /\ (forall other e' dt, bound_to w other e' dt -> bound_to w' other e' dt).
Proof.
  intros Hok Hatt (pv & Hpv & Hperm & Hwait & He).
  exists (delivered rt (issued name val e pv w)).
  destruct (delivered_frame rt (issued name val e pv w)) as (_ & Hs & Hnow & Hputs & Hwarn & _).
  assert (Hsame : same_settings (session w) (session (issued name val e pv w))).
  { unfold issued, same_settings. cbn [session]. destruct (TXM.pv_queue (session w)); reflexivity. }
  destruct (same_settings_fields _ _ Hsame) as (Hatt' & Hperm' & Hpfx' & _).
  assert (Hlook : forall other pv0, pvs w !! other = Some pv0 ->
            exists pv1,
              pvs (delivered rt (issued name val e pv w)) !! other = Some pv1
              /\ TxmPV.dtype pv1 = TxmPV.dtype pv0
              /\ TxmPV.permit_required pv1 = TxmPV.permit_required pv0
              /\ TxmPV.wait pv1 = TxmPV.wait pv0
              /\ forall e', epics_name pv0 (session w) = inr e' ->
                    epics_name pv1 (session (issued name val e pv w)) = inr e').
  { intros other pv0 Hpv0. destruct (decide (name = other)) as [<-|Hne].
    - rewrite Hpv in Hpv0. injection Hpv0 as <-.
      destruct (lookup_delivered rt (issued name val e pv w) name
                  (TxmPV.set_put_complete false
                     (rebind (session w) e
                        (TxmPV.set_curr_value val (TxmPV.set_txm (session w) pv)))))
        as [b Hb]; [unfold issued; cbn [pvs]; apply lookup_insert_eq|].
      eexists. split; [exact Hb|]. repeat split.
      intros e' He'. rewrite He in He'. injection He' as <-.
      rewrite (epics_name_same_prefix _ (session w) _ Hpfx'). apply epics_name_rebind.
    - destruct (lookup_delivered rt (issued name val e pv w) other pv0) as [b Hb];
        [unfold issued; cbn [pvs]; rewrite lookup_insert_ne by exact Hne; exact Hpv0|].
      eexists. split; [exact Hb|]. repeat split.
      intros e' He'. rewrite (epics_name_same_prefix _ (session w) _ Hpfx'). exact He'. }
  split.
  { unfold setattr_. run. rewrite Hpv. apply set_attached_nonblocking; assumption. }
  split; [apply callbacks_ok_delivered, callbacks_ok_issued; assumption|].
  split; [rewrite Hs, Hatt'; exact Hatt|].
  split; [rewrite Hputs; unfold issued; cbn [puts]; rewrite Hwait; reflexivity|].
  split; [rewrite Hwarn; reflexivity|].
  split.
  { intros other e' (pv0 & Hpv0 & Hperm0 & Hwait0 & He0).
    destruct (Hlook other pv0 Hpv0) as (pv1 & Hpv1 & _ & Hp1 & Hw1 & He1).
    exists pv1. rewrite Hs, Hperm', Hp1, Hw1. repeat split; auto. }
  split; [rewrite Hs; exact Hsame|].
  split; [rewrite Hnow; reflexivity|].
  intros other e' dt (pv0 & Hpv0 & Hdt0 & He0).
  destruct (Hlook other pv0 Hpv0) as (pv1 & Hpv1 & Hd1 & _ & _ & He1).
  exists pv1. rewrite Hs. repeat split; auto. congruence.
Qed.

(** The handling of one coordinate of [move_sample]. *)
Lemma coordinate_step (rt : Runtime) (name : string) (v : pyval) (n : nat) (w : world)
    (e : string) (fv : option pyval) :
  callbacks_ok w -> TXM.is_attached (session w) = true -> writable w name e ->
  coordinate rt v = inr fv ->
  exists w',
    (if is_not_None v then f <- lift (py_float rt v) ;; setattr_ rt name f else ret tt) n w
    = Ret tt w'
    /\ callbacks_ok w' /\ TXM.is_attached (session w') = true
    /\ puts w' = (puts w ++ request e fv)%list
    /\ warnings w' = warnings w
    /\ (forall other e', writable w other e' -> writable w' other e').
Proof.
  intros Hok Hatt Hw Hc. unfold coordinate in Hc. destruct (is_not_None v).
  - destruct (py_float rt v) as [err|f]; [discriminate Hc|]. injection Hc as <-.
    unfold bind, lift, ret.
    destruct (write_step rt name f n w e Hok Hatt Hw) as (w' & H1 & H2 & H3 & H4 & H5 & H6 & _).
    exists w'. repeat split; assumption.
  - injection Hc as <-. exists w. unfold ret, request. rewrite app_nil_r.
    repeat split; auto.
Qed.

Lemma coordinate_fails (rt : Runtime) (name : string) (v : pyval) (n : nat) (w : world)
    (err : exn) :
  coordinate rt v = inl err ->
  (if is_not_None v then f <- lift (py_float rt v) ;; setattr_ rt name f else ret tt) n w
  = Raise err w.
Proof.
  unfold coordinate. destruct (is_not_None v); [|discriminate].
  destruct (py_float rt v) as [err0|f]; [|discriminate]. intros H. injection H as <-.
  reflexivity.
Qed.

(** X11.  [move_sample] on an attached session whose four sample-motor
    descriptors take writes: the coordinates that are given (not [None]) are
    converted with [float] and requested in the order x, y, z, then the
    rotation is requested with the integer 0; every request is non-blocking
    and the call returns [True] without waiting for any of them, whatever
    the budget of loop turns. *)
Theorem move_sample_requests_moves_in_order (rt : Runtime) (x y z : pyval) (n : nat)
    (w : world) (ex ey ez er : string) (fx fy fz : option pyval) :
  callbacks_ok w -> TXM.is_attached (session w) = true ->
  writable w "Motor_SampleX" ex -> writable w "Motor_SampleY" ey ->
  writable w "Motor_SampleZ" ez -> writable w "Motor_SampleRot" er ->
  coordinate rt x = inr fx -> coordinate rt y = inr fy -> coordinate rt z = inr fz ->
  exists w',
    move_sample rt x y z n w = Ret (VBool true) w'
    /\ puts w' = (puts w ++ request ex fx ++ request ey fy ++ request ez fz
                  ++ [{| put_pv := er; put_val := VInt 0; put_wait := false |}])%list
    /\ warnings w' = warnings w.
Proof.
  intros Hok Hatt Hx Hy Hz Hr Hcx Hcy Hcz.
  destruct (coordinate_step rt "Motor_SampleX" x n w ex fx Hok Hatt Hx Hcx)
    as (w1 & Hrun1 & Hok1 & Hatt1 & Hputs1 & Hwarn1 & Hkeep1).
  destruct (coordinate_step rt "Motor_SampleY" y n w1 ey fy Hok1 Hatt1 (Hkeep1 _ _ Hy) Hcy)
    as (w2 & Hrun2 & Hok2 & Hatt2 & Hputs2 & Hwarn2 & Hkeep2).
  destruct (coordinate_step rt "Motor_SampleZ" z n w2 ez fz Hok2 Hatt2
              (Hkeep2 _ _ (Hkeep1 _ _ Hz)) Hcz)
    as (w3 & Hrun3 & Hok3 & Hatt3 & Hputs3 & Hwarn3 & Hkeep3).
  destruct (write_step rt "Motor_SampleRot" (VInt 0) n w3 er Hok3 Hatt3
              (Hkeep3 _ _ (Hkeep2 _ _ (Hkeep1 _ _ Hr))))
    as (w4 & Hrun4 & Hok4 & Hatt4 & Hputs4 & Hwarn4 & _).
  exists w4. split.
  - unfold move_sample. unfold bind at 1. rewrite Hrun1.
    unfold bind at 1. rewrite Hrun2. unfold bind at 1. rewrite Hrun3.
    unfold bind at 1. rewrite Hrun4. reflexivity.
  - split; [|congruence].
    rewrite Hputs4, Hputs3, Hputs2, Hputs1, <- !app_assoc. reflexivity.
Qed.

(** X11, a witness: [TXM().move_sample(x=1, z=3)] right after start-up; the
    sample motors need no permit. *)
Lemma move_sample_witness :
  let rt := beamline (VInt 0) 0 in
  let w := boot rt visitor in
  exists w',
    move_sample rt (VInt 1) VNone (VInt 3) 0%nat w = Ret (VBool true) w'
    /\ puts w' = [ {| put_pv := "32idcTXM:mcs:c1:m2.VAL"; put_val := VFloat 1; put_wait := false |};
                   {| put_pv := "32idcTXM:mcs:c1:m1.VAL"; put_val := VFloat 3; put_wait := false |};
                   {| put_pv := "32idcTXM:ens:c1:m1.VAL"; put_val := VInt 0; put_wait := false |} ]
    /\ warnings w' = [].
Proof.
  intros rt w.
  apply (move_sample_requests_moves_in_order rt (VInt 1) VNone (VInt 3) 0%nat w
           "32idcTXM:mcs:c1:m2.VAL" "32idcTXM:xps:c1:m7.VAL" "32idcTXM:mcs:c1:m1.VAL"
           "32idcTXM:ens:c1:m1.VAL" (Some (VFloat 1)) None (Some (VFloat 3))).
  - constructor.
  - reflexivity.
  - exists (pv_at w "Motor_SampleX"). vm_compute. repeat split.
  - exists (pv_at w "Motor_SampleY"). vm_compute. repeat split.
  - exists (pv_at w "Motor_SampleZ"). vm_compute. repeat split.
  - exists (pv_at w "Motor_SampleRot"). vm_compute. repeat split.
  - vm_compute. reflexivity.
  - reflexivity.
  - vm_compute. reflexivity.
Defined.

(** X12.  [move_sample] does not check its arguments before it starts: if
    [float(y)] raises, the move of x has already been requested and stays
    requested, and neither z nor the rotation is touched. *)
Theorem move_sample_bad_y_after_x_requested (rt : Runtime) (x y z : pyval) (n : nat)
    (w : world) (ex : string) (fx : option pyval) (err : exn) :
  callbacks_ok w -> TXM.is_attached (session w) = true ->
  writable w "Motor_SampleX" ex ->
  coordinate rt x = inr fx -> coordinate rt y = inl err ->
  exists w',
    move_sample rt x y z n w = Raise err w'
    /\ puts w' = (puts w ++ request ex fx)%list.
Proof.
  intros Hok Hatt Hx Hcx Hcy.
  destruct (coordinate_step rt "Motor_SampleX" x n w ex fx Hok Hatt Hx Hcx)
    as (w1 & Hrun1 & _ & _ & Hputs1 & _).
  exists w1. split; [|exact Hputs1].
  unfold move_sample. unfold bind at 1. rewrite Hrun1.
  unfold bind at 1. rewrite (coordinate_fails rt "Motor_SampleY" y n w1 err Hcy). reflexivity.
Qed.

(** X12, a witness: [TXM().move_sample(x=1, y='left')]. *)
Lemma move_sample_bad_y_witness :
  let rt := beamline (VInt 0) 0 in
  let w := boot rt visitor in
  exists w',
    move_sample rt (VInt 1) (VStr "left") VNone 0%nat w = Raise ValueError w'
    /\ puts w' = [ {| put_pv := "32idcTXM:mcs:c1:m2.VAL"; put_val := VFloat 1; put_wait := false |} ].
Proof.
  intros rt w.
  apply (move_sample_bad_y_after_x_requested rt (VInt 1) (VStr "left") VNone 0%nat w
           "32idcTXM:mcs:c1:m2.VAL" (Some (VFloat 1)) ValueError).
  - constructor.
  - reflexivity.
  - exists (pv_at w "Motor_SampleX"). vm_compute. repeat split.
  - vm_compute. reflexivity.
  - reflexivity.
Defined.

(** ** The shutters *)

Lemma bind_gets {A B : Type} (f : world -> A) (k : A -> M B) (n : nat) (w : world) :
  (x <- gets f ;; k x) n w = k (f w) n w.
Proof. reflexivity. Qed.

Lemma bind_returned {A B : Type} (m : M A) (k : A -> M B) (n : nat) (w w1 : world) (a : A) :
  m n w = Ret a w1 -> bind m k n w = k a n w1.
Proof. intros H. unfold bind. rewrite H. reflexivity. Qed.

Lemma bind_blocked {A B : Type} (m : M A) (k : A -> M B) (n : nat) (w : world) :
  m n w = Blocked -> bind m k n w = Blocked.
Proof. intros H. unfold bind. rewrite H. reflexivity. Qed.

(** An assignment on a session that is not attached. *)
Lemma setattr_unattached (rt : Runtime) (name : string) (val : pyval) (n : nat) (w : world) :
  callbacks_ok w -> TXM.is_attached (session w) = false ->
  exists w',
    setattr_ rt name val n w = Ret tt w'
    /\ callbacks_ok w' /\ TXM.is_attached (session w') = false
    /\ TXM.use_shutter_A (session w') = TXM.use_shutter_A (session w)
    /\ TXM.use_shutter_B (session w') = TXM.use_shutter_B (session w)
    /\ puts w' = puts w /\ warnings w' = warnings w.
Proof.
  intros Hok Hatt. unfold setattr_. rewrite bind_gets.
  destruct (pvs w !! name) as [pv|] eqn:Hpv.
  - rewrite (set_unattached rt name val n w pv Hpv Hatt). eexists. split; [reflexivity|].
    split; [|repeat split; assumption].
    apply (callbacks_ok_same_wait w); [exact Hok|reflexivity|].
    intros s. run. destruct (decide (name = s)) as [<-|Hne].
    + rewrite pv_at_insert, (pv_at_lookup _ _ _ Hpv). reflexivity.
    + rewrite pv_at_insert_ne by exact Hne. reflexivity.
  - eexists. split; [reflexivity|]. split; [|repeat split; assumption].
    apply (callbacks_ok_same_wait w); [exact Hok|reflexivity|reflexivity].
Qed.

(** A wait on a session that is not attached: one sleep, one look at the
    clock, no poll. *)
Lemma unattached_wait_sleeps_once (rt : Runtime) (name : string) (target timeout : pyval) (n : nat)
    (w : world) :
  callbacks_ok w -> TXM.is_attached (session w) = false ->
  wait_pv rt name target timeout n w = Ret VNone (set_now (S (S (now w))) (slept rt w)).
Proof.
  intros Hok Hatt.
  rewrite wait_pv_unfold. unfold bind at 1. rewrite (time_sleep_ok rt _ n w Hok).
  unfold time_time, while_. run.
  erewrite while_fuel_exit; [reflexivity|].
  unfold poll_cond. run. destruct (slept_frame rt w) as (_ & Hs & Hn & _).
  rewrite Hs, Hn, Hatt. reflexivity.
Qed.

(** Moving one shutter on a session that is not attached. *)
Lemma shutter_unattached (rt : Runtime) (name status : string) (target : pyval) (n : nat)
    (w : world) :
  callbacks_ok w -> TXM.is_attached (session w) = false ->
  exists w',
    (setattr_ rt name (VInt 1) ;; wait_pv rt status target DEFAULT_TIMEOUT ;; ret tt) n w
    = Ret tt w'
    /\ callbacks_ok w' /\ TXM.is_attached (session w') = false
    /\ TXM.use_shutter_A (session w') = TXM.use_shutter_A (session w)
    /\ TXM.use_shutter_B (session w') = TXM.use_shutter_B (session w)
    /\ puts w' = puts w /\ warnings w' = warnings w.
Proof.
  intros Hok Hatt.
  destruct (setattr_unattached rt name (VInt 1) n w Hok Hatt)
    as (w1 & Hset & Hok1 & Hatt1 & HA1 & HB1 & Hputs1 & Hwarn1).
  rewrite (bind_returned _ _ n w w1 tt Hset).
  rewrite (bind_returned _ _ n w1 _ VNone (unattached_wait_sleeps_once rt status target _ n w1 Hok1 Hatt1)).
  eexists. split; [reflexivity|].
  destruct (slept_frame rt w1) as (_ & Hs & _ & Hp & Hwn & _).
  split.
  { apply (callbacks_ok_same_wait (slept rt w1));
      [apply callbacks_ok_slept, Hok1|reflexivity|reflexivity]. }
  cbn [session puts warnings set_now]. rewrite Hs, Hp, Hwn. repeat split; congruence.
Qed.

(** The shape [open_shutters] and [close_shutters] share, on a session that
    is not attached. *)
Lemma shutters_unattached (rt : Runtime) (nameA nameB : string) (target : pyval) (n : nat)
    (w : world) :
  callbacks_ok w -> TXM.is_attached (session w) = false ->
  exists w',
    (use_shutter_A <- gets (fun w => TXM.use_shutter_A (session w)) ;;
     (if use_shutter_A then
        setattr_ rt nameA (VInt 1) ;;
        wait_pv rt "ShutterA_Move_Status" target DEFAULT_TIMEOUT ;;
        ret tt
      else ret tt) ;;
     use_shutter_B <- gets (fun w => TXM.use_shutter_B (session w)) ;;
     (if use_shutter_B then
        setattr_ rt nameB (VInt 1) ;;
        wait_pv rt "ShutterB_Move_Status" target DEFAULT_TIMEOUT ;;
        ret tt
      else ret tt) ;;
     self <- gets session ;;
     if TXM.use_shutter_A self || TXM.use_shutter_B self || negb (TXM.is_attached self)
     then ret tt
     else warn "Neither shutter A nor B enabled.") n w
    = Ret tt w'
    /\ puts w' = puts w /\ warnings w' = warnings w.
Proof.
  intros Hok Hatt. rewrite bind_gets.
  assert (HA : exists w1,
    (if TXM.use_shutter_A (session w) then
       setattr_ rt nameA (VInt 1) ;;
       wait_pv rt "ShutterA_Move_Status" target DEFAULT_TIMEOUT ;;
       ret tt
     else ret tt) n w = Ret tt w1
    /\ callbacks_ok w1 /\ TXM.is_attached (session w1) = false
    /\ puts w1 = puts w /\ warnings w1 = warnings w).
  { destruct (TXM.use_shutter_A (session w)).
    - destruct (shutter_unattached rt nameA "ShutterA_Move_Status" target n w Hok Hatt)
        as (w1 & H1 & H2 & H3 & _ & _ & H4 & H5).
      exists w1. repeat split; assumption.
    - exists w. repeat split; assumption. }
  destruct HA as (w1 & HrunA & Hok1 & Hatt1 & Hputs1 & Hwarn1).
  rewrite (bind_returned _ _ n w w1 tt HrunA). rewrite bind_gets.
  assert (HB : exists w2,
    (if TXM.use_shutter_B (session w1) then
       setattr_ rt nameB (VInt 1) ;;
       wait_pv rt "ShutterB_Move_Status" target DEFAULT_TIMEOUT ;;
       ret tt
     else ret tt) n w1 = Ret tt w2
    /\ callbacks_ok w2 /\ TXM.is_attached (session w2) = false
    /\ puts w2 = puts w1 /\ warnings w2 = warnings w1).
  { destruct (TXM.use_shutter_B (session w1)).
    - destruct (shutter_unattached rt nameB "ShutterB_Move_Status" target n w1 Hok1 Hatt1)
        as (w2 & H1 & H2 & H3 & _ & _ & H4 & H5).
      exists w2. repeat split; assumption.
    - exists w1. repeat split; assumption. }
  destruct HB as (w2 & HrunB & Hok2 & Hatt2 & Hputs2 & Hwarn2).
  rewrite (bind_returned _ _ n w1 w2 tt HrunB). rewrite bind_gets. rewrite Hatt2.
  rewrite orb_true_r. exists w2. split; [reflexivity|]. split; congruence.
Qed.

(** X13.  On a session that is not attached, [open_shutters] and
    [close_shutters] return whichever shutters are selected, with any budget
    of loop turns: nothing is handed to the transport and no warning is
    raised, not even when neither shutter is selected. *)
Theorem shutters_unattached_touch_nothing (rt : Runtime) (n : nat) (w : world) :
  callbacks_ok w -> TXM.is_attached (session w) = false ->
  (exists w', open_shutters rt n w = Ret tt w' /\ puts w' = puts w /\ warnings w' = warnings w)
  /\ (exists w', close_shutters rt n w = Ret tt w' /\ puts w' = puts w
                 /\ warnings w' = warnings w).
Proof.
  intros Hok Hatt. split.
  - exact (shutters_unattached rt "ShutterA_Open" "ShutterB_Open" SHUTTER_OPEN n w Hok Hatt).
  - exact (shutters_unattached rt "ShutterA_Close" "ShutterB_Close" SHUTTER_CLOSED n w Hok Hatt).
Qed.

(** X13, a witness: [TXM(is_attached=False, use_shutter_A=True)], with no
    turn of any loop allowed. *)
Lemma shutters_unattached_witness :
  let rt := beamline (VInt 0) 0 in
  let w := boot rt (TXM_init None (Some false) None (Some true) None None None) in
  (exists w', open_shutters rt 0%nat w = Ret tt w' /\ puts w' = puts w /\ warnings w' = warnings w)
  /\ (exists w', close_shutters rt 0%nat w = Ret tt w' /\ puts w' = puts w
                 /\ warnings w' = warnings w).
Proof.
  intros rt w. apply (shutters_unattached_touch_nothing rt 0%nat w).
  - constructor.
  - reflexivity.
Defined.

(** ** What reading and waiting never do *)

Lemma silent_refl (w : world) : silent w w.
Proof. split; reflexivity. Qed.

Lemma silent_trans (w1 w2 w3 : world) : silent w1 w2 -> silent w2 w3 -> silent w1 w3.
Proof. intros [H1 H2] [H3 H4]. split; congruence. Qed.

Lemma keeps_silent_modify (f : world -> world) :
  (forall w, puts (f w) = puts w) -> (forall w, warnings (f w) = warnings w) ->
  keeps silent (modify f).
Proof. intros Hp Hw. apply keeps_modify. intros w. split; auto. Qed.

Lemma keeps_silent_tick : keeps silent tick.
Proof. apply keeps_silent_modify; reflexivity. Qed.

Lemma keeps_silent_attr {A : Type} (self : string) (field : TxmPV.t -> A) :
  keeps silent (attr self field).
Proof. apply (keeps_gets silent silent_refl). Qed.

Lemma keeps_silent_update (self : string) (f : TxmPV.t -> TxmPV.t) :
  keeps silent (update self f).
Proof. apply keeps_silent_modify; reflexivity. Qed.

Create HintDb silent.
#[local] Hint Resolve keeps_silent_tick keeps_silent_attr keeps_silent_update : silent.

(** Building a [keeps silent] proof along the shape of the code. *)
Ltac keeps_silent :=
  repeat first
    [ solve [auto with silent nocore]
    | apply (keeps_ret silent silent_refl)
    | apply (keeps_raise silent silent_refl)
    | apply (keeps_lift silent silent_refl)
    | apply (keeps_gets silent silent_refl)
    | apply (keeps_while silent silent_trans)
    | apply keeps_silent_modify; reflexivity
    | match goal with |- keeps _ (if ?c then _ else _) => destruct c end
    | match goal with |- keeps _ (match ?c with _ => _ end) => destruct c end
    | apply (keeps_bind silent silent_trans)
    | intros ? ].

Lemma keeps_silent_get_epics_PV (self : string) (txm : TXM.t) :
  keeps silent (get_epics_PV self txm).
Proof. unfold get_epics_PV, pv_name. keeps_silent. Qed.
#[local] Hint Resolve keeps_silent_get_epics_PV : silent.

Lemma keeps_silent_epics_get (rt : Runtime) (pv : string) : keeps silent (epics_get rt pv).
Proof. unfold epics_get. keeps_silent. Qed.
#[local] Hint Resolve keeps_silent_epics_get : silent.

Lemma keeps_silent_time_time (rt : Runtime) : keeps silent (time_time rt).
Proof. unfold time_time. keeps_silent. Qed.
#[local] Hint Resolve keeps_silent_time_time : silent.

Lemma keeps_silent_get (rt : Runtime) (self : string) : keeps silent (__get__ rt self).
Proof. unfold __get__. keeps_silent. Qed.
#[local] Hint Resolve keeps_silent_get : silent.

Lemma keeps_silent_complete_put (rt : Runtime) (self : string) (args : list TXM.t) :
  keeps silent (complete_put rt self args).
Proof. unfold complete_put, complete_put_body. keeps_silent. Qed.

Lemma keeps_silent_run_callbacks (rt : Runtime) (cbs : list callback) :
  keeps silent (run_callbacks rt cbs).
Proof.
  induction cbs as [|cb cbs IH]; cbn [run_callbacks]; [keeps_silent|].
  apply (keeps_bind silent silent_trans); [|intros _; exact IH].
  intros n w. unfold run_callback.
  pose proof (keeps_silent_complete_put rt (cb_self cb) [cb_data cb] n w) as H.
  destruct (complete_put rt (cb_self cb) [cb_data cb] n w); try exact H. apply silent_refl.
Qed.
#[local] Hint Resolve keeps_silent_run_callbacks : silent.

Lemma keeps_silent_deliver (rt : Runtime) : keeps silent (deliver rt).
Proof. unfold deliver. keeps_silent. Qed.
#[local] Hint Resolve keeps_silent_deliver : silent.

Lemma keeps_silent_time_sleep (rt : Runtime) (seconds : float) :
  keeps silent (time_sleep rt seconds).
Proof. unfold time_sleep. keeps_silent. Qed.
#[local] Hint Resolve keeps_silent_time_sleep : silent.

Lemma keeps_silent_getattr (rt : Runtime) (name : string) : keeps silent (getattr_ rt name).
Proof. unfold getattr_. keeps_silent. Qed.
#[local] Hint Resolve keeps_silent_getattr : silent.

Lemma keeps_silent_wait_pv (rt : Runtime) (name : string) (target timeout : pyval) :
  keeps silent (wait_pv rt name target timeout).
Proof. unfold wait_pv. keeps_silent. Qed.

Lemma keeps_silent_flush_pvs (rt : Runtime) : keeps silent (flush_pvs rt).
Proof. unfold flush_pvs. keeps_silent. Qed.

(** X14.  Reading, waiting and flushing never hand anything to the
    transport and never raise a warning: whenever a read of a descriptor or
    of any attribute, a [wait_pv] or a [flush_pvs] ends, normally or with an
    exception (a [TimeoutError], a failed conversion), the list of writes
    issued and the list of warnings are what they were. *)
Theorem reads_and_waits_are_silent (rt : Runtime) :
  (forall self, keeps silent (__get__ rt self))
  /\ (forall name, keeps silent (getattr_ rt name))
  /\ (forall name target timeout, keeps silent (wait_pv rt name target timeout))
  /\ keeps silent (flush_pvs rt).
Proof.
  repeat apply conj; intros.
  - apply keeps_silent_get.
  - apply keeps_silent_getattr.
  - apply keeps_silent_wait_pv.
  - apply keeps_silent_flush_pvs.
Qed.

(** Moving one shutter: the assignment, then the wait. *)
Lemma shutter_block (rt : Runtime) (name status : string) (target : pyval) (n : nat)
    (w w1 : world) :
  setattr_ rt name (VInt 1) n w = Ret tt w1 ->
  (setattr_ rt name (VInt 1) ;; wait_pv rt status target DEFAULT_TIMEOUT ;; ret tt) n w
  = match wait_pv rt status target DEFAULT_TIMEOUT n w1 with
    | Ret _ w2 => Ret tt w2
    | Raise err w2 => Raise err w2
    | Blocked => Blocked
    end.
Proof.
  intros H. unfold bind. rewrite H.
  destruct (wait_pv rt status target DEFAULT_TIMEOUT n w1); reflexivity.
Qed.

(** The wait for a shutter's status, from a store in which the status is
    bound. *)
Lemma shutter_wait (rt : Runtime) (status : string) (target : pyval) (w1 : world)
    (es : string) (dt : option (pyval -> res pyval)) (k : nat) :
  callbacks_ok w1 -> TXM.is_attached (session w1) = true -> bound_to w1 status es dt ->
  (forall i, (i < k)%nat ->
     (exists v, coerce dt (ca_get rt (now w1 + 2 + 3 * i) es) = inr v /\ py_ne v target = true)
     /\ py_ge (VFloat (clock rt (now w1 + 3 + 3 * i) - clock rt (S (now w1)))%float)
          DEFAULT_TIMEOUT = inr false) ->
  (exists v, coerce dt (ca_get rt (now w1 + 2 + 3 * k) es) = inr v /\ py_ne v target = false) ->
  (forall n, (n <= k)%nat -> wait_pv rt status target DEFAULT_TIMEOUT n w1 = Blocked)
  /\ (forall n, (k < n)%nat ->
        exists w2,
          wait_pv rt status target DEFAULT_TIMEOUT n w1 = Ret (VBool true) w2
          /\ session w2 = session w1 /\ puts w2 = puts w1 /\ warnings w2 = warnings w1).
Proof.
  intros Hok Hatt (pv & Hpv & <- & He) Hbefore Hat.
  destruct (wait_pv_in_time rt status target DEFAULT_TIMEOUT w1 pv es k Hok Hatt Hpv He
              eq_refl Hbefore Hat) as [Hblk Hret].
  split; [exact Hblk|]. intros n Hn. destruct (Hret n Hn) as (w2 & Hrun & _ & Hputs).
  exists w2. split; [exact Hrun|].
  pose proof (keeps_same_wait_pv rt status target DEFAULT_TIMEOUT n w1) as Hsame.
  rewrite Hrun in Hsame. destruct Hsame as [Hs _].
  pose proof (keeps_silent_wait_pv rt status target DEFAULT_TIMEOUT n w1) as Hsilent.
  rewrite Hrun in Hsilent. destruct Hsilent as [_ Hwarn].
  repeat split; assumption.
Qed.

(** X15.  [open_shutters] on an attached session that has the permit, with
    shutter A selected and shutter B not: the call hands one non-blocking
    write of 1 to the process variable of [ShutterA_Open], then polls
    [ShutterA_Move_Status] until it reads [SHUTTER_OPEN]; if that happens at
    turn [k], before the default timeout of 20 s, the call returns at that
    turn, having written nothing else and warned of nothing.  Turn [i] reads
    the status at interaction [now w + 3 + 3 i] and the clock at the next
    one; the start reading is taken at [now w + 2]. *)
Theorem open_shutters_writes_then_waits (rt : Runtime) (w : world) (eo es : string)
    (dt : option (pyval -> res pyval)) (k : nat) :
  callbacks_ok w -> TXM.is_attached (session w) = true ->
  TXM.use_shutter_A (session w) = true -> TXM.use_shutter_B (session w) = false ->
  writable w "ShutterA_Open" eo -> bound_to w "ShutterA_Move_Status" es dt ->
  (forall i, (i < k)%nat ->
     (exists v, coerce dt (ca_get rt (now w + 3 + 3 * i) es) = inr v
                /\ py_ne v SHUTTER_OPEN = true)
     /\ py_ge (VFloat (clock rt (now w + 4 + 3 * i) - clock rt (now w + 2))%float)
          DEFAULT_TIMEOUT = inr false) ->
  (exists v, coerce dt (ca_get rt (now w + 3 + 3 * k) es) = inr v
             /\ py_ne v SHUTTER_OPEN = false) ->
  (forall n, (n <= k)%nat -> open_shutters rt n w = Blocked)
  /\ (forall n, (k < n)%nat ->
        exists w',
          open_shutters rt n w = Ret tt w'
          /\ puts w' = (puts w ++ [{| put_pv := eo; put_val := VInt 1; put_wait := false |}])%list
          /\ warnings w' = warnings w).
Proof.
  intros Hok Hatt HA HB Hwr Hst Hbefore Hat.
  assert (Hstep : forall n, exists w1,
    setattr_ rt "ShutterA_Open" (VInt 1) n w = Ret tt w1
    /\ callbacks_ok w1 /\ TXM.is_attached (session w1) = true
    /\ puts w1 = (puts w ++ [{| put_pv := eo; put_val := VInt 1; put_wait := false |}])%list
    /\ warnings w1 = warnings w
    /\ same_settings (session w) (session w1) /\ now w1 = S (now w)
    /\ bound_to w1 "ShutterA_Move_Status" es dt).
  { intros n.
    destruct (write_step rt "ShutterA_Open" (VInt 1) n w eo Hok Hatt Hwr)
      as (w1 & H1 & H2 & H3 & H4 & H5 & _ & H6 & H7 & H8).
    exists w1. repeat split; auto. }
  assert (Hwait : forall w1,
    callbacks_ok w1 -> TXM.is_attached (session w1) = true -> now w1 = S (now w) ->
    bound_to w1 "ShutterA_Move_Status" es dt ->
    (forall n, (n <= k)%nat ->
       wait_pv rt "ShutterA_Move_Status" SHUTTER_OPEN DEFAULT_TIMEOUT n w1 = Blocked)
    /\ (forall n, (k < n)%nat ->
          exists w2,
            wait_pv rt "ShutterA_Move_Status" SHUTTER_OPEN DEFAULT_TIMEOUT n w1
            = Ret (VBool true) w2
            /\ session w2 = session w1 /\ puts w2 = puts w1 /\ warnings w2 = warnings w1)).
  { intros w1 Hok1 Hatt1 Hnow1 Hst1.
    apply (shutter_wait rt "ShutterA_Move_Status" SHUTTER_OPEN w1 es dt k Hok1 Hatt1 Hst1).
    - intros i Hi. rewrite Hnow1.
      replace (S (now w) + 2 + 3 * i)%nat with (now w + 3 + 3 * i)%nat by lia.
      replace (S (now w) + 3 + 3 * i)%nat with (now w + 4 + 3 * i)%nat by lia.
      replace (S (S (now w))) with (now w + 2)%nat by lia. apply Hbefore, Hi.
    - rewrite Hnow1.
      replace (S (now w) + 2 + 3 * k)%nat with (now w + 3 + 3 * k)%nat by lia. exact Hat. }
  split; intros n Hn;
    destruct (Hstep n) as (w1 & Hset & Hok1 & Hatt1 & Hputs1 & Hwarn1 & Hsame1 & Hnow1 & Hst1);
    destruct (Hwait w1 Hok1 Hatt1 Hnow1 Hst1) as [Hblk Hret];
    unfold open_shutters; rewrite bind_gets, HA.
  - apply bind_blocked.
    rewrite (shutter_block rt _ _ _ n w w1 Hset), (Hblk n Hn). reflexivity.
  - destruct (Hret n Hn) as (w2 & Hrun & Hs2 & Hputs2 & Hwarn2).
    destruct (same_settings_fields _ _ Hsame1) as (_ & _ & _ & HA1 & HB1).
    assert (Hblock :
      (setattr_ rt "ShutterA_Open" (VInt 1) ;;
       wait_pv rt "ShutterA_Move_Status" SHUTTER_OPEN DEFAULT_TIMEOUT ;; ret tt) n w
      = Ret tt w2) by (rewrite (shutter_block rt _ _ _ n w w1 Hset), Hrun; reflexivity).
    rewrite (bind_returned _ _ n w w2 tt Hblock). rewrite bind_gets.
    rewrite Hs2, HB1, HB. rewrite (bind_returned _ _ n w2 w2 tt eq_refl). rewrite bind_gets.
    rewrite Hs2, HA1, HA. cbn [orb]. exists w2. split; [reflexivity|]. split; congruence.
Qed.

(** X15, a witness: [TXM(has_permit=True, use_shutter_A=True).open_shutters()]
    in a hutch whose shutter A reads closed (1) until interaction 7: the
    reads at interactions 3 and 6 give 1, the read at 9 gives 0, so
    [k = 2]. *)
Lemma open_shutters_witness :
  let rt := hutch (fun n => if (n <? 7)%nat then VInt 1 else VInt 0) in
  let w := boot rt (TXM_init (Some true) None None (Some true) None None None) in
  (forall n, (n <= 2)%nat -> open_shutters rt n w = Blocked)
  /\ (forall n, (2 < n)%nat ->
        exists w',
          open_shutters rt n w = Ret tt w'
          /\ puts w' = [{| put_pv := "32idb:rshtrA:Open"; put_val := VInt 1; put_wait := false |}]
          /\ warnings w' = []).
Proof.
  intros rt w.
  apply (open_shutters_writes_then_waits rt w "32idb:rshtrA:Open" "PB:32ID:STA_A_FES_CLSD_PL"
           None 2%nat).
  - constructor.
  - reflexivity.
  - reflexivity.
  - reflexivity.
  - exists (pv_at w "ShutterA_Open"). vm_compute. repeat split.
  - exists (pv_at w "ShutterA_Move_Status"). vm_compute. repeat split.
  - intros i Hi.
    destruct i as [|[|i]]; [| |lia]; (split; [exists (VInt 1); split; reflexivity|]);
      vm_compute; reflexivity.
  - exists (VInt 0). split; reflexivity.
Defined.

(** An assignment the session may not make, on an attached session. *)
Lemma refuse_step (rt : Runtime) (name : string) (val : pyval) (n : nat) (w : world)
    (pv : TxmPV.t) :
  callbacks_ok w -> TXM.is_attached (session w) = true ->
  TXM.has_permit (session w) = false ->
  pvs w !! name = Some pv -> TxmPV.permit_required pv = true ->
  exists w',
    setattr_ rt name val n w = Ret tt w'
    /\ callbacks_ok w' /\ session w' = session w /\ now w' = now w
    /\ puts w' = puts w
    /\ warnings w' = (warnings w ++ [permit_warning (TxmPV._namestring pv)])%list
    /\ (forall other e' dt, bound_to w other e' dt -> bound_to w' other e' dt).
Proof.
  intros Hok Hatt Hperm Hpv Hreq. eexists. split.
  { unfold setattr_. rewrite bind_gets, Hpv. exact (set_refused rt name val n w pv Hpv Hreq Hatt Hperm). }
  split.
  { apply (callbacks_ok_same_wait w); [exact Hok|reflexivity|].
    intros s. run. destruct (decide (name = s)) as [<-|Hne].
    - rewrite pv_at_insert, (pv_at_lookup _ _ _ Hpv). reflexivity.
    - rewrite pv_at_insert_ne by exact Hne. reflexivity. }
  repeat split.
  intros other e' dt (pv0 & Hpv0 & Hdt0 & He0). unfold bound_to. run.
  destruct (decide (name = other)) as [<-|Hne].
  - rewrite Hpv in Hpv0. injection Hpv0 as <-. eexists.
    split; [apply lookup_insert_eq|]. split; assumption.
  - exists pv0. split; [rewrite lookup_insert_ne by exact Hne; exact Hpv0|]. split; assumption.
Qed.

(** X16.  [close_shutters] on an attached session that lacks the permit,
    with shutter A selected and shutter B not: the write to [ShutterA_Close]
    is refused with a warning and nothing is handed to the transport, yet
    the call goes on to poll [ShutterA_Move_Status] and returns only at the
    first turn [k] at which it reads [SHUTTER_CLOSED] (within the default
    timeout of 20 s).  Turn [i] reads the status at interaction
    [now w + 2 + 3 i] and the clock at the next one; the start reading is
    taken at [now w + 1]. *)
Theorem close_shutters_without_permit_still_waits (rt : Runtime) (w : world) (pv : TxmPV.t)
    (es : string) (dt : option (pyval -> res pyval)) (k : nat) :
  callbacks_ok w -> TXM.is_attached (session w) = true ->
  TXM.has_permit (session w) = false ->
  TXM.use_shutter_A (session w) = true -> TXM.use_shutter_B (session w) = false ->
  pvs w !! "ShutterA_Close" = Some pv -> TxmPV.permit_required pv = true ->
  bound_to w "ShutterA_Move_Status" es dt ->
  (forall i, (i < k)%nat ->
     (exists v, coerce dt (ca_get rt (now w + 2 + 3 * i) es) = inr v
                /\ py_ne v SHUTTER_CLOSED = true)
     /\ py_ge (VFloat (clock rt (now w + 3 + 3 * i) - clock rt (S (now w)))%float)
          DEFAULT_TIMEOUT = inr false) ->
  (exists v, coerce dt (ca_get rt (now w + 2 + 3 * k) es) = inr v
             /\ py_ne v SHUTTER_CLOSED = false) ->
  (forall n, (n <= k)%nat -> close_shutters rt n w = Blocked)
  /\ (forall n, (k < n)%nat ->
        exists w',
          close_shutters rt n w = Ret tt w'
          /\ puts w' = puts w
          /\ warnings w' = (warnings w ++ [permit_warning (TxmPV._namestring pv)])%list).
Proof.
  intros Hok Hatt Hperm HA HB Hpv Hreq Hst Hbefore Hat.
  split; intros n Hn;
    destruct (refuse_step rt "ShutterA_Close" (VInt 1) n w pv Hok Hatt Hperm Hpv Hreq)
      as (w1 & Hset & Hok1 & Hs1 & Hnow1 & Hputs1 & Hwarn1 & Hkeep1);
    assert (Hatt1 : TXM.is_attached (session w1) = true) by (rewrite Hs1; exact Hatt);
    destruct (shutter_wait rt "ShutterA_Move_Status" SHUTTER_CLOSED w1 es dt k Hok1 Hatt1
                (Hkeep1 _ _ _ Hst)
                ltac:(rewrite Hnow1; exact Hbefore) ltac:(rewrite Hnow1; exact Hat))
      as [Hblk Hret];
    unfold close_shutters; rewrite bind_gets, HA.
  - apply bind_blocked.
    rewrite (shutter_block rt _ _ _ n w w1 Hset), (Hblk n Hn). reflexivity.
  - destruct (Hret n Hn) as (w2 & Hrun & Hs2 & Hputs2 & Hwarn2).
    assert (Hblock :
      (setattr_ rt "ShutterA_Close" (VInt 1) ;;
       wait_pv rt "ShutterA_Move_Status" SHUTTER_CLOSED DEFAULT_TIMEOUT ;; ret tt) n w
      = Ret tt w2) by (rewrite (shutter_block rt _ _ _ n w w1 Hset), Hrun; reflexivity).
    rewrite (bind_returned _ _ n w w2 tt Hblock). rewrite bind_gets.
    rewrite Hs2, Hs1, HB. rewrite (bind_returned _ _ n w2 w2 tt eq_refl). rewrite bind_gets.
    rewrite Hs2, Hs1, HA. cbn [orb]. exists w2. split; [reflexivity|]. split; congruence.
Qed.

(** X16, a witness: [TXM(use_shutter_A=True).close_shutters()] in a hutch
    whose shutter A reads open (0) until interaction 6: the reads at
    interactions 2 and 5 give 0, the read at 8 gives 1, so [k = 2]. *)
Lemma close_shutters_witness :
  let rt := hutch (fun n => if (n <? 6)%nat then VInt 0 else VInt 1) in
  let w := boot rt (TXM_init None None None (Some true) None None None) in
  (forall n, (n <= 2)%nat -> close_shutters rt n w = Blocked)
  /\ (forall n, (2 < n)%nat ->
        exists w',
          close_shutters rt n w = Ret tt w'
          /\ puts w' = []
          /\ warnings w' =
             ["PV <bound method TxmPV.pv_name of <TxmPV: 32idb:rshtrA:Close>> was not set because TXM doesn't have permission."]).
Proof.
  intros rt w.
  apply (close_shutters_without_permit_still_waits rt w (pv_at w "ShutterA_Close")
           "PB:32ID:STA_A_FES_CLSD_PL" None 2%nat).
  - constructor.
  - reflexivity.
  - reflexivity.
  - reflexivity.
  - reflexivity.
  - vm_compute. reflexivity.
  - reflexivity.
  - exists (pv_at w "ShutterA_Move_Status"). vm_compute. repeat split.
  - intros i Hi.
    destruct i as [|[|i]]; [| |lia]; (split; [exists (VInt 0); split; reflexivity|]);
      vm_compute; reflexivity.
  - exists (VInt 1). split; reflexivity.
Defined.

(** ** Cached values *)



(** X18.  Reading a descriptor on a session that is not attached is stable:
    the [dtype] is applied to the cached value at every read and the result
    is stored back, and for the two [dtype]s the class uses, [float] and
    [str], as for none, a second read returns what the first returned and
    leaves the store as the first left it. *)
Theorem unattached_read_is_stable (rt : Runtime) (self : string) (v : pyval) (n : nat)
    (w w1 : world) (pv : TxmPV.t) :
  pvs w !! self = Some pv -> TXM.is_attached (session w) = false ->
  TxmPV.dtype pv = None \/ TxmPV.dtype pv = Some (py_float rt)
  \/ TxmPV.dtype pv = Some (py_str_dtype rt) ->
  __get__ rt self n w = Ret v w1 ->
  __get__ rt self n w1 = Ret v w1.
Proof.
  intros Hpv Hatt Hdt Hget.
  destruct (coerce (TxmPV.dtype pv) (TxmPV.curr_value pv)) as [err|v0] eqn:Hv.
  - exfalso. unfold __get__ in Hget. revert Hget. step Hpv. rewrite Hatt. step Hpv.
    unfold coerce in Hv. destruct (TxmPV.dtype pv) as [d|]; [|discriminate Hv].
    step Hpv. rewrite Hv. discriminate.
  - rewrite (get_unattached rt self n w pv v0 Hpv Hatt Hv) in Hget. injection Hget as <- <-.
    assert (Hidem : coerce (TxmPV.dtype pv) v0 = inr v0).
    { unfold coerce in *. destruct Hdt as [Hd|[Hd|Hd]]; rewrite Hd in *.
      - reflexivity.
      - destruct (TxmPV.curr_value pv) as [|b|z|f|s]; cbn in Hv.
        + discriminate Hv.
        + injection Hv as <-. reflexivity.
        + unfold res_bind in Hv. destruct (float_of_int z); [discriminate Hv|].
          injection Hv as <-. reflexivity.
        + injection Hv as <-. reflexivity.
        + destruct (float_parse rt s); [|discriminate Hv]. injection Hv as <-. reflexivity.
      - unfold py_str_dtype in *. injection Hv as <-. reflexivity. }
    rewrite (get_unattached rt self n _ (TxmPV.set_curr_value v0 pv) v0).
    + f_equal. run. rewrite insert_insert_eq. reflexivity.
    + apply lookup_insert_eq.
    + exact Hatt.
    + exact Hidem.
Qed.

(** X18, a witness: [DCMputEnergy], declared with [dtype=float] and the
    default 8.6, read twice on [TXM(is_attached=False)]. *)
Lemma unattached_read_is_stable_witness :
  let rt := beamline (VInt 0) 0 in
  let w := boot rt offline in
  let w1 := final_store (__get__ rt "DCMputEnergy" 0%nat w) w in
  __get__ rt "DCMputEnergy" 0%nat w1 = Ret (VFloat 8.6) w1.
Proof.
  intros rt w w1.
  apply (unattached_read_is_stable rt "DCMputEnergy" (VFloat 8.6) 0%nat w w1
           (pv_at w "DCMputEnergy")).
  - apply declared_pv_at. vm_compute. exact I.
  - reflexivity.
  - right. left. reflexivity.
  - apply returns_eta. vm_compute. reflexivity.
Defined.
